(** * Traffic monitor: a shallow embedding of [traffic_monitor.py]

    The development follows the Python module top-down:

    - [Float]: Python's [float] is IEEE-754 binary64.  It is modelled by
      [spec_float] with [prec = 53] and [emax = 1024], the executable
      specification of binary64 shipped with the prover, so every
      arithmetic step rounds the way the interpreter rounds.
    - [Str]: the [str] methods and the regular expressions the module
      uses ([strip], [lower], [split], [in], [re.match], [re.search]).
    - the unit converters, the sample parser, the history store, the
      baseline statistics, the spike detector, the notifier and the run
      controller, each under the name it has in the source.

    Strings are sequences of 8-bit characters (code points U+0000 to
    U+00FF); JSON numbers are binary64 floats, which is what the program
    itself writes to its history file. *)

From Stdlib Require Import ZArith QArith Qreduction Qpower Qabs Lia Lqa Bool.
From Stdlib Require Import Ascii String.
From Stdlib Require Import DecimalString DecimalN.
From Stdlib Require Import Floats.SpecFloat.
From stdpp Require Import base option list strings gmap.

Local Open Scope string_scope.
Local Open Scope list_scope.
Local Open Scope Z_scope.
Set Warnings "-register-all".

(** ** Exceptions and results *)

(** The exception classes that can reach a handler of the module. *)
Inductive exn :=
  | ValueError | TypeError | KeyError | AttributeError
  | StatisticsError | OverflowError | RuntimeError | IndexError
  | UnicodeDecodeError | JSONDecodeError | RecursionError | IOError
  | RequestException.

#[global] Instance exn_eq_dec : EqDecision exn.
Proof. solve_decision. Defined.

(** A Python expression either evaluates to a value or raises. *)
Inductive result (A : Type) :=
  | Ok (a : A)
  | Raise (e : exn).
Arguments Ok {A} a.
Arguments Raise {A} e.

Definition rbind {A B} (r : result A) (k : A -> result B) : result B :=
  match r with
  | Ok a => k a
  | Raise e => Raise e
  end.

Definition returns {A} (r : result A) : Prop := exists a, r = Ok a.

(** ** Binary64 floats *)

Module Float.

Definition prec : Z := 53.
Definition emax : Z := 1024.

Definition float := spec_float.

Definition add : float -> float -> float := SFadd prec emax.
Definition sub : float -> float -> float := SFsub prec emax.
Definition mul : float -> float -> float := SFmul prec emax.
Definition div : float -> float -> float := SFdiv prec emax.
Definition eqb : float -> float -> bool := SFeqb.
Definition ltb : float -> float -> bool := SFltb.
Definition leb : float -> float -> bool := SFleb.

(** [float(n)] for a Python [int] small enough to convert. *)
Definition of_Z (n : Z) : float := binary_normalize prec emax n 0 false.

(** The binary64 value nearest to [n / d] (ties to even) with the
    sign [s], for [0 <= n] and [0 < d]; overflow gives an infinity. *)
Definition of_ratio (s : bool) (n d : Z) : float :=
  let '(q, e, l) := SFdiv_core_binary prec emax n 0 d 0 in
  binary_round_aux prec emax s q e l.

Definition zero : float := S754_zero false.

Definition is_finite (x : float) : bool :=
  match x with
  | S754_zero _ | S754_finite _ _ _ => true
  | _ => false
  end.

Definition is_nan (x : float) : bool :=
  match x with
  | S754_nan => true
  | _ => false
  end.

(** [0 <= x] as the interpreter evaluates it: false on NaN. *)
Definition nonneg (x : float) : bool := leb zero x.

(** The exact value of a finite float, [float.as_integer_ratio]. *)
Definition to_Q (x : float) : option Q :=
  match x with
  | S754_zero _ => Some 0%Q
  | S754_finite s m e =>
      let n := if s then Zneg m else Zpos m in
      Some (Qred (match e with
                  | Zneg k => n # (2 ^ k)%positive
                  | _ => (n * 2 ^ e) # 1
                  end))
  | _ => None
  end.

End Float.

Abbreviation float := Float.float.

(** ** Strings *)

Module Str.

Definition code (c : ascii) : N := N_of_ascii c.

(** [str.isspace] on one character, which is also the class [\s]. *)
Definition is_space (c : ascii) : bool :=
  let n := code c in
  ((9 <=? n) && (n <=? 13) || (28 <=? n) && (n <=? 32)
   || (n =? 133) || (n =? 160))%N.

(** The class [\d]. *)
Definition is_digit (c : ascii) : bool :=
  let n := code c in ((48 <=? n) && (n <=? 57))%N.

(** The class [[\d.]]. *)
Definition is_digit_or_dot (c : ascii) : bool :=
  is_digit c || bool_decide (c = "."%char).

Definition lower_char (c : ascii) : ascii :=
  let n := code c in
  if ((65 <=? n) && (n <=? 90)
      || (192 <=? n) && (n <=? 222) && negb (n =? 215))%N
  then ascii_of_N (n + 32) else c.

Fixpoint lower (s : string) : string :=
  match s with
  | "" => ""
  | String c s' => String (lower_char c) (lower s')
  end.

Fixpoint take_while (p : ascii -> bool) (s : string) : string :=
  match s with
  | "" => ""
  | String c s' => if p c then String c (take_while p s') else ""
  end.

Fixpoint drop_while (p : ascii -> bool) (s : string) : string :=
  match s with
  | "" => ""
  | String c s' => if p c then drop_while p s' else s
  end.

Definition lstrip (s : string) : string := drop_while is_space s.

Fixpoint rstrip (s : string) : string :=
  match s with
  | "" => ""
  | String c s' =>
      match rstrip s' with
      | "" => if is_space c then "" else String c ""
      | r => String c r
      end
  end.

Definition strip (s : string) : string := rstrip (lstrip s).

(** [s.split(sep)] for a one-character separator. *)
Fixpoint split (sep : ascii) (s : string) : list string :=
  match s with
  | "" => [""]
  | String c s' =>
      if bool_decide (c = sep) then "" :: split sep s'
      else match split sep s' with
           | h :: t => String c h :: t
           | [] => [String c ""]
           end
  end.

Fixpoint starts_with (p s : string) : bool :=
  match p, s with
  | "", _ => true
  | String a p', String b s' => bool_decide (a = b) && starts_with p' s'
  | _, "" => false
  end.

(** [p in s]. *)
Fixpoint contains (p s : string) : bool :=
  starts_with p s ||
  match s with
  | "" => false
  | String _ s' => contains p s'
  end.

(** The digits of a string, as a number in base ten. *)
Fixpoint digits_value (acc : Z) (s : string) : Z :=
  match s with
  | "" => acc
  | String c s' => digits_value (10 * acc + (Z.of_N (code c) - 48)) s'
  end.

End Str.

(** ** The built-in [float(...)] on a [[\d.]+] token

    The converters only ever hand [float] the text captured by the group
    [([\d.]+)].  On such a token [float] accepts exactly the decimal
    literals: at least one digit and at most one point.  Its result is
    the correctly rounded value; a literal too large for a double
    gives [inf], not an error. *)
Definition py_float (tok : string) : result float :=
  let int_part := Str.take_while Str.is_digit tok in
  let after := Str.drop_while Str.is_digit tok in
  match after with
  | "" => if bool_decide (int_part = "") then Raise ValueError
          else Ok (Float.of_ratio false (Str.digits_value 0 int_part) 1)
  | String c frac =>
      if bool_decide (c = "."%char)
         && bool_decide (Str.drop_while Str.is_digit frac = "")
         && negb (bool_decide (int_part = "") && bool_decide (frac = ""))
      then Ok (Float.of_ratio false (Str.digits_value 0 (int_part +:+ frac))
                         (10 ^ Z.of_nat (String.length frac)))
      else Raise ValueError
  end.

(** ** Regular expressions of the module

    Each pattern is matched by a scanner that takes the greedy choice at
    every quantifier.  For these patterns the greedy choice is the only
    one that can succeed, so the scanner agrees with a backtracking
    matcher: what follows [[\d.]+] never starts with a digit or a point,
    what follows [\s*] never starts with a blank, and an optional letter
    that is present is never the first letter of what follows it.  The
    one place where giving characters back matters, [\s+(.+)], is
    written with its fallback. *)
Module Re.

(** An optional single character of class [p]: [[p]?]. *)
Definition opt (p : ascii -> bool) (s : string) : string * string :=
  match s with
  | String c s' => if p c then (String c "", s') else ("", s)
  | "" => ("", "")
  end.

Definition is_kmgt (c : ascii) : bool :=
  bool_decide (c = "k"%char) || bool_decide (c = "m"%char)
  || bool_decide (c = "g"%char) || bool_decide (c = "t"%char).

Definition is_i (c : ascii) : bool := bool_decide (c = "i"%char).

(** [re.match(r'([\d.]+)\s*([kmgt]?i?b)', s)]: the two groups. *)
Definition match_bytes (s : string) : option (string * string) :=
  let g1 := Str.take_while Str.is_digit_or_dot s in
  if bool_decide (g1 = "") then None
  else
    let r := Str.drop_while Str.is_space
               (Str.drop_while Str.is_digit_or_dot s) in
    let '(p, r1) := opt is_kmgt r in
    let '(i, r2) := opt is_i r1 in
    if Str.starts_with "b" r2 then Some (g1, p +:+ i +:+ "b") else None.

(** [re.match(r'([\d.]+)\s*(k|m|g|t)?\s*bit/s', s)]: group 1 and
    group 2, the latter [None] when the alternative did not take part. *)
Definition match_rate (s : string) : option (string * option string) :=
  let g1 := Str.take_while Str.is_digit_or_dot s in
  if bool_decide (g1 = "") then None
  else
    let r := Str.drop_while Str.is_space
               (Str.drop_while Str.is_digit_or_dot s) in
    let '(u, r1) := opt is_kmgt r in
    let r2 := Str.drop_while Str.is_space r1 in
    if Str.starts_with "bit/s" r2
    then Some (g1, if bool_decide (u = "") then None else Some u)
    else None.

(** [\d{2}:\d{2}] at the head of [s]: the label and what follows. *)
Definition time_label (s : string) : option (string * string) :=
  match s with
  | String a (String b (String c (String d (String e rest)))) =>
      if Str.is_digit a && Str.is_digit b && bool_decide (c = ":"%char)
         && Str.is_digit d && Str.is_digit e
      then Some (String a (String b (String c (String d (String e "")))),
                 rest)
      else None
  | _ => None
  end.

(** [re.search(r'(\d{2}:\d{2})', s)]: group 1 of the leftmost match. *)
Fixpoint search_time (s : string) : option string :=
  match time_label s with
  | Some (lbl, _) => Some lbl
  | None =>
      match s with
      | "" => None
      | String _ s' => search_time s'
      end
  end.

Definition not_newline (c : ascii) : bool :=
  negb (bool_decide (c = "010"%char)).

(** [(.+)] at the head of [s]; the point does not match a newline. *)
Definition dot_plus (s : string) : option string :=
  let g := Str.take_while not_newline s in
  if bool_decide (g = "") then None else Some g.

(** [\s+(.+)] at the head of [s]: the blanks are taken greedily and
    given back one at a time until [(.+)] finds a character. *)
Fixpoint blanks_then_rest (s : string) : option string :=
  match s with
  | String c s' =>
      if Str.is_space c then
        match blanks_then_rest s' with
        | Some g => Some g
        | None => dot_plus s'
        end
      else None
  | "" => None
  end.

(** [re.search(r'\d{2}:\d{2}\s+(.+)', s)]: group 1 of the leftmost
    match. *)
Fixpoint search_rx (s : string) : option string :=
  match
    match time_label s with
    | Some (_, rest) => blanks_then_rest rest
    | None => None
    end
  with
  | Some g => Some g
  | None =>
      match s with
      | "" => None
      | String _ s' => search_rx s'
      end
  end.

End Re.

(** ** Unit converter *)

(** The table of [convert_to_bytes]. *)
Definition byte_multipliers : gmap string Z :=
  {[ "b" := 1; "kib" := 1024; "mib" := 1024 ^ 2;
     "gib" := 1024 ^ 3; "tib" := 1024 ^ 4 ]}.

(** The table of [convert_rate_to_bps]. *)
Definition rate_multipliers : gmap string Z :=
  {[ "" := 1; "k" := 1000; "m" := 1000 ^ 2;
     "g" := 1000 ^ 3; "t" := 1000 ^ 4 ]}.

(** [d.get(key, 1)] *)
Definition get_or_1 (d : gmap string Z) (key : string) : Z :=
  default 1 (d !! key).

Definition convert_to_bytes (value_str : string) : result float :=
  let value_str := Str.lower (Str.strip value_str) in
  match Re.match_bytes value_str with
  | None => Ok Float.zero
  | Some (g1, unit) =>
      rbind (py_float g1) (fun value =>
      Ok (Float.mul value (Float.of_Z (get_or_1 byte_multipliers unit))))
  end.

Definition convert_rate_to_bps (rate_str : string) : result float :=
  let rate_str := Str.lower (Str.strip rate_str) in
  if Str.contains "bit/s" rate_str then
    match Re.match_rate rate_str with
    | Some (g1, g2) =>
        rbind (py_float g1) (fun value =>
        let unit := default "" g2 in
        Ok (Float.mul value (Float.of_Z (get_or_1 rate_multipliers unit))))
    | None => Ok Float.zero
    end
  else Ok Float.zero.

(** ** Data model *)

Definition SPIKE_THRESHOLD : float := Float.of_Z 2.
Definition MAX_HISTORY : nat := 20.

(** [class TrafficData(NamedTuple)] *)
Record TrafficData := {
  timestamp : string;
  time : string;
  rx_bytes : float;
  tx_bytes : float;
  total_bytes : float;
  avg_rate_bps : float
}.

(** The attributes of [TrafficMonitor] set by [__init__]. *)
Record TrafficMonitor := {
  server_name : string;
  server_ip : string;
  interface : string;
  debug : bool
}.

(** What [json.load] can return and [json.dump] is given.  A [JObj]
    lists the pairs of a [dict] in insertion order. *)
Inductive json :=
  | JNull
  | JNum (x : float)
  | JStr (s : string)
  | JArr (l : list json)
  | JObj (kv : list (string * json)).

(** The inner dictionary of [calculate_historical_stats]. *)
Record traffic_stats := {
  mean : float;
  stdev : float;
  count : nat
}.

(** The value of ["current_traffic"] in a spike alert. *)
Record current_traffic := {
  ct_total_bytes : float;
  ct_rx_bytes : float;
  ct_tx_bytes : float;
  ct_avg_rate_bps : float;
  ct_total_formatted : string;
  ct_rx_formatted : string;
  ct_tx_formatted : string;
  ct_rate_formatted : string
}.

(** The value of ["historical_stats"] in a spike alert. *)
Record alert_stats := {
  as_mean : float;
  as_stdev : float;
  as_count : nat;
  as_mean_formatted : string;
  as_stdev_formatted : string
}.

(** The dictionary [alert_data] of [send_spike_alert]. *)
Record spike_alert := {
  sa_type : string;
  sa_timestamp : string;
  sa_server_name : string;
  sa_server_ip : string;
  sa_interface : string;
  sa_spike_time : string;
  sa_current_traffic : current_traffic;
  sa_z_score : float;
  sa_threshold : float;
  sa_historical_stats : alert_stats
}.

(** The dictionaries [health_data] and [error_data]; [str(e)] is kept
    as the exception it renders. *)
Record health_check := {
  hc_type : string;
  hc_timestamp : string;
  hc_server_name : string;
  hc_server_ip : string;
  hc_interface : string;
  hc_status : string;
  hc_service : string;
  hc_error_message : option exn
}.

Inductive payload :=
  | SpikeAlert (a : spike_alert)
  | HealthCheck (h : health_check).

(** ** The environment of one run *)

(** What [subprocess.run(["vnstat", ...], check=True)] does. *)
Inductive vnstat_outcome :=
  | VnstatOutput (stdout : string)
  | VnstatCalledProcessError
  | VnstatFileNotFound
  | VnstatRaises (e : exn).

(** The history file as [os.path.exists], [open] and [json.load] see it:
    missing; present but [open] or [read] fails with [IOError]; present
    but not text in the expected encoding; text that is not JSON, an
    empty or cut-off text among them; a JSON document whose containers
    are nested deeper than the interpreter's recursion limit lets the
    decoder go; or a JSON document that the decoder and the encoder
    handle within that limit, with the value [json.load] returns for
    it. *)
Inductive file_state :=
  | FileAbsent
  | FileUnreadable
  | FileUndecodable
  | FileNotJSON
  | FileTooDeep
  | FileJSON (v : json).

(** How a write of the history file fails when it does: [open] itself
    fails and the file is left alone, or [open] has emptied the file
    and a later write of [json.dump] or the closing flush fails, which
    leaves an empty or cut-off text. *)
Inductive write_fault := OpenFails | DumpFails.

Inductive level := DEBUG | INFO | WARNING | ERROR | STDOUT.

Record world := {
  vnstat : vnstat_outcome;
  clock : nat -> string;
  ticks : nat;
  history_file : file_state;
  history_writable : bool;
  history_fault : write_fault;
  endpoint_up : payload -> bool;
  posted : list payload;
  log : list (level * string)
}.

Definition set_ticks (n : nat) (w : world) : world :=
  {| vnstat := vnstat w; clock := clock w; ticks := n;
     history_file := history_file w;
     history_writable := history_writable w;
     history_fault := history_fault w;
     endpoint_up := endpoint_up w; posted := posted w; log := log w |}.

Definition set_history_file (f : file_state) (w : world) : world :=
  {| vnstat := vnstat w; clock := clock w; ticks := ticks w;
     history_file := f;
     history_writable := history_writable w;
     history_fault := history_fault w;
     endpoint_up := endpoint_up w; posted := posted w; log := log w |}.

Definition set_posted (p : list payload) (w : world) : world :=
  {| vnstat := vnstat w; clock := clock w; ticks := ticks w;
     history_file := history_file w;
     history_writable := history_writable w;
     history_fault := history_fault w;
     endpoint_up := endpoint_up w; posted := p; log := log w |}.

Definition set_log (l : list (level * string)) (w : world) : world :=
  {| vnstat := vnstat w; clock := clock w; ticks := ticks w;
     history_file := history_file w;
     history_writable := history_writable w;
     history_fault := history_fault w;
     endpoint_up := endpoint_up w; posted := posted w; log := l |}.

(** ** Effects: state and exceptions *)

Definition M (A : Type) : Type := world -> result A * world.

#[global] Instance M_ret : MRet M := fun A a w => (Ok a, w).

#[global] Instance M_bind : MBind M := fun A B k c w =>
  match c w with
  | (Ok a, w') => k a w'
  | (Raise e, w') => (Raise e, w')
  end.

Definition raise {A} (e : exn) : M A := fun w => (Raise e, w).

Definition lift {A} (r : result A) : M A := fun w => (r, w).

(** [try: body  except <classes>: handler]; [handles] tells which
    exceptions the clause names. *)
Definition try_except {A} (body : M A) (handles : exn -> bool)
    (handler : exn -> M A) : M A := fun w =>
  match body w with
  | (Raise e, w') => if handles e then handler e w' else (Raise e, w')
  | r => r
  end.

Definition gets {A} (f : world -> A) : M A := fun w => (Ok (f w), w).

Definition modify (f : world -> world) : M unit := fun w => (Ok tt, f w).

(** A call of [self.logger.<level>] or of [print]; the text is the
    literal part of the message. *)
Definition logger (l : level) (msg : string) : M unit :=
  modify (fun w => set_log (log w ++ [(l, msg)]) w).

(** [datetime.now().isoformat()] *)
Definition now : M string := fun w =>
  (Ok (clock w (ticks w)), set_ticks (S (ticks w)) w).

(** [for x in xs: acc = body(acc, x)] *)
Fixpoint for_each {A S} (xs : list A) (body : S -> A -> M S) (acc : S)
    : M S :=
  match xs with
  | [] => mret acc
  | x :: xs' => acc' ← body acc x; for_each xs' body acc'
  end.

(** [except Exception] and a bare [except] catch every class here. *)
Definition any_exception (e : exn) : bool := true.

(** ** Built-in operations on numbers *)

Module Py.

Definition bit_length (n : Z) : Z :=
  if n =? 0 then 0 else Z.log2 (Z.abs n) + 1.

(** [a / b] on [int]s with [0 < b]: the correctly rounded quotient,
    [OverflowError] when it is too large for a double. *)
Definition int_true_div (a b : Z) : result float :=
  let x := Float.of_ratio (a <? 0) (Z.abs a) b in
  if Float.is_finite x then Ok x else Raise OverflowError.

(** The integer nearest to [a / b], ties to even ([0 <= a], [0 < b]). *)
Definition round_half_even (a b : Z) : Z :=
  let q := a / b in
  match 2 * (a mod b) ?= b with
  | Lt => q
  | Gt => q + 1
  | Eq => if Z.even q then q else q + 1
  end.

(** [m * 2^e] in hundredths, rounded to an integer. *)
Definition hundredths (m : positive) (e : Z) : Z :=
  match e with
  | Zneg k => round_half_even (Zpos m * 100) (2 ^ Zpos k)
  | _ => Zpos m * 2 ^ e * 100
  end.

(** [round(x, 2)]: the decimal with two places nearest to [x], read
    back as a double; non-finite values are returned as they are. *)
Definition round2 (x : float) : float :=
  match x with
  | S754_finite s m e => Float.of_ratio s (hundredths m e) 100
  | _ => x
  end.

Definition decimal (n : Z) : string :=
  NilZero.string_of_uint (N.to_uint (Z.to_N n)).

Definition fixed2 (s : bool) (n : Z) : string :=
  (if s then "-" else "") +:+ decimal (n / 100) +:+ "."
  +:+ (if n mod 100 <? 10 then "0" else "") +:+ decimal (n mod 100).

(** [f"{x:.2f}"] *)
Definition format_2f (x : float) : string :=
  match x with
  | S754_nan => "nan"
  | S754_infinity s => if s then "-inf" else "inf"
  | S754_zero s => fixed2 s 0
  | S754_finite s m e => fixed2 s (hundredths m e)
  end.

(** [len(v)] *)
Definition len (v : json) : result nat :=
  match v with
  | JStr s => Ok (String.length s)
  | JArr l => Ok (length l)
  | JObj kv => Ok (length kv)
  | JNull | JNum _ => Raise TypeError
  end.

(** The truth value of [v], as [not v] and [if v] use it. *)
Definition truthy (v : json) : bool :=
  match v with
  | JNull => false
  | JNum x => negb (Float.eqb x Float.zero)
  | JStr s => negb (bool_decide (s = ""))
  | JArr l => negb (bool_decide (length l = 0%nat))
  | JObj kv => negb (bool_decide (length kv = 0%nat))
  end.

Fixpoint chars (s : string) : list json :=
  match s with
  | "" => []
  | String c s' => JStr (String c "") :: chars s'
  end.

(** The items [for x in v] visits. *)
Definition iter (v : json) : result (list json) :=
  match v with
  | JArr l => Ok l
  | JObj kv => Ok (map (fun p => JStr (fst p)) kv)
  | JStr s => Ok (chars s)
  | JNull | JNum _ => Raise TypeError
  end.

Fixpoint assoc (key : string) (kv : list (string * json)) : option json :=
  match kv with
  | [] => None
  | (k, v) :: kv' => if bool_decide (k = key) then Some v else assoc key kv'
  end.

(** [v[key]] for a string key. *)
Definition getitem (v : json) (key : string) : result json :=
  match v with
  | JObj kv =>
      match assoc key kv with
      | Some x => Ok x
      | None => Raise KeyError
      end
  | _ => Raise TypeError
  end.

(** [l[-n:]] *)
Definition last_n {A} (n : nat) (l : list A) : list A :=
  drop (length l - n) l.

End Py.

(** ** The standard module [statistics]

    [mean] and [stdev] as CPython 3.11 defines them on a list of
    floats: the data are summed as exact fractions and rounded once at
    the end.  Values that are not finite take the side path of [_sum]
    and [_ss]. *)
Module statistics.

Inductive ratio :=
  | Exact (q : Q)
  | NonFinite (x : float).

(** [_exact_ratio] *)
Definition _exact_ratio (v : json) : result ratio :=
  match v with
  | JNum x =>
      match Float.to_Q x with
      | Some q => Ok (Exact q)
      | None => Ok (NonFinite x)
      end
  | _ => Raise TypeError
  end.

(** The accumulators of the loops of [_sum] and [_ss]: the count, the
    exact sums of the values and of their squares, and the entry of
    the partial sums under the key [None]. *)
Record partials := {
  p_count : nat;
  p_sx : Q;
  p_sxx : Q;
  p_none : option float
}.

Definition empty : partials :=
  {| p_count := 0; p_sx := 0%Q; p_sxx := 0%Q; p_none := None |}.

Definition step (p : partials) (v : json) : result partials :=
  rbind (_exact_ratio v) (fun r =>
  match r with
  | Exact q =>
      Ok {| p_count := S (p_count p); p_sx := Qplus (p_sx p) q;
            p_sxx := Qplus (p_sxx p) (Qmult q q); p_none := p_none p |}
  | NonFinite x =>
      Ok {| p_count := S (p_count p); p_sx := p_sx p; p_sxx := p_sxx p;
            p_none := Some (Float.add (default (Float.of_Z 0) (p_none p))
                                      x) |}
  end).

Fixpoint accumulate (p : partials) (data : list json) : result partials :=
  match data with
  | [] => Ok p
  | v :: data' => rbind (step p v) (fun p' => accumulate p' data')
  end.

(** [float(q)] for a fraction [q]. *)
Definition float_of_fraction (q : Q) : result float :=
  let q := Qred q in
  Py.int_true_div (Qnum q) (Zpos (Qden q)).

Definition Q_of_nat (n : nat) : Q := inject_Z (Z.of_nat n).

Definition mean (data : list json) : result float :=
  rbind (accumulate empty data) (fun p =>
  if bool_decide (p_count p < 1)%nat then Raise StatisticsError
  else
    match p_none p with
    | Some total => Ok (Float.div total (Float.of_Z (Z.of_nat (p_count p))))
    | None => float_of_fraction (Qdiv (p_sx p) (Q_of_nat (p_count p)))
    end).

(** [_integer_sqrt_of_frac_rto] *)
Definition _integer_sqrt_of_frac_rto (n m : Z) : Z :=
  let a := Z.sqrt (n / m) in
  Z.lor a (if a * a * m =? n then 0 else 1).

(** [_float_sqrt_of_frac] *)
Definition _float_sqrt_of_frac (n m : Z) : result float :=
  let q := (Py.bit_length n - Py.bit_length m - 109) / 2 in
  if 0 <=? q then
    Py.int_true_div
      (Z.shiftl (_integer_sqrt_of_frac_rto n (Z.shiftl m (2 * q))) q) 1
  else
    Py.int_true_div
      (_integer_sqrt_of_frac_rto (Z.shiftl n (-2 * q)) m)
      (Z.shiftl 1 (- q)).

(** The sum of square deviations [_ss] returns on finite data. *)
Definition ssd (p : partials) : Q :=
  let n := Q_of_nat (p_count p) in
  Qdiv (Qminus (Qmult n (p_sxx p)) (Qmult (p_sx p) (p_sx p))) n.

Definition stdev (data : list json) : result float :=
  rbind (accumulate empty data) (fun p =>
  if bool_decide (p_count p < 2)%nat then Raise StatisticsError
  else
    match p_none p with
    | Some _ => Raise AttributeError
    | None =>
        let mss := Qred (Qdiv (ssd p) (Q_of_nat (p_count p - 1))) in
        _float_sqrt_of_frac (Qnum mss) (Zpos (Qden mss))
    end).

End statistics.

(** ** History store *)

(** [os.path.exists(HISTORY_FILE)] *)
Definition os_path_exists : M bool :=
  gets (fun w => match history_file w with
                 | FileAbsent => false
                 | _ => true
                 end).

(** [with open(HISTORY_FILE, 'r') as f: json.load(f)] *)
Definition read_history_file : M json := fun w =>
  match history_file w with
  | FileJSON v => (Ok v, w)
  | FileTooDeep => (Raise RecursionError, w)
  | FileNotJSON => (Raise JSONDecodeError, w)
  | FileUndecodable => (Raise UnicodeDecodeError, w)
  | FileUnreadable | FileAbsent => (Raise IOError, w)
  end.

(** [with open(HISTORY_FILE, 'w') as f: json.dump(history, f, indent=2)].
    The text of a list ends with its closing bracket, so what a write
    that fails half-way leaves behind is no JSON document. *)
Definition write_history_file (history : list json) : M unit := fun w =>
  if history_writable w
  then (Ok tt, set_history_file (FileJSON (JArr history)) w)
  else
    match history_fault w with
    | OpenFails => (Raise IOError, w)
    | DumpFails => (Raise IOError, set_history_file FileNotJSON w)
    end.

Definition is_JSONDecodeError_or_IOError (e : exn) : bool :=
  match e with
  | JSONDecodeError | IOError => true
  | _ => false
  end.

Definition is_IOError (e : exn) : bool :=
  match e with
  | IOError => true
  | _ => false
  end.

Definition load_history (self : TrafficMonitor) : M json :=
  exists_ ← os_path_exists;
  if negb exists_ then
    logger INFO "History file not found, starting with empty history";;
    mret (JArr [])
  else
    try_except
      (history ← read_history_file;
       _ ← lift (Py.len history);
       logger INFO "Loaded {len(history)} historical records";;
       mret history)
      is_JSONDecodeError_or_IOError
      (fun e =>
         logger ERROR "Failed to load history file: {e}";;
         mret (JArr [])).

Definition save_history (self : TrafficMonitor) (history : list json)
    : M unit :=
  try_except
    (let history :=
       if Nat.ltb MAX_HISTORY (length history)
       then Py.last_n MAX_HISTORY history else history in
     write_history_file history;;
     logger INFO "Saved {len(history)} records to history file")
    is_IOError
    (fun e => logger ERROR "Failed to save history file: {e}").

(** The dictionary [current_record] of [add_to_history]. *)
Definition current_record (current_data : TrafficData) : json :=
  JObj [("timestamp", JStr (timestamp current_data));
        ("time", JStr (time current_data));
        ("rx_bytes", JNum (rx_bytes current_data));
        ("tx_bytes", JNum (tx_bytes current_data));
        ("total_bytes", JNum (total_bytes current_data));
        ("avg_rate_bps", JNum (avg_rate_bps current_data))].

(** [history.append(x)]: only a list has the method. *)
Definition py_append (history : json) (x : json) : result (list json) :=
  match history with
  | JArr l => Ok (l ++ [x])
  | _ => Raise AttributeError
  end.

Definition add_to_history (self : TrafficMonitor)
    (current_data : TrafficData) : M (list json) :=
  history ← load_history self;
  history ← lift (py_append history (current_record current_data));
  let history :=
    if Nat.ltb MAX_HISTORY (length history)
    then Py.last_n MAX_HISTORY history else history in
  save_history self history;;
  mret history.

(** ** Baseline statistics *)

(** [[record['total_bytes'] for record in history]] *)
Fixpoint total_bytes_of (records : list json) : result (list json) :=
  match records with
  | [] => Ok []
  | record :: records' =>
      rbind (Py.getitem record "total_bytes") (fun x =>
      rbind (total_bytes_of records') (fun xs => Ok (x :: xs)))
  end.

Definition calculate_historical_stats (self : TrafficMonitor)
    (history : json) : result (gmap string traffic_stats) :=
  if negb (Py.truthy history) then Ok ∅
  else
    rbind (Py.iter history) (fun records =>
    rbind (total_bytes_of records) (fun total_bytes =>
    rbind (statistics.mean total_bytes) (fun mean_ =>
    rbind (if Nat.ltb 1 (length total_bytes)
           then statistics.stdev total_bytes
           else Ok (Float.of_Z 0)) (fun stdev_ =>
    Ok {[ "total_traffic" :=
            {| mean := mean_; stdev := stdev_;
               count := length total_bytes |} ]})))).

(** ** Formatting *)

Fixpoint format_loop (base : float) (units : list string) (last : string)
    (value : float) : string :=
  match units with
  | [] => Py.format_2f value +:+ " " +:+ last
  | unit :: units' =>
      if Float.ltb value base then Py.format_2f value +:+ " " +:+ unit
      else format_loop base units' last (Float.div value base)
  end.

Definition format_bytes (self : TrafficMonitor) (bytes_value : float)
    : string :=
  format_loop (Float.of_Z 1024) ["B"; "KiB"; "MiB"; "GiB"; "TiB"] "PiB"
    bytes_value.

Definition format_rate (self : TrafficMonitor) (rate_bps : float)
    : string :=
  format_loop (Float.of_Z 1000) ["bit/s"; "kbit/s"; "Mbit/s"; "Gbit/s"]
    "Tbit/s" rate_bps.

(** ** Spike detector *)

Definition detect_spike (self : TrafficMonitor) (current_data : TrafficData)
    (historical_stats : gmap string traffic_stats) : M (bool * float) :=
  match historical_stats !! "total_traffic" with
  | None =>
      logger INFO "No historical data available for spike detection";;
      mret (false, Float.zero)
  | Some st =>
      let mean := mean st in
      let stdev := stdev st in
      if Float.eqb stdev (Float.of_Z 0) then
        logger INFO "Standard deviation is 0, cannot detect spikes";;
        mret (false, Float.zero)
      else
        let z_score :=
          Float.div (Float.sub (total_bytes current_data) mean) stdev in
        let threshold := Float.add mean (Float.mul SPIKE_THRESHOLD stdev) in
        let is_spike := Float.ltb threshold (total_bytes current_data) in
        (if debug self
         then logger DEBUG
                "Spike detection: current={}, mean={}, threshold={}, z_score={z_score:.2f}, is_spike={is_spike}"
         else mret tt);;
        mret (is_spike, z_score)
  end.

(** ** Notifier *)

(** [requests.post(APPS_SCRIPT_URL, json=data, ...)] followed by
    [response.raise_for_status()].  Every call is recorded in [posted],
    delivered or not. *)
Definition requests_post (data : payload) : M unit := fun w =>
  let w' := set_posted (posted w ++ [data]) w in
  if endpoint_up w data then (Ok tt, w') else (Raise RequestException, w').

Definition is_RequestException (e : exn) : bool :=
  match e with
  | RequestException => true
  | _ => false
  end.

Definition send_to_apps_script (self : TrafficMonitor) (data : payload)
    : M bool :=
  try_except
    (requests_post data;;
     logger INFO "Successfully sent {data.get('type', 'unknown')} to Apps Script";;
     (if debug self then logger DEBUG "Response: {response.text}"
      else mret tt);;
     mret true)
    is_RequestException
    (fun e =>
       logger ERROR "Failed to send data to Apps Script: {e}";;
       mret false).

Definition send_health_check (self : TrafficMonitor)
    (current_data : TrafficData) : M unit :=
  let health_data :=
    {| hc_type := "health_check";
       hc_timestamp := timestamp current_data;
       hc_server_name := server_name self;
       hc_server_ip := server_ip self;
       hc_interface := interface self;
       hc_status := "healthy";
       hc_service := "traffic_monitor";
       hc_error_message := None |} in
  success ← send_to_apps_script self (HealthCheck health_data);
  if success : bool
  then logger STDOUT "Health check sent successfully - {server_name} ({server_ip}) - {interface}"
  else logger STDOUT "Health check failed - {server_name} ({server_ip}) - {interface}".

(** The dictionary [alert_data], given the entry
    [historical_stats['total_traffic']]. *)
Definition alert_data (self : TrafficMonitor) (current_data : TrafficData)
    (z_score : float) (st : traffic_stats) : spike_alert :=
  {| sa_type := "spike_alert";
     sa_timestamp := timestamp current_data;
     sa_server_name := server_name self;
     sa_server_ip := server_ip self;
     sa_interface := interface self;
     sa_spike_time := time current_data;
     sa_current_traffic :=
       {| ct_total_bytes := total_bytes current_data;
          ct_rx_bytes := rx_bytes current_data;
          ct_tx_bytes := tx_bytes current_data;
          ct_avg_rate_bps := avg_rate_bps current_data;
          ct_total_formatted := format_bytes self (total_bytes current_data);
          ct_rx_formatted := format_bytes self (rx_bytes current_data);
          ct_tx_formatted := format_bytes self (tx_bytes current_data);
          ct_rate_formatted := format_rate self (avg_rate_bps current_data) |};
     sa_z_score := Py.round2 z_score;
     sa_threshold := SPIKE_THRESHOLD;
     sa_historical_stats :=
       {| as_mean := mean st;
          as_stdev := stdev st;
          as_count := count st;
          as_mean_formatted := format_bytes self (mean st);
          as_stdev_formatted := format_bytes self (stdev st) |} |}.

Definition send_spike_alert (self : TrafficMonitor)
    (current_data : TrafficData) (z_score : float)
    (historical_stats : gmap string traffic_stats) : M unit :=
  match historical_stats !! "total_traffic" with
  | None => raise KeyError
  | Some st =>
      send_to_apps_script self
        (SpikeAlert (alert_data self current_data z_score st));;
      mret tt
  end.

(** ** Sample parser *)

Definition run_vnstat (self : TrafficMonitor) : M string := fun w =>
  match vnstat w with
  | VnstatOutput stdout => (Ok stdout, w)
  | VnstatCalledProcessError => (Raise RuntimeError, w)
  | VnstatFileNotFound => (Raise RuntimeError, w)
  | VnstatRaises e => (Raise e, w)
  end.

(** [parts[i]] *)
Definition index (parts : list string) (i : nat) : result string :=
  match parts !! i with
  | Some p => Ok p
  | None => Raise IndexError
  end.

Definition is_ValueError_or_IndexError (e : exn) : bool :=
  match e with
  | ValueError | IndexError => true
  | _ => false
  end.

(** The body of the loop of [get_current_traffic_data]: the new value
    of [latest_data] after [line]. *)
Definition parse_line (self : TrafficMonitor)
    (latest_data : option TrafficData) (line : string)
    : M (option TrafficData) :=
  if bool_decide (is_Some (Re.search_time line)) then
    let parts := map Str.strip (Str.split "|" line) in
    if (4 <=? length parts)%nat then
      try_except
        (p0 ← lift (index parts 0);
         let time_rx_part := Str.strip p0 in
         match Re.search_time time_rx_part with
         | None => mret latest_data
         | Some time_ =>
             let rx_str :=
               match Re.search_rx time_rx_part with
               | Some g => Str.strip g
               | None => "0 B"
               end in
             p1 ← lift (index parts 1);
             let tx_str := Str.strip p1 in
             p2 ← lift (index parts 2);
             let total_str := Str.strip p2 in
             p3 ← lift (index parts 3);
             let rate_str := Str.strip p3 in
             rx ← lift (convert_to_bytes rx_str);
             tx ← lift (convert_to_bytes tx_str);
             total ← lift (convert_to_bytes total_str);
             rate ← lift (convert_rate_to_bps rate_str);
             ts ← now;
             mret (Some {| timestamp := ts; time := time_;
                           rx_bytes := rx; tx_bytes := tx;
                           total_bytes := total; avg_rate_bps := rate |})
         end)
        is_ValueError_or_IndexError
        (fun e =>
           logger WARNING "Could not parse line: {line} - {e}";;
           mret latest_data)
    else mret latest_data
  else mret latest_data.

Definition get_current_traffic_data (self : TrafficMonitor)
    : M (option TrafficData) :=
  try_except
    (output ← run_vnstat self;
     let lines := Str.split "010" (Str.strip output) in
     for_each lines (parse_line self) None)
    any_exception
    (fun e =>
       logger ERROR "Failed to get current traffic data: {e}";;
       mret None).

(** ** Run controller *)

Definition run_check (self : TrafficMonitor) : M bool :=
  logger INFO "Starting traffic check for {server_name} ({server_ip}) - {interface}";;
  try_except
    (current_data ← get_current_traffic_data self;
     match current_data with
     | None =>
         logger ERROR "No current traffic data available";;
         mret false
     | Some current_data =>
         logger INFO "Current traffic: {total} (RX: {rx}, TX: {tx})";;
         history ← load_history self;
         historical_stats ← lift (calculate_historical_stats self history);
         '(is_spike, z_score) ← detect_spike self current_data historical_stats;
         (if is_spike : bool then
            logger WARNING "SPIKE DETECTED! Z-score: {z_score:.2f}";;
            send_spike_alert self current_data z_score historical_stats
          else logger INFO "Normal traffic (z-score: {z_score:.2f})");;
         send_health_check self current_data;;
         add_to_history self current_data;;
         logger INFO "Traffic check completed successfully";;
         mret true
     end)
    any_exception
    (fun e =>
       logger ERROR "Traffic check failed: {e}";;
       ts ← now;
       let error_data :=
         {| hc_type := "health_check";
            hc_timestamp := ts;
            hc_server_name := server_name self;
            hc_server_ip := server_ip self;
            hc_interface := interface self;
            hc_status := "error";
            hc_service := "traffic_monitor";
            hc_error_message := Some e |} in
       try_except (send_to_apps_script self (HealthCheck error_data))
         any_exception (fun _ => mret false);;
       mret false).

(** ** Construction and entry point *)

(** The module-level names [APPS_SCRIPT_URL] and [HISTORY_FILE], which
    [__init__] rebinds with [global].  The world of a run is the one
    these names point to: [history_file] is the state of the file
    called [HISTORY_FILE], [endpoint_up] the answer of the service at
    [APPS_SCRIPT_URL]. *)
Record settings := {
  APPS_SCRIPT_URL : string;
  HISTORY_FILE : string
}.

(** The values the module binds when it is imported. *)
Definition module_settings : settings :=
  {| APPS_SCRIPT_URL := "https://script.google.com/macros/s/fake-key/exec";
     HISTORY_FILE := "traffic_history.json" |}.

(** The truth value of an optional [str] argument: [None] and the
    empty string are false. *)
Definition given (a : option string) : bool :=
  match a with
  | Some s => negb (bool_decide (s = ""))
  | None => false
  end.

(** The arguments of [TrafficMonitor(...)]. *)
Record init_args := {
  arg_server_name : string;
  arg_server_ip : string;
  arg_interface : string;
  arg_apps_script_url : option string;
  arg_history_file : option string;
  arg_debug : bool
}.

(** [TrafficMonitor.__init__]: the new instance and the module-level
    names after the call.  The logger it sets up is the one [logger]
    writes to. *)
Definition __init__ (a : init_args) (g : settings)
    : TrafficMonitor * settings :=
  let self :=
    {| server_name := arg_server_name a;
       server_ip := arg_server_ip a;
       interface := arg_interface a;
       debug := arg_debug a |} in
  let url :=
    if given (arg_apps_script_url a)
    then default "" (arg_apps_script_url a) else APPS_SCRIPT_URL g in
  let file :=
    if given (arg_history_file a)
    then default "" (arg_history_file a) else HISTORY_FILE g in
  (self, {| APPS_SCRIPT_URL := url; HISTORY_FILE := file |}).

(** What [parser.parse_args()] returns to [main]. *)
Record Namespace := {
  ns_server_name : string;
  ns_server_ip : string;
  ns_interface : string;
  ns_apps_script_url : string;
  ns_history_file : option string;
  ns_debug : bool
}.

(** [main] from the parsed arguments on: the value is the status the
    process exits with. *)
Definition main (args : Namespace) (g : settings) : M (Z * settings) :=
  let '(monitor, g') :=
    __init__ {| arg_server_name := ns_server_name args;
                arg_server_ip := ns_server_ip args;
                arg_interface := ns_interface args;
                arg_apps_script_url := Some (ns_apps_script_url args);
                arg_history_file := ns_history_file args;
                arg_debug := ns_debug args |} g in
  success ← run_check monitor;
  mret (if success : bool then 0 else 1, g').

(** * Reference definitions

    The definitions below are not taken from the source: they state, in
    the words of the design document, what the source is compared with. *)

(** ** Sample parser *)

(** The pipe-delimited fields of a line, blanks removed around each. *)
Definition fields (line : string) : list string :=
  map Str.strip (Str.split "|" line).

(** The text of the receive quantity in the first field: what follows
    the time label and its blanks, ["0 B"] when nothing does. *)
Definition rx_text (first : string) : string :=
  match Re.search_rx first with
  | Some g => Str.strip g
  | None => "0 B"
  end.

(** A line parses structurally when it holds a time label, has at
    least four fields and the label sits in the first field. *)
Definition structurally_parses (line : string) : bool :=
  bool_decide (is_Some (Re.search_time line))
  && (4 <=? length (fields line))%nat
  && bool_decide
       (is_Some (Re.search_time
                   (Str.strip (default "" (head (fields line)))))).

(** The measurement a line yields, still to be stamped with the capture
    instant: the line parses structurally and its four quantities
    convert. *)
Definition line_measurement (line : string)
    : option (string -> TrafficData) :=
  if structurally_parses line then
    match fields line with
    | p0 :: p1 :: p2 :: p3 :: _ =>
        let first := Str.strip p0 in
        match Re.search_time first,
              convert_to_bytes (rx_text first),
              convert_to_bytes (Str.strip p1),
              convert_to_bytes (Str.strip p2),
              convert_rate_to_bps (Str.strip p3) with
        | Some label, Ok rx, Ok tx, Ok total, Ok rate =>
            Some (fun ts =>
                    {| timestamp := ts; time := label;
                       rx_bytes := rx; tx_bytes := tx;
                       total_bytes := total; avg_rate_bps := rate |})
        | _, _, _, _, _ => None
        end
    | _ => None
    end
  else None.

(** The lines of the counter source's output, as the parser walks them. *)
Definition lines (output : string) : list string :=
  Str.split "010" (Str.strip output).

(** The result of a parse: the last measurement in the text, stamped
    with the instant at which its line was reached. *)
Definition parsed (w : world) (output : string) : option TrafficData :=
  let ms := omap line_measurement (lines output) in
  match last ms with
  | Some f => Some (f (clock w (ticks w + length ms - 1)%nat))
  | None => None
  end.

(** No measurement is obtainable: the counter source fails, or no line
    of its output yields a measurement. *)
Definition no_measurement (w : world) : Prop :=
  match vnstat w with
  | VnstatOutput output => omap line_measurement (lines output) = []
  | _ => True
  end.

(** ** History store *)

(** The records a load yields from a given state of the history file,
    when it yields a sequence: none from a missing, unreadable or
    syntactically invalid file, the stored ones from a JSON array. *)
Definition loaded_records (f : file_state) : option (list json) :=
  match f with
  | FileAbsent | FileUnreadable | FileNotJSON => Some []
  | FileJSON (JArr l) => Some l
  | _ => None
  end.

(** The state of the history file after an attempt to write the list
    [l] to it: the list; what the file held, when it could not be
    opened for writing; a text that is not JSON, when the write broke
    off after the file was opened. *)
Definition written (w : world) (l : list json) : file_state :=
  if history_writable w then FileJSON (JArr l)
  else
    match history_fault w with
    | OpenFails => history_file w
    | DumpFails => FileNotJSON
    end.

(** A sequence of appends, one measurement after the other; the value
    is the sequence the last append returned. *)
Fixpoint add_all (self : TrafficMonitor) (rs : list TrafficData)
    : M (list json) :=
  match rs with
  | [] => mret []
  | r :: rs' =>
      h ← add_to_history self r;
      match rs' with
      | [] => mret h
      | _ => add_all self rs'
      end
  end.

(** ** Notifier *)

(** The z-score of a measurement against a baseline. *)
Definition z_score_of (total mean stdev : float) : float :=
  Float.div (Float.sub total mean) stdev.

(** What [send_spike_alert] writes into a spike alert: the constant
    multiplier as its threshold, and as its score [round(z, 2)] of the
    z-score of the traffic it reports against the statistics it
    reports. *)
Definition alert_fields_ok (a : spike_alert) : Prop :=
  sa_threshold a = Float.of_Z 2
  /\ sa_z_score a =
       Py.round2 (z_score_of (ct_total_bytes (sa_current_traffic a))
                             (as_mean (sa_historical_stats a))
                             (as_stdev (sa_historical_stats a))).

Definition payload_ok (p : payload) : Prop :=
  match p with
  | SpikeAlert a => alert_fields_ok a
  | HealthCheck _ => True
  end.

(** ** Unit converter *)

(** Every character of [s] is in the class [p]. *)
Fixpoint all_chars (p : ascii -> bool) (s : string) : bool :=
  match s with
  | "" => true
  | String c s' => p c && all_chars p s'
  end.

(** A numeric token: a non-empty run of digits and points. *)
Definition number_token (s : string) : Prop :=
  s <> "" /\ all_chars Str.is_digit_or_dot s = true.

Definition blanks (s : string) : Prop := all_chars Str.is_space s = true.

Fixpoint count_points (s : string) : nat :=
  match s with
  | "" => 0
  | String c s' =>
      (if bool_decide (c = "."%char) then 1 else 0) + count_points s'
  end.

Fixpoint has_digit (s : string) : bool :=
  match s with
  | "" => false
  | String c s' => Str.is_digit c || has_digit s'
  end.

(** A decimal literal: digits with at most one point among them. *)
Definition decimal_literal (s : string) : bool :=
  all_chars Str.is_digit_or_dot s && has_digit s
  && bool_decide (count_points s <= 1)%nat.

(** The exponent of 1024 for each binary byte unit, lower-cased. *)
Definition binary_unit (u : string) : option Z :=
  if bool_decide (u = "b") then Some 0
  else if bool_decide (u = "kib") then Some 1
  else if bool_decide (u = "mib") then Some 2
  else if bool_decide (u = "gib") then Some 3
  else if bool_decide (u = "tib") then Some 4
  else None.

(** The unit spellings the pattern [[kmgt]?i?b] admits. *)
Definition unit_forms : list string :=
  ["b"; "ib"; "kb"; "kib"; "mb"; "mib"; "gb"; "gib"; "tb"; "tib"].

(** The text starts with a numeric token, blanks and a unit spelling. *)
Definition quantity_text (t : string) : Prop :=
  exists mag ws u rest,
    t = mag +:+ ws +:+ u +:+ rest
    /\ number_token mag /\ blanks ws /\ u ∈ unit_forms.

(** ** Baseline statistics *)

Definition sum_Q (qs : list Q) : Q := foldr Qplus 0%Q qs.

(** The sum of the squares. *)
Definition sum_sq (qs : list Q) : Q :=
  sum_Q (map (fun q => Qmult q q) qs).

(** The arithmetic mean: the sum divided by the number of values. *)
Definition arithmetic_mean (qs : list Q) : Q :=
  Qdiv (sum_Q qs) (inject_Z (Z.of_nat (length qs))).

(** The sample variance with Bessel's correction: the sum of the
    squared deviations from the mean, divided by [n - 1]. *)
Definition sample_variance (qs : list Q) : Q :=
  let mu := arithmetic_mean qs in
  Qdiv (sum_Q (map (fun q => Qmult (Qminus q mu) (Qminus q mu)) qs))
       (inject_Z (Z.of_nat (length qs) - 1)).

(** The square root of a fraction as a double, as [statistics] rounds
    it. *)
Definition float_sqrt (q : Q) : result float :=
  let q := Qred q in
  statistics._float_sqrt_of_frac (Qnum q) (Zpos (Qden q)).

(** The exact values of a list of finite floats. *)
Definition exact_values (xs : list float) : option (list Q) :=
  mapM Float.to_Q xs.

(** ** Rounding *)

(** [r] is a double nearest to the rational [q]: a double in canonical
    form, finite, and no double is closer to [q]. *)
Definition nearest_double (q : Q) (r : float) : Prop :=
  valid_binary Float.prec Float.emax r = true
  /\ exists v, Float.to_Q r = Some v
       /\ forall y u,
            valid_binary Float.prec Float.emax y = true ->
            Float.to_Q y = Some u ->
            (Qabs (v - q) <= Qabs (u - q))%Q.

(** [r] is a double nearest to the square root of the rational [q]:
    it is not negative, and the root lies on its side of the middle
    between it and any other double that is not negative. *)
Definition nearest_double_sqrt (q : Q) (r : float) : Prop :=
  valid_binary Float.prec Float.emax r = true
  /\ exists v, Float.to_Q r = Some v /\ (0 <= v)%Q
       /\ forall y u,
            valid_binary Float.prec Float.emax y = true ->
            Float.to_Q y = Some u -> (0 <= u)%Q ->
            ((v < u -> (4 # 1) * q <= (v + u) * (v + u))
             /\ (u < v -> (v + u) * (v + u) <= (4 # 1) * q))%Q.

(** [r] is [x] rounded to two decimal places.  A value that is not
    finite is kept.  A finite [x] goes to a double nearest to [k / 100],
    where [k] is the integer nearest to a hundred times [x], the even
    one when two are as near. *)
Definition rounded_to_two_places (x r : float) : Prop :=
  match Float.to_Q x with
  | None => r = x
  | Some q =>
      exists k : Z,
        (Qabs (inject_Z 100 * q - inject_Z k) <= 1 # 2)%Q
        /\ ((Qabs (inject_Z 100 * q - inject_Z k) == 1 # 2)%Q ->
            Z.even k = true)
        /\ nearest_double (k # 100) r
  end.

(** What the claim asks of a spike alert: the constant 2.0 as its
    threshold, and as its score the z-score of the traffic it reports
    against the statistics it reports, rounded to two decimal places. *)
Definition alert_as_specified (a : spike_alert) : Prop :=
  sa_threshold a = Float.of_Z 2
  /\ rounded_to_two_places
       (z_score_of (ct_total_bytes (sa_current_traffic a))
                   (as_mean (sa_historical_stats a))
                   (as_stdev (sa_historical_stats a)))
       (sa_z_score a).

Definition payload_as_specified (p : payload) : Prop :=
  match p with
  | SpikeAlert a => alert_as_specified a
  | HealthCheck _ => True
  end.

(** ** Sample inputs *)

Definition sample_monitor : TrafficMonitor :=
  {| server_name := "web-01"; server_ip := "10.0.0.5";
     interface := "eth0"; debug := false |}.

(** A world with a working endpoint, a writable history file and
    nothing sent or logged yet. *)
Definition sample_world (v : vnstat_outcome) (f : file_state) : world :=
  {| vnstat := v; clock := fun _ => "2026-01-01T00:00:00"; ticks := 0;
     history_file := f; history_writable := true;
     history_fault := OpenFails;
     endpoint_up := fun _ => true; posted := []; log := [] |}.

Definition newline : string := String "010" "".

Definition sample_line_1 : string :=
  "    14:25      1.00 MiB |  500.00 KiB |    1.50 MiB |   47.51 kbit/s".

Definition sample_line_2 : string :=
  "    14:30      1.20 MiB |  500.00 KiB |    1.70 MiB |   120 kbit/s".

(** The report of the counter source: a header and two intervals. *)
Definition sample_output : string :=
  " eth0  /  5 minute" +:+ newline +:+ newline
  +:+ "         time        rx      |     tx      |    total    |   avg. rate"
  +:+ newline
  +:+ "     ------------------------+-------------+-------------+---------------"
  +:+ newline +:+ sample_line_1 +:+ newline +:+ sample_line_2 +:+ newline.

(** A line that parses structurally but whose receive quantity is not
    a number. *)
Definition malformed_line : string :=
  "    14:35      1.2.3 MiB |  500.00 KiB |    1.70 MiB |   120 kbit/s".

Definition malformed_output : string :=
  sample_line_1 +:+ newline +:+ malformed_line +:+ newline.

Definition sample_measurement (total : Z) : TrafficData :=
  {| timestamp := "2026-01-01T00:00:00"; time := "14:30";
     rx_bytes := Float.of_Z 0; tx_bytes := Float.of_Z 0;
     total_bytes := Float.of_Z total; avg_rate_bps := Float.of_Z 0 |}.

(** A stored history with the given totals. *)
Definition sample_history (totals : list Z) : list json :=
  map (fun z => current_record (sample_measurement z)) totals.

(** The counter source fails; three records are stored. *)
Definition failed_source_world : world :=
  sample_world VnstatCalledProcessError
    (FileJSON (JArr (sample_history [900; 1000; 1100]))).

(** The history file holds the JSON value [null]. *)
Definition null_history_world : world :=
  sample_world (VnstatOutput sample_output) (FileJSON JNull).

(** The history file is not JSON. *)
Definition not_json_world : world :=
  sample_world (VnstatOutput sample_output) FileNotJSON.

(** One record is stored. *)
Definition one_record_world : world :=
  sample_world VnstatFileNotFound (FileJSON (JArr (sample_history [900]))).

(** Twenty-five records are stored, five more than the capacity. *)
Definition over_capacity_world : world :=
  sample_world VnstatFileNotFound
    (FileJSON (JArr (sample_history (seqZ 1 25)))).

(** Three small totals are stored and the source reports 1.70 MiB. *)
Definition spike_world : world :=
  sample_world (VnstatOutput sample_output)
    (FileJSON (JArr (sample_history [900; 1000; 1100]))).

(** The last line of the report carries a malformed quantity. *)
Definition malformed_world : world :=
  sample_world (VnstatOutput malformed_output) FileAbsent.

Definition sample_baseline : gmap string traffic_stats :=
  {[ "total_traffic" :=
       {| mean := Float.of_Z 1000; stdev := Float.of_Z 100; count := 3 |} ]}.

(** ** Vocabulary of the proofs *)

(** A float that is [+0.0], positive and finite, or [+inf]. *)
Definition plus_class (x : float) : Prop :=
  match x with
  | S754_zero false | S754_finite false _ _ | S754_infinity false => True
  | _ => False
  end.

(** Scanning a run of [p] followed by something that does not start
    with a [p]. *)
Definition stops (p : ascii -> bool) (s : string) : Prop :=
  match s with
  | "" => True
  | String c _ => p c = false
  end.

(** Fields of the world no function of the module writes to. *)
Definition same_env (w w' : world) : Prop :=
  vnstat w' = vnstat w /\ clock w' = clock w
  /\ history_writable w' = history_writable w
  /\ history_fault w' = history_fault w
  /\ endpoint_up w' = endpoint_up w.

(** Only the log and the clock moved. *)
Definition quiet (w w' : world) : Prop :=
  same_env w w' /\ posted w' = posted w
  /\ history_file w' = history_file w.

(** [grows P w w'] says that between [w] and [w'] the environment was
    only read and every notification sent satisfies [P].  [triple P c Q]
    says that the computation [c] grows the world that way and that any
    value it returns satisfies [Q]. *)
Definition grows (P : payload -> Prop) (w w' : world) : Prop :=
  same_env w w'
  /\ exists new, posted w' = posted w ++ new /\ Forall P new.

Definition triple {A} (P : payload -> Prop) (c : M A) (Q : A -> Prop)
    : Prop :=
  forall w, grows P w (c w).2 /\ forall a, (c w).1 = Ok a -> Q a.

(** ** Doubles *)

(** The largest finite double, [sys.float_info.max]. *)
Definition max_double : Z := (2 ^ 53 - 1) * 2 ^ 971.

(** A byte total as the program stores it: a double in canonical form
    that is finite and not negative. *)
Definition byte_total (x : float) : bool :=
  valid_binary Float.prec Float.emax x && Float.is_finite x
  && Float.nonneg x.

(** A shifted mantissa that lost a non-zero bit. *)
Definition inexact (x : shr_record) : bool := shr_r x || shr_s x.

(** The place of the fraction [N / D] between the integers [q] and
    [q + 1]: on [q], below the middle, on it or above it. *)
Definition loc_of (N D q : Z) : location :=
  if N - q * D =? 0 then loc_Exact
  else loc_Inexact (2 * (N - q * D) ?= D).

(** The double with the sign [s] and the magnitude [m * 2^e], for a
    mantissa [m] of at most 53 bits or [m = 2^53]. *)
Definition grid_float (s : bool) (m e : Z) : float :=
  match m with
  | Z0 => S754_zero s
  | Zpos p =>
      if m =? 2 ^ 53 then
        if e + 1 <=? 971 then S754_finite s (2 ^ 52)%positive (e + 1)
        else S754_infinity s
      else if e <=? 971 then S754_finite s p e else S754_infinity s
  | Zneg _ => S754_nan
  end.

(** ** Steps of a run *)

(** The baseline a run computes: the statistics of the stored history,
    steps 2 of [run_check]. *)
Definition baseline (self : TrafficMonitor)
    : M (gmap string traffic_stats) :=
  history ← load_history self;
  lift (calculate_historical_stats self history).

(** The notifications [new] were sent between [w] and [w']. *)
Definition sent (w w' : world) (new : list payload) : Prop :=
  posted w' = posted w ++ new.

Definition is_alert (p : payload) : bool :=
  match p with
  | SpikeAlert _ => true
  | HealthCheck _ => false
  end.

(** A health check of the monitor [self] with the given status. *)
Definition reports (self : TrafficMonitor) (status : string)
    (error : option exn) (p : payload) : Prop :=
  match p with
  | HealthCheck h =>
      hc_type h = "health_check" /\ hc_status h = status
      /\ hc_service h = "traffic_monitor"
      /\ hc_server_name h = server_name self
      /\ hc_server_ip h = server_ip self
      /\ hc_interface h = interface self
      /\ hc_error_message h = error
  | SpikeAlert _ => False
  end.

(** ** Rates *)

(** The exponent of 1000 for each prefix of [bit/s], lower-cased. *)
Definition rate_unit (u : string) : option Z :=
  if bool_decide (u = "") then Some 0
  else if bool_decide (u = "k") then Some 1
  else if bool_decide (u = "m") then Some 2
  else if bool_decide (u = "g") then Some 3
  else if bool_decide (u = "t") then Some 4
  else None.

(** The text starts with a numeric token, blanks, an optional prefix,
    blanks and [bit/s]. *)
Definition rate_text (t : string) : Prop :=
  exists mag ws1 u ws2 rest,
    t = mag +:+ ws1 +:+ u +:+ ws2 +:+ "bit/s" +:+ rest
    /\ number_token mag /\ blanks ws1 /\ blanks ws2
    /\ is_Some (rate_unit u).

(** ** Construction *)

(** The module-level names after a sequence of constructor calls. *)
Definition construct_all (calls : list init_args) (g : settings) : settings :=
  foldl (fun g a => (__init__ a g).2) g calls.

(** The last argument of a sequence that counts as given. *)
Definition last_given (values : list (option string)) : option string :=
  last (filter (fun a => given a = true) values) ≫= id.

(** ** More sample inputs *)

(** The measurement the parser reads from [sample_output]. *)
Definition spike_measurement : TrafficData :=
  Eval vm_compute in
    default (sample_measurement 0) (parsed spike_world sample_output).

(** As [spike_world], but the service is down and the history file
    cannot be written. *)
Definition offline_world : world :=
  {| vnstat := VnstatOutput sample_output;
     clock := fun _ => "2026-01-01T00:00:00"; ticks := 0;
     history_file := FileJSON (JArr (sample_history [900; 1000; 1100]));
     history_writable := false; history_fault := OpenFails;
     endpoint_up := fun _ => false; posted := []; log := [] |}.

(** As [spike_world], but a write of the history file breaks off after
    the file was opened. *)
Definition broken_write_world : world :=
  {| vnstat := VnstatOutput sample_output;
     clock := fun _ => "2026-01-01T00:00:00"; ticks := 0;
     history_file := FileJSON (JArr (sample_history [900; 1000; 1100]));
     history_writable := false; history_fault := DumpFails;
     endpoint_up := fun _ => true; posted := []; log := [] |}.

(** A quantity too large for a double: four hundred nines, in
    bytes. *)
Fixpoint nines (n : nat) : string :=
  match n with
  | O => ""
  | S n => String "9" (nines n)
  end.

Definition huge_quantity : string := nines 400 +:+ " B".

(** The record of a measurement whose total was read from
    [huge_quantity]. *)
Definition infinite_record : json :=
  current_record
    {| timestamp := "2026-01-01T00:00:00"; time := "14:30";
       rx_bytes := Float.of_Z 0; tx_bytes := Float.of_Z 0;
       total_bytes := S754_infinity false; avg_rate_bps := Float.of_Z 0 |}.

(** A stored record that lacks the key [total_bytes]. *)
Definition partial_record : json :=
  JObj [("timestamp", JStr "2026-01-01T00:00:00"); ("time", JStr "14:20")].

Definition partial_record_world : world :=
  sample_world (VnstatOutput sample_output)
    (FileJSON (JArr (sample_history [900] ++ [partial_record]))).

(** The history file holds the JSON value [{}]. *)
Definition empty_object_world : world :=
  sample_world (VnstatOutput sample_output) (FileJSON (JObj [])).

(** One small total is stored and the source reports 1.70 MiB. *)
Definition single_record_world : world :=
  sample_world (VnstatOutput sample_output)
    (FileJSON (JArr (sample_history [900]))).

(** ** Notifications *)

(** A notification of the monitor [self] that is consistent in itself:
    it names the monitor, every formatted field of an alert is the
    rendering of the number sent beside it, and a health check is
    either healthy and without an error message or an error with
    one. *)
Definition consistent (self : TrafficMonitor) (p : payload) : Prop :=
  match p with
  | SpikeAlert a =>
      let c := sa_current_traffic a in
      let s := sa_historical_stats a in
      sa_type a = "spike_alert"
      /\ sa_server_name a = server_name self
      /\ sa_server_ip a = server_ip self
      /\ sa_interface a = interface self
      /\ ct_total_formatted c = format_bytes self (ct_total_bytes c)
      /\ ct_rx_formatted c = format_bytes self (ct_rx_bytes c)
      /\ ct_tx_formatted c = format_bytes self (ct_tx_bytes c)
      /\ ct_rate_formatted c = format_rate self (ct_avg_rate_bps c)
      /\ as_mean_formatted s = format_bytes self (as_mean s)
      /\ as_stdev_formatted s = format_bytes self (as_stdev s)
  | HealthCheck h =>
      hc_type h = "health_check"
      /\ hc_service h = "traffic_monitor"
      /\ hc_server_name h = server_name self
      /\ hc_server_ip h = server_ip self
      /\ hc_interface h = interface self
      /\ (hc_status h = "healthy" /\ hc_error_message h = None
          \/ hc_status h = "error" /\ is_Some (hc_error_message h))
  end.

(** [x], with [+0.0] for [-0.0]: the double an exact fraction of the
    value of [x] converts to. *)
Definition unsigned_zero (x : float) : float :=
  match x with
  | S754_zero _ => Float.zero
  | _ => x
  end.

(** ** Successive runs *)

(** The history file loads as a list of at most [MAX_HISTORY] records:
    it holds such a list, or it is missing, unreadable or no JSON and
    loads as the empty list. *)
Definition within_capacity (f : file_state) : Prop :=
  exists l, loaded_records f = Some l /\ (length l <= MAX_HISTORY)%nat.

(** The states of the world at the end of successive runs of the
    monitor [self], starting from [w]: between two runs anything may
    change but the history file. *)
Inductive later (self : TrafficMonitor) (w : world) : world -> Prop :=
  | later_now : later self w w
  | later_run w1 w2 :
      later self w w1 -> history_file w2 = history_file w1 ->
      later self w (run_check self w2).2.

(** * Verification *)

(** ** The model on the examples of the design document *)

Example bytes_of_mebibytes :
  convert_to_bytes "12.3 MiB" =
    rbind (py_float "12.3")
          (fun v => Ok (Float.mul v (Float.of_Z (1024 * 1024)))).
Proof. reflexivity. Qed.

Example bytes_of_kibibytes : convert_to_bytes "12 KiB" = Ok (Float.of_Z 12288).
Proof. reflexivity. Qed.

Example bytes_of_unknown_text : convert_to_bytes "n/a" = Ok Float.zero.
Proof. reflexivity. Qed.

Example rate_of_megabits :
  convert_rate_to_bps "12.5 Mbit/s" = Ok (Float.of_Z 12500000).
Proof. reflexivity. Qed.

Example rate_of_unknown_text : convert_rate_to_bps "12.5 MB/s" = Ok Float.zero.
Proof. reflexivity. Qed.

(** The well-formed line of the design document: 1.20 MiB received,
    1.70 MiB in total, 120 kbit/s. *)
Example well_formed_line :
  exists f,
    line_measurement
      "14:30    1.20 MiB | 500.00 KiB | 1.70 MiB | 120 kbit/s" = Some f
    /\ Ok (rx_bytes (f "")) = py_float "1258291.2"
    /\ Ok (total_bytes (f "")) = py_float "1782579.2"
    /\ avg_rate_bps (f "") = Float.of_Z 120000
    /\ time (f "") = "14:30".
Proof. eexists. split; [reflexivity|]. by vm_compute. Qed.

Example scanner_takes_first_label :
  Re.search_time "12:3456:78 1 KiB" = Some "12:34"
  /\ Re.search_rx "12:3456:78 1 KiB" = Some "1 KiB".
Proof. by vm_compute. Qed.

Example rounding_to_two_places :
  Ok (Py.round2 (Float.of_ratio false 5 2)) = py_float "2.5"
  /\ (forall x, py_float "2.675" = Ok x -> Ok (Py.round2 x) = py_float "2.67")
  /\ Py.format_2f (Float.of_ratio false 1 8) = "0.12".
Proof.
  split_and!; [by vm_compute| |by vm_compute].
  intros x H. vm_compute in H. injection H as <-. by vm_compute.
Qed.

Example formatting :
  format_bytes sample_monitor (Float.of_Z 1782579) = "1.70 MiB"
  /\ format_rate sample_monitor (Float.of_Z 120000) = "120.00 kbit/s".
Proof. by vm_compute. Qed.

Example mean_and_deviation :
  statistics.mean (map (fun z => JNum (Float.of_Z z)) [2; 4; 4; 4; 5; 5; 7; 9])
  = Ok (Float.of_Z 5)
  /\ statistics.stdev (map (fun z => JNum (Float.of_Z z)) [900; 1000; 1100])
     = Ok (Float.of_Z 100).
Proof. by vm_compute. Qed.

(** Unfolding of the effect layer. *)
Ltac run :=
  unfold mbind, M_bind, mret, M_ret, lift, raise, logger, modify, gets,
    try_except, now in *; simpl in *.

(** ** Spike detector *)

Section DetectSpike.

Variable self : TrafficMonitor.
Variable current_data : TrafficData.

Lemma detect_spike_no_baseline hs w :
  hs !! "total_traffic" = None ->
  (detect_spike self current_data hs w).1 = Ok (false, Float.zero).
Proof. intros H. unfold detect_spike. rewrite H. reflexivity. Qed.

Lemma detect_spike_flat hs st w :
  hs !! "total_traffic" = Some st ->
  Float.eqb (stdev st) Float.zero = true ->
  (detect_spike self current_data hs w).1 = Ok (false, Float.zero).
Proof.
  intros H E. unfold detect_spike. rewrite H.
  change (Float.of_Z 0) with Float.zero. rewrite E. reflexivity.
Qed.

Lemma detect_spike_scored hs st w :
  hs !! "total_traffic" = Some st ->
  Float.eqb (stdev st) Float.zero = false ->
  (detect_spike self current_data hs w).1 =
    Ok (Float.ltb (Float.add (mean st)
                     (Float.mul (Float.of_Z 2) (stdev st)))
                  (total_bytes current_data),
        Float.div (Float.sub (total_bytes current_data) (mean st))
                  (stdev st)).
Proof.
  intros H E. unfold detect_spike. rewrite H.
  change (Float.of_Z 0) with Float.zero. rewrite E.
  destruct (debug self); reflexivity.
Qed.

(** The detector only writes to the log. *)
Lemma detect_spike_world hs w :
  let w' := (detect_spike self current_data hs w).2 in
  posted w' = posted w /\ history_file w' = history_file w
  /\ ticks w' = ticks w.
Proof.
  unfold detect_spike.
  destruct (hs !! "total_traffic") as [st|]; [|done].
  destruct (Float.eqb _ _); [done|].
  destruct (debug self); done.
Qed.

End DetectSpike.

(** ** Signs of rounded results *)

Lemma plus_class_nonneg x : plus_class x -> Float.nonneg x = true.
Proof. by destruct x as [[]|[]| |[] ? ?]. Qed.

Lemma nonneg_not_nan x : Float.nonneg x = true -> Float.is_nan x = false.
Proof. by destruct x. Qed.

Lemma shr_1_nonneg mrs : 0 <= shr_m mrs -> 0 <= shr_m (shr_1 mrs).
Proof. destruct mrs as [[|[p|p|]|p] r s]; simpl; lia. Qed.

Lemma iter_pos_invariant {A} (f : A -> A) (I : A -> Prop) :
  (forall x, I x -> I (f x)) -> forall p x, I x -> I (SpecFloat.iter_pos f p x).
Proof.
  intros Hf. induction p as [p IH|p IH|]; intros x Hx; simpl; auto.
Qed.

Lemma shr_nonneg mrs e n : 0 <= shr_m mrs -> 0 <= shr_m (shr mrs e n).1.
Proof.
  intros H. destruct n as [|p|p]; simpl; try done.
  by apply (iter_pos_invariant shr_1 (fun r => 0 <= shr_m r)),
    H; apply shr_1_nonneg.
Qed.

Lemma shr_fexp_nonneg m e l :
  0 <= m -> 0 <= shr_m (shr_fexp Float.prec Float.emax m e l).1.
Proof.
  intros H. unfold shr_fexp. apply shr_nonneg.
  by destruct l as [|[]].
Qed.

Lemma round_nearest_even_nonneg m l :
  0 <= m -> 0 <= round_nearest_even m l.
Proof.
  intros H. destruct l as [|[]]; simpl; try lia.
  destruct (Z.even m); lia.
Qed.

(** Rounding a non-negative mantissa with a plus sign never yields a
    negative number or a NaN. *)
Lemma binary_round_aux_plus mx ex lx :
  0 <= mx ->
  plus_class (binary_round_aux Float.prec Float.emax false mx ex lx).
Proof.
  intros H. unfold binary_round_aux.
  pose proof (shr_fexp_nonneg mx ex lx H) as H1.
  destruct (shr_fexp Float.prec Float.emax mx ex lx) as [mrs' e'].
  simpl in H1.
  pose proof (shr_fexp_nonneg _ e' loc_Exact
                (round_nearest_even_nonneg _ (loc_of_shr_record mrs') H1))
    as H2.
  destruct (shr_fexp Float.prec Float.emax _ e' loc_Exact) as [mrs'' e''].
  simpl in H2.
  destruct (shr_m mrs'') as [|m|m]; [done| |lia].
  by destruct (e'' <=? _).
Qed.

Lemma of_ratio_plus n d : 0 <= n -> 0 < d -> plus_class (Float.of_ratio false n d).
Proof.
  intros Hn Hd. unfold Float.of_ratio, SFdiv_core_binary.
  match goal with
  | |- context [Z.div_eucl ?a d] =>
      assert (Ha : 0 <= a);
      [|pose proof (Z_div_mod a d ltac:(lia)) as Hq;
        destruct (Z.div_eucl a d) as [q r]]
  end.
  - match goal with
    | |- context [match ?s with Z0 => _ | Zpos _ => _ | Zneg _ => _ end] =>
        destruct s
    end; try lia. by apply Z.shiftl_nonneg.
  - apply binary_round_aux_plus. nia.
Qed.

Lemma mul_plus x m e :
  plus_class x -> plus_class (Float.mul x (S754_finite false m e)).
Proof.
  destruct x as [[]|[]| |[] mx ex]; simpl; try done.
  intros _. by apply binary_round_aux_plus.
Qed.

(** ** Strings *)

Lemma append_cons c a b : String c a +:+ b = String c (a +:+ b).
Proof. reflexivity. Qed.

Lemma append_nil_l b : "" +:+ b = b.
Proof. reflexivity. Qed.

Ltac sapp := rewrite ?append_cons, ?append_nil_l in *.

Lemma take_drop_while p s :
  Str.take_while p s +:+ Str.drop_while p s = s.
Proof.
  induction s as [|c s IH]; simpl; [done|].
  destruct (p c); sapp; [by f_equal|done].
Qed.

Lemma all_chars_take_while p s : all_chars p (Str.take_while p s) = true.
Proof.
  induction s as [|c s IH]; simpl; [done|].
  destruct (p c) eqn:E; simpl; [by rewrite E|done].
Qed.

Lemma all_chars_app p a b :
  all_chars p (a +:+ b) = all_chars p a && all_chars p b.
Proof.
  induction a as [|c a IH]; sapp; simpl; [done|]. by rewrite IH, andb_assoc.
Qed.

Lemma drop_while_all p s : Str.drop_while p s = "" -> all_chars p s = true.
Proof.
  induction s as [|c s IH]; simpl; [done|].
  destruct (p c); [done|discriminate].
Qed.

Lemma all_drop_while p s : all_chars p s = true -> Str.drop_while p s = "".
Proof.
  induction s as [|c s IH]; simpl; [done|].
  destruct (p c); [done|discriminate].
Qed.

Lemma all_take_while p s : all_chars p s = true -> Str.take_while p s = s.
Proof.
  induction s as [|c s IH]; simpl; [done|].
  destruct (p c); simpl; [|discriminate]. intros H. by rewrite IH.
Qed.

Lemma take_while_app p a b :
  all_chars p a = true -> stops p b -> Str.take_while p (a +:+ b) = a.
Proof.
  induction a as [|c a IH]; sapp; simpl.
  - intros _. destruct b as [|c b]; simpl; [done|]. by intros ->.
  - destruct (p c); simpl; [|discriminate]. intros Ha Hb. by rewrite IH.
Qed.

Lemma drop_while_app p a b :
  all_chars p a = true -> stops p b -> Str.drop_while p (a +:+ b) = b.
Proof.
  induction a as [|c a IH]; sapp; simpl.
  - intros _. destruct b as [|c b]; simpl; [done|]. by intros ->.
  - destruct (p c); simpl; [|discriminate]. intros Ha Hb. by rewrite IH.
Qed.

Lemma stops_drop_while p s : stops p (Str.drop_while p s).
Proof.
  induction s as [|c s IH]; simpl; [done|].
  by destruct (p c) eqn:E; simpl.
Qed.

Lemma digits_value_nonneg s : forall acc,
  all_chars Str.is_digit s = true -> 0 <= acc -> 0 <= Str.digits_value acc s.
Proof.
  induction s as [|c s IH]; intros acc; simpl; [done|].
  intros [Hc Hs]%andb_prop Hacc. apply IH; [done|].
  unfold Str.is_digit in Hc. apply andb_prop in Hc as [H1 H2].
  apply N.leb_le in H1. lia.
Qed.

(** ** Unit converter: signs *)

Lemma py_float_plus tok x : py_float tok = Ok x -> plus_class x.
Proof.
  unfold py_float.
  pose proof (all_chars_take_while Str.is_digit tok) as Hi.
  destruct (Str.drop_while Str.is_digit tok) as [|c frac].
  - case_bool_decide; [done|]. intros [= <-].
    apply of_ratio_plus; [|done]. by apply digits_value_nonneg.
  - destruct (bool_decide (c = "."%char)); simpl; [|done].
    case_bool_decide as Hf; simpl; [|done].
    destruct (negb _); [|done]. intros [= <-].
    apply of_ratio_plus.
    + apply digits_value_nonneg; [|done].
      rewrite all_chars_app, Hi. by apply drop_while_all.
    + apply Z.pow_pos_nonneg; lia.
Qed.

Lemma byte_multiplier_finite unit :
  exists m e,
    Float.of_Z (get_or_1 byte_multipliers unit) = S754_finite false m e.
Proof.
  unfold get_or_1, byte_multipliers.
  destruct (_ !! unit) as [z|] eqn:E; simpl; [|by eexists _, _].
  repeat (apply lookup_insert_Some in E as [[_ <-]|[_ E]];
          [by eexists _, _|]).
  apply lookup_singleton_Some in E as [_ <-]. by eexists _, _.
Qed.

Lemma rate_multiplier_finite unit :
  exists m e,
    Float.of_Z (get_or_1 rate_multipliers unit) = S754_finite false m e.
Proof.
  unfold get_or_1, rate_multipliers.
  destruct (_ !! unit) as [z|] eqn:E; simpl; [|by eexists _, _].
  repeat (apply lookup_insert_Some in E as [[_ <-]|[_ E]];
          [by eexists _, _|]).
  apply lookup_singleton_Some in E as [_ <-]. by eexists _, _.
Qed.

Lemma convert_to_bytes_plus s x : convert_to_bytes s = Ok x -> plus_class x.
Proof.
  unfold convert_to_bytes.
  destruct (Re.match_bytes _) as [[g1 unit]|]; [|by intros [= <-]].
  destruct (py_float g1) as [v|e] eqn:E; simpl; [|done]. intros [= <-].
  destruct (byte_multiplier_finite unit) as (m & e & ->).
  apply mul_plus. by eapply py_float_plus.
Qed.

Lemma convert_rate_to_bps_plus s x :
  convert_rate_to_bps s = Ok x -> plus_class x.
Proof.
  unfold convert_rate_to_bps.
  destruct (Str.contains _ _); [|by intros [= <-]].
  destruct (Re.match_rate _) as [[g1 g2]|]; [|by intros [= <-]].
  destruct (py_float g1) as [v|e] eqn:E; simpl; [|done]. intros [= <-].
  destruct (rate_multiplier_finite (default "" g2)) as (m & e & ->).
  apply mul_plus. by eapply py_float_plus.
Qed.

(** ** Sample parser *)

Lemma same_env_refl w : same_env w w.
Proof. by repeat split. Qed.

Lemma same_env_trans w1 w2 w3 :
  same_env w1 w2 -> same_env w2 w3 -> same_env w1 w3.
Proof.
  unfold same_env. intros (?&?&?&?&?) (?&?&?&?&?). repeat split; congruence.
Qed.

Lemma quiet_refl w : quiet w w.
Proof. split; [apply same_env_refl|done]. Qed.

Lemma quiet_trans w1 w2 w3 : quiet w1 w2 -> quiet w2 w3 -> quiet w1 w3.
Proof.
  intros [E1 [P1 H1]] [E2 [P2 H2]]. split; [by eapply same_env_trans|].
  split; congruence.
Qed.

Lemma py_float_raises tok e : py_float tok = Raise e -> e = ValueError.
Proof.
  unfold py_float. repeat case_match; congruence.
Qed.

Lemma convert_to_bytes_raises s e :
  convert_to_bytes s = Raise e -> e = ValueError.
Proof.
  unfold convert_to_bytes. repeat case_match; try congruence.
  destruct (py_float _) eqn:E; simpl; [congruence|].
  intros [= <-]. by eapply py_float_raises.
Qed.

Lemma convert_rate_to_bps_raises s e :
  convert_rate_to_bps s = Raise e -> e = ValueError.
Proof.
  unfold convert_rate_to_bps. repeat case_match; try congruence.
  destruct (py_float _) eqn:E; simpl; [congruence|].
  intros [= <-]. by eapply py_float_raises.
Qed.

(** One turn of the loop: the line's measurement replaces
    [latest_data], or the line is skipped. *)
Lemma parse_line_spec self latest line w :
  exists w',
    parse_line self latest line w =
      (Ok (match line_measurement line with
           | Some f => Some (f (clock w (ticks w)))
           | None => latest
           end), w')
    /\ quiet w w'
    /\ ticks w' = (ticks w + if line_measurement line is Some _ then 1 else 0)%nat.
Proof.
  unfold parse_line, line_measurement, structurally_parses.
  fold (fields line).
  destruct (fields line) as [|p0 [|p1 [|p2 [|p3 rest]]]];
    destruct (bool_decide (is_Some (Re.search_time line))); simpl;
    try (exists w; split; [reflexivity|split; [apply quiet_refl|lia]]).
  run.
  destruct (Re.search_time (Str.strip p0)) as [label|] eqn:T; simpl;
    [|exists w; split; [reflexivity|split; [apply quiet_refl|lia]]].
  fold (rx_text (Str.strip p0)).
  destruct (convert_to_bytes (rx_text (Str.strip p0))) as [rx|e] eqn:RX; simpl.
  2:{ apply convert_to_bytes_raises in RX as ->. simpl.
      eexists; split; [done|split; [by repeat split|simpl; lia]]. }
  destruct (convert_to_bytes (Str.strip p1)) as [tx|e] eqn:TX; simpl.
  2:{ apply convert_to_bytes_raises in TX as ->. simpl.
      eexists; split; [done|split; [by repeat split|simpl; lia]]. }
  destruct (convert_to_bytes (Str.strip p2)) as [total|e] eqn:TOT; simpl.
  2:{ apply convert_to_bytes_raises in TOT as ->. simpl.
      eexists; split; [done|split; [by repeat split|simpl; lia]]. }
  destruct (convert_rate_to_bps (Str.strip p3)) as [rate|e] eqn:RT; simpl.
  2:{ apply convert_rate_to_bps_raises in RT as ->. simpl.
      eexists; split; [done|split; [by repeat split|simpl; lia]]. }
  eexists; split; [done|split; [by repeat split|simpl; lia]].
Qed.

Ltac len_lia :=
  repeat match goal with
         | |- context [length ?l] => generalize (length l); intro
         end;
  lia.

Ltac same_tick :=
  match goal with
  | |- Some (?g (clock ?w ?a)) = Some (?g (clock ?w ?b)) =>
      replace a with b by len_lia; reflexivity
  end.

(** The whole loop: [latest_data] ends as the last measurement of the
    lines walked. *)
Lemma for_each_parse_line self ls : forall latest w,
  let ms := omap line_measurement ls in
  exists w',
    for_each ls (parse_line self) latest w =
      (Ok (match last ms with
           | Some f => Some (f (clock w (ticks w + length ms - 1)%nat))
           | None => latest
           end), w')
    /\ quiet w w'
    /\ ticks w' = (ticks w + length ms)%nat.
Proof.
  induction ls as [|l ls IH]; intros latest w; simpl.
  - exists w. split; [reflexivity|split; [apply quiet_refl|lia]].
  - destruct (parse_line_spec self latest l w) as (w1 & E1 & Q1 & T1).
    unfold mbind, M_bind. rewrite E1.
    destruct (IH (match line_measurement l with
                  | Some f => Some (f (clock w (ticks w)))
                  | None => latest
                  end) w1) as (w2 & E2 & Q2 & T2).
    rewrite E2. exists w2.
    assert (C : clock w1 = clock w) by apply Q1.
    split; [|split; [by eapply quiet_trans|]].
    + f_equal. f_equal. rewrite C, T1.
      change (list_omap _ _ line_measurement ls)
        with (omap line_measurement ls) in *.
      destruct (line_measurement l) as [f|]; simpl.
      * rewrite last_cons.
        destruct (last (omap line_measurement ls)) as [g|] eqn:L; simpl.
        -- same_tick.
        -- apply last_None in L. rewrite L. simpl.
           replace (ticks w + 1 - 1)%nat with (ticks w) by lia. done.
      * destruct (last (omap line_measurement ls)) as [g|]; [|done].
        same_tick.
    + rewrite T2, T1.
      change (list_omap _ _ line_measurement ls)
        with (omap line_measurement ls) in *.
      destruct (line_measurement l); simpl; len_lia.
Qed.

(** The parser never raises; it returns the parse of the counter
    source's output, and nothing when the source failed. *)
Lemma get_current_traffic_data_spec self w :
  exists w',
    get_current_traffic_data self w =
      (Ok (match vnstat w with
           | VnstatOutput output => parsed w output
           | _ => None
           end), w')
    /\ quiet w w'.
Proof.
  unfold get_current_traffic_data, try_except, run_vnstat, parsed.
  unfold mbind at 1, M_bind at 1.
  destruct (vnstat w) as [output| | |e] eqn:V;
    try (eexists; split; [reflexivity|by repeat split]).
  fold (lines output).
  destruct (for_each_parse_line self (lines output) None w)
    as (w' & E & Q & T).
  rewrite E. by exists w'.
Qed.

Lemma get_current_traffic_data_fst self w :
  (get_current_traffic_data self w).1 =
    Ok (match vnstat w with
        | VnstatOutput output => parsed w output
        | _ => None
        end).
Proof.
  destruct (get_current_traffic_data_spec self w) as (w' & -> & _). done.
Qed.

Lemma get_current_traffic_data_quiet self w :
  quiet w (get_current_traffic_data self w).2.
Proof.
  destruct (get_current_traffic_data_spec self w) as (w' & -> & Q). done.
Qed.

(** The quantities of a line's measurement carry a plus sign. *)
Lemma line_measurement_plus line f ts :
  line_measurement line = Some f ->
  plus_class (rx_bytes (f ts)) /\ plus_class (tx_bytes (f ts))
  /\ plus_class (total_bytes (f ts)) /\ plus_class (avg_rate_bps (f ts)).
Proof.
  unfold line_measurement.
  destruct (structurally_parses line); [|done].
  destruct (fields line) as [|p0 [|p1 [|p2 [|p3 rest]]]]; try done.
  destruct (Re.search_time _); [|done].
  destruct (convert_to_bytes (rx_text _)) as [rx|] eqn:RX; [|done].
  destruct (convert_to_bytes (Str.strip p1)) as [tx|] eqn:TX; [|done].
  destruct (convert_to_bytes (Str.strip p2)) as [total|] eqn:TOT; [|done].
  destruct (convert_rate_to_bps _) as [rate|] eqn:RT; [|done].
  intros [= <-]. simpl.
  split_and!; eauto using convert_to_bytes_plus, convert_rate_to_bps_plus.
Qed.

(** ** A two-state logic for the effect layer

    [grows P w w'] says that between [w] and [w'] the environment was
    only read and every notification sent satisfies [P].  [triple P c Q]
    says that the computation [c] grows the world that way and that any
    value it returns satisfies [Q]. *)

Section Logic.

Context (P : payload -> Prop).

Lemma grows_refl w : grows P w w.
Proof.
  split; [apply same_env_refl|]. exists []. by rewrite app_nil_r.
Qed.

Lemma grows_trans w1 w2 w3 :
  grows P w1 w2 -> grows P w2 w3 -> grows P w1 w3.
Proof.
  intros [E1 (n1 & P1 & F1)] [E2 (n2 & P2 & F2)].
  split; [by eapply same_env_trans|].
  exists (n1 ++ n2). rewrite P2, P1, app_assoc. split; [done|].
  by apply Forall_app.
Qed.

Lemma quiet_grows w w' : quiet w w' -> grows P w w'.
Proof.
  intros (E & Hp & _). split; [done|]. exists [].
  by rewrite app_nil_r.
Qed.

Lemma triple_ret {A} (a : A) (Q : A -> Prop) : Q a -> triple P (mret a) Q.
Proof.
  intros HQ w. split; [apply grows_refl|]. by intros ? [= <-].
Qed.

Lemma triple_bind {A B} (c : M A) (k : A -> M B) Q R :
  triple P c Q -> (forall a, Q a -> triple P (k a) R) ->
  triple P (c ≫= k) R.
Proof.
  intros Hc Hk w. unfold mbind, M_bind.
  destruct (Hc w) as [G HQ]. destruct (c w) as [[a|e] w1]; simpl in *.
  - destruct (Hk a (HQ a eq_refl) w1) as [G1 HR].
    split; [by eapply grows_trans|done].
  - split; [done|]. by intros.
Qed.

Lemma triple_weaken {A} (c : M A) (Q Q' : A -> Prop) :
  triple P c Q -> (forall a, Q a -> Q' a) -> triple P c Q'.
Proof. intros H HQ w. destruct (H w); eauto. Qed.

Lemma triple_try {A} (body : M A) handles handler Q :
  triple P body Q -> (forall e, triple P (handler e) Q) ->
  triple P (try_except body handles handler) Q.
Proof.
  intros Hb Hh w. unfold try_except.
  destruct (Hb w) as [G HQ]. destruct (body w) as [[a|e] w1]; simpl in *.
  - done.
  - destruct (handles e); [|split; [done|by intros]].
    destruct (Hh e w1) as [G1 HR]. split; [by eapply grows_trans|done].
Qed.

Lemma triple_lift {A} (r : result A) :
  triple P (lift r) (fun a => r = Ok a).
Proof. intros w. split; [apply grows_refl|]. by intros a. Qed.

Lemma triple_raise {A} e (Q : A -> Prop) : triple P (raise e) Q.
Proof. intros w. split; [apply grows_refl|]. by intros. Qed.

Lemma triple_logger l msg : triple P (logger l msg) (fun _ => True).
Proof. intros w. split; [by apply quiet_grows|done]. Qed.

Lemma triple_now : triple P now (fun _ => True).
Proof. intros w. split; [by apply quiet_grows|done]. Qed.

(** A computation that leaves [posted] and the environment alone. *)
Lemma triple_quiet {A} (c : M A) :
  (forall w, quiet w (c w).2) -> triple P c (fun _ => True).
Proof. intros H w. split; [by apply quiet_grows|done]. Qed.

End Logic.

(** ** History store *)

Lemma last_n_short {A} n (l : list A) :
  (length l <= n)%nat -> Py.last_n n l = l.
Proof.
  intros H. unfold Py.last_n.
  by replace (length l - n)%nat with 0%nat by lia.
Qed.

Lemma last_n_length {A} n (l : list A) :
  length (Py.last_n n l) = (length l `min` n)%nat.
Proof. unfold Py.last_n. rewrite length_drop. lia. Qed.

Lemma last_n_suffix {A} n (l : list A) :
  take (length l - n) l ++ Py.last_n n l = l.
Proof. apply take_drop. Qed.

Lemma last_n_idemp {A} n (l : list A) :
  Py.last_n n (Py.last_n n l) = Py.last_n n l.
Proof. apply last_n_short. rewrite last_n_length. lia. Qed.

(** Trimming before appending changes nothing once trimmed again. *)
Lemma last_n_app {A} n (l xs : list A) :
  Py.last_n n (Py.last_n n l ++ xs) = Py.last_n n (l ++ xs).
Proof.
  destruct (decide (length l <= n)%nat) as [Hl|Hl].
  - by rewrite (last_n_short n l).
  - unfold Py.last_n at 1 3.
    rewrite !length_app, last_n_length. unfold Py.last_n.
    rewrite !drop_app, drop_drop, length_drop. f_equal; f_equal; lia.
Qed.

(** The trimming of [save_history] and [add_to_history], whichever
    branch is taken. *)
Lemma trim_last_n (l : list json) :
  (if Nat.ltb MAX_HISTORY (length l) then Py.last_n MAX_HISTORY l else l)
  = Py.last_n MAX_HISTORY l.
Proof.
  destruct (Nat.ltb_spec MAX_HISTORY (length l)); [done|].
  by rewrite last_n_short.
Qed.

(** What a write leaves depends on the store and on the file alone. *)
Lemma written_env w w' (l : list json) :
  history_writable w' = history_writable w ->
  history_fault w' = history_fault w ->
  history_file w' = history_file w ->
  written w' l = written w l.
Proof. unfold written. by intros -> -> ->. Qed.

Section HistoryStore.

Variable self : TrafficMonitor.

Lemma load_history_absent w :
  history_file w = FileAbsent ->
  load_history self w =
    (Ok (JArr []),
     set_log (log w ++ [(INFO, "History file not found, starting with empty history")]) w).
Proof.
  intros H. unfold load_history, os_path_exists. run. by rewrite H.
Qed.

Lemma load_history_unreadable w :
  history_file w = FileUnreadable \/ history_file w = FileNotJSON ->
  load_history self w =
    (Ok (JArr []),
     set_log (log w ++ [(ERROR, "Failed to load history file: {e}")]) w).
Proof.
  intros H. unfold load_history, os_path_exists, read_history_file. run.
  destruct H as [H|H]; repeat (rewrite H; simpl); reflexivity.
Qed.

Lemma load_history_sized w v n :
  history_file w = FileJSON v -> Py.len v = Ok n ->
  load_history self w =
    (Ok v,
     set_log (log w ++ [(INFO, "Loaded {len(history)} historical records")]) w).
Proof.
  intros H L. unfold load_history, os_path_exists, read_history_file. run.
  repeat (rewrite H; simpl). by rewrite L.
Qed.

Lemma load_history_unsized w v e :
  history_file w = FileJSON v -> Py.len v = Raise e ->
  load_history self w = (Raise TypeError, w).
Proof.
  intros H L. unfold load_history, os_path_exists, read_history_file. run.
  repeat (rewrite H; simpl). rewrite L.
  destruct v; simpl in L; try done; by injection L as <-.
Qed.

Lemma load_history_undecodable w :
  history_file w = FileUndecodable ->
  load_history self w = (Raise UnicodeDecodeError, w).
Proof.
  intros H. unfold load_history, os_path_exists, read_history_file. run.
  by repeat (rewrite H; simpl).
Qed.

Lemma load_history_too_deep w :
  history_file w = FileTooDeep ->
  load_history self w = (Raise RecursionError, w).
Proof.
  intros H. unfold load_history, os_path_exists, read_history_file. run.
  by repeat (rewrite H; simpl).
Qed.

Lemma load_history_quiet w : quiet w (load_history self w).2.
Proof.
  unfold load_history, os_path_exists, read_history_file. run.
  destruct (history_file w) as [| | | | |v] eqn:F; simpl;
    rewrite ?F; simpl; try (by repeat split).
  destruct (Py.len v) as [n|e]; simpl.
  - by repeat split.
  - destruct e; simpl; by repeat split.
Qed.

Lemma load_history_loaded w h :
  loaded_records (history_file w) = Some h ->
  exists w', load_history self w = (Ok (JArr h), w') /\ quiet w w'.
Proof.
  intros H. eexists. split; [|apply load_history_quiet].
  destruct (history_file w) as [| | | | |v] eqn:F; simpl in H;
    try discriminate.
  - injection H as <-. by rewrite load_history_absent.
  - injection H as <-. by rewrite load_history_unreadable by auto.
  - injection H as <-. by rewrite load_history_unreadable by auto.
  - destruct v; try discriminate. injection H as <-.
    by erewrite load_history_sized.
Qed.

Lemma save_history_spec history w :
  exists w',
    save_history self history w = (Ok tt, w')
    /\ same_env w w' /\ posted w' = posted w
    /\ history_file w' = written w (Py.last_n MAX_HISTORY history).
Proof.
  unfold save_history, write_history_file, written.
  rewrite trim_last_n. run.
  destruct (history_writable w); simpl; [|destruct (history_fault w)];
    simpl; (eexists; split; [reflexivity|]; by repeat split).
Qed.

Lemma add_to_history_spec current_data w h :
  loaded_records (history_file w) = Some h ->
  let kept := Py.last_n MAX_HISTORY (h ++ [current_record current_data]) in
  exists w',
    add_to_history self current_data w = (Ok kept, w')
    /\ same_env w w' /\ posted w' = posted w
    /\ history_file w' = written w kept.
Proof.
  intros H kept. unfold add_to_history.
  destruct (load_history_loaded w h H) as (w1 & E1 & Q1).
  unfold mbind at 1, M_bind at 1. rewrite E1.
  unfold mbind at 1, M_bind at 1, lift, py_append. cbv zeta.
  rewrite trim_last_n. fold kept.
  destruct (save_history_spec kept w1) as (w2 & E2 & Q2 & P2 & F2).
  unfold mbind, M_bind. rewrite E2. exists w2.
  destruct Q1 as (Q1 & P1 & F1).
  split; [done|]. split; [by eapply same_env_trans|].
  split; [congruence|].
  rewrite F2. unfold kept at 1. rewrite last_n_idemp.
  unfold written. destruct Q1 as (_ & _ & -> & -> & _). by rewrite F1.
Qed.

(** After a non-empty sequence of appends to a writable history file,
    the file and the returned sequence hold the last [MAX_HISTORY]
    records of everything loaded and appended. *)
Lemma add_all_spec rs : forall r w h,
  loaded_records (history_file w) = Some h ->
  history_writable w = true ->
  let kept :=
    Py.last_n MAX_HISTORY (h ++ map current_record (r :: rs)) in
  exists w',
    add_all self (r :: rs) w = (Ok kept, w')
    /\ history_file w' = FileJSON (JArr kept)
    /\ history_writable w' = true.
Proof.
  induction rs as [|r' rs IH]; intros r w h H W kept.
  - destruct (add_to_history_spec r w h H) as (w1 & E & Q & _ & F).
    simpl. unfold mbind, M_bind. rewrite E. exists w1.
    unfold written in F. rewrite W in F. destruct Q as (_ & _ & Q & _).
    split; [done|]. split; [done|congruence].
  - destruct (add_to_history_spec r w h H) as (w1 & E & Q & _ & F).
    unfold written in F. rewrite W in F. destruct Q as (_ & _ & Q & _).
    destruct (IH r' w1 _ ltac:(by rewrite F) ltac:(congruence))
      as (w2 & E2 & F2 & W2).
    exists w2. split; [|split; [|done]].
    + change (add_all self (r :: r' :: rs) w)
        with ((add_to_history self r ≫= fun _ => add_all self (r' :: rs)) w).
      unfold mbind, M_bind. rewrite E, E2. do 2 f_equal.
      unfold kept. rewrite last_n_app. f_equal.
      by rewrite <- app_assoc.
    + rewrite F2. do 2 f_equal. unfold kept. rewrite last_n_app. f_equal.
      by rewrite <- app_assoc.
Qed.

End HistoryStore.

(** ** Notifier and run controller *)

Section RunController.

Variable self : TrafficMonitor.

Lemma send_to_apps_script_spec data w :
  exists w',
    send_to_apps_script self data w = (Ok (endpoint_up w data), w')
    /\ same_env w w' /\ posted w' = posted w ++ [data]
    /\ history_file w' = history_file w.
Proof.
  unfold send_to_apps_script, requests_post. run.
  destruct (endpoint_up w data); simpl; [destruct (debug self); simpl|];
    (eexists; split; [reflexivity|by repeat split]).
Qed.

Lemma send_health_check_spec current_data w :
  exists w' h,
    send_health_check self current_data w = (Ok tt, w')
    /\ same_env w w' /\ posted w' = posted w ++ [HealthCheck h]
    /\ history_file w' = history_file w
    /\ hc_status h = "healthy".
Proof.
  unfold send_health_check.
  match goal with
  | |- context [send_to_apps_script self ?d] =>
      destruct (send_to_apps_script_spec d w) as (w1 & E & Q & Hp & Hf)
  end.
  unfold mbind, M_bind. rewrite E.
  destruct Q as (?&?&?&?&?).
  destruct (endpoint_up w _); run;
    (eexists _, _; split; [reflexivity|]; by repeat split).
Qed.

Lemma triple_send_to_apps_script P data :
  P data -> triple P (send_to_apps_script self data) (fun _ => True).
Proof.
  intros HP w.
  destruct (send_to_apps_script_spec data w) as (w' & -> & E & Hp & _).
  split; [|done]. split; [done|]. exists [data]. split; [done|].
  by apply Forall_singleton.
Qed.

Lemma triple_send_health_check P current_data :
  (forall h, P (HealthCheck h)) ->
  triple P (send_health_check self current_data) (fun _ => True).
Proof.
  intros HP w.
  destruct (send_health_check_spec current_data w)
    as (w' & h & -> & E & Hp & _).
  split; [|done]. split; [done|]. exists [HealthCheck h]. split; [done|].
  by apply Forall_singleton.
Qed.

(** The spike alert carries the constant threshold and the rounded
    score it was given. *)
Lemma triple_send_spike_alert current_data z hs :
  (forall st, hs !! "total_traffic" = Some st ->
     z = z_score_of (total_bytes current_data) (mean st) (stdev st)) ->
  triple payload_ok (send_spike_alert self current_data z hs)
    (fun _ => True).
Proof.
  intros Hz. unfold send_spike_alert.
  destruct (hs !! "total_traffic") as [st|]; [|apply triple_raise].
  eapply triple_bind; [apply triple_send_to_apps_script|].
  - split; [reflexivity|]. simpl. by rewrite (Hz st eq_refl).
  - intros. by apply triple_ret.
Qed.

Lemma triple_detect_spike P current_data hs :
  triple P (detect_spike self current_data hs)
    (fun r => r.1 = true ->
       forall st, hs !! "total_traffic" = Some st ->
         r.2 = z_score_of (total_bytes current_data) (mean st) (stdev st)).
Proof.
  intros w. split.
  - apply quiet_grows.
    destruct (detect_spike_world self current_data hs w) as (?&?&?).
    split; [|done]. unfold detect_spike.
    destruct (hs !! "total_traffic") as [st|]; [|by repeat split].
    destruct (Float.eqb _ _); [by repeat split|].
    destruct (debug self); by repeat split.
  - intros [b z]. unfold detect_spike.
    destruct (hs !! "total_traffic") as [st|]; [|by intros [= <- <-]].
    destruct (Float.eqb _ _); [by intros [= <- <-]|].
    destruct (debug self); intros [= <- <-] _ ? [= <-]; reflexivity.
Qed.

Lemma add_to_history_frame current_data w r w' :
  add_to_history self current_data w = (r, w') ->
  same_env w w' /\ posted w' = posted w.
Proof.
  unfold add_to_history, mbind, M_bind, lift.
  pose proof (load_history_quiet self w) as (Q1 & P1 & _).
  destruct (load_history self w) as [[history|e] w1]; simpl in *;
    [|by intros [= <- <-]].
  destruct (py_append history _) as [l|e]; simpl;
    [|by intros [= <- <-]].
  match goal with
  | |- context [save_history self ?l] =>
      destruct (save_history_spec self l w1) as (w2 & E & Q2 & P2 & _)
  end.
  rewrite E. intros [= <- <-].
  split; [by eapply same_env_trans|congruence].
Qed.

Lemma triple_add_to_history P current_data :
  triple P (add_to_history self current_data) (fun _ => True).
Proof.
  intros w. destruct (add_to_history self current_data w) as [r w'] eqn:E.
  destruct (add_to_history_frame _ _ _ _ E) as [Q Hp].
  split; [|done]. split; [done|]. exists []. by rewrite app_nil_r.
Qed.

(** Every notification a run sends is well formed. *)
Lemma triple_run_check :
  triple payload_ok (run_check self) (fun _ => True).
Proof.
  unfold run_check.
  eapply triple_bind; [apply triple_logger|]. intros _ _.
  apply triple_try.
  - eapply triple_bind;
      [apply triple_quiet, get_current_traffic_data_quiet|].
    intros [current_data|] _.
    + eapply triple_bind; [apply triple_logger|]. intros _ _.
      eapply triple_bind; [apply triple_quiet, load_history_quiet|].
      intros history _.
      eapply triple_bind; [apply triple_lift|]. intros hs _.
      eapply triple_bind; [apply triple_detect_spike|].
      intros [is_spike z] Hz. simpl in Hz.
      eapply triple_bind with (Q := fun _ => True).
      * destruct is_spike; [|apply triple_logger].
        eapply triple_bind; [apply triple_logger|]. intros _ _.
        apply triple_send_spike_alert. by apply Hz.
      * intros _ _.
        eapply triple_bind; [by apply triple_send_health_check|].
        intros _ _.
        eapply triple_bind; [apply triple_add_to_history|]. intros _ _.
        eapply triple_bind; [apply triple_logger|]. intros _ _.
        by apply triple_ret.
    + eapply triple_bind; [apply triple_logger|]. intros _ _.
      by apply triple_ret.
  - intros e.
    eapply triple_bind; [apply triple_logger|]. intros _ _.
    eapply triple_bind; [apply triple_now|]. intros ts _.
    eapply triple_bind with (Q := fun _ => True).
    + apply triple_try; [by apply triple_send_to_apps_script|].
      intros. by apply triple_ret.
    + intros _ _. by apply triple_ret.
Qed.

Lemma bind_ok {A B} (c : M A) (k : A -> M B) w a w1 :
  c w = (Ok a, w1) -> (c ≫= k) w = k a w1.
Proof. intros E. unfold mbind, M_bind. by rewrite E. Qed.

Lemma try_except_ok {A} (body : M A) handles handler w a w1 :
  body w = (Ok a, w1) -> try_except body handles handler w = (Ok a, w1).
Proof. intros E. unfold try_except. by rewrite E. Qed.

Ltac step E := erewrite bind_ok by E; cbv beta iota.

Lemma logger_ok l msg w :
  logger l msg w = (Ok tt, set_log (log w ++ [(l, msg)]) w).
Proof. reflexivity. Qed.

(** No measurement: the run reports failure, sends nothing and
    leaves the history file as it was. *)
Lemma run_check_no_measurement w :
  match vnstat w with
  | VnstatOutput output => omap line_measurement (lines output) = []
  | _ => True
  end ->
  exists w',
    run_check self w = (Ok false, w')
    /\ posted w' = posted w /\ history_file w' = history_file w.
Proof.
  intros H. unfold run_check.
  step ltac:(apply logger_ok).
  match goal with |- context [set_log ?l w] => set (w0 := set_log l w) end.
  destruct (get_current_traffic_data_spec self w0) as (w1 & E1 & Q1).
  assert (E : get_current_traffic_data self w0 = (Ok None, w1)).
  { rewrite E1. do 2 f_equal. change (vnstat w0) with (vnstat w).
    destruct (vnstat w) as [output| | |]; try done.
    unfold parsed. by rewrite H. }
  eexists. split.
  - apply try_except_ok. step ltac:(apply E).
    step ltac:(apply logger_ok). reflexivity.
  - destruct Q1 as (_ & P1 & F1). simpl. by rewrite P1, F1.
Qed.

(** With a measurement in hand and a history file that is missing,
    unreadable or not JSON, the run succeeds. *)
Lemma run_check_recovers w output current_data :
  vnstat w = VnstatOutput output ->
  parsed w output = Some current_data ->
  loaded_records (history_file w) = Some [] ->
  (run_check self w).1 = Ok true.
Proof.
  intros V Hp L. unfold run_check.
  step ltac:(apply logger_ok).
  match goal with |- context [set_log ?l w] => set (w0 := set_log l w) end.
  destruct (get_current_traffic_data_spec self w0) as (w1 & E1 & Q1).
  change (vnstat w0) with (vnstat w) in E1. rewrite V in E1.
  change (parsed w0 output) with (parsed w output) in E1. rewrite Hp in E1.
  destruct Q1 as (_ & _ & F1).
  set (w2 := set_log (log w1 ++ [(INFO, "Current traffic: {total} (RX: {rx}, TX: {tx})")]) w1).
  destruct (load_history_loaded self w2 []) as (w3 & E3 & (_ & _ & F3));
    [by subst w2; simpl; rewrite F1|].
  destruct (detect_spike self current_data ∅ w3) as [r4 w4] eqn:E4.
  assert (r4 = Ok (false, Float.zero)) as ->.
  { change r4 with (r4, w4).1. rewrite <- E4.
    by apply detect_spike_no_baseline. }
  pose proof (detect_spike_world self current_data ∅ w3) as (_ & F4 & _).
  rewrite E4 in F4. simpl in F4.
  set (w5 := set_log (log w4 ++ [(INFO, "Normal traffic (z-score: {z_score:.2f})")]) w4).
  destruct (send_health_check_spec current_data w5)
    as (w6 & h & E6 & _ & _ & F6 & _).
  destruct (add_to_history_spec self current_data w6 [])
    as (w7 & E7 & _); [by rewrite F6; subst w5; simpl; rewrite F4, F3; subst w2; simpl; rewrite F1|].
  erewrite try_except_ok; [reflexivity|].
  step ltac:(apply E1).
  step ltac:(apply logger_ok). fold w2.
  step ltac:(apply E3).
  step ltac:(reflexivity).
  step ltac:(apply E4).
  step ltac:(apply logger_ok). fold w5.
  step ltac:(apply E6).
  step ltac:(apply E7).
  step ltac:(apply logger_ok). reflexivity.
Qed.

End RunController.

(** ** Unit converter: the pattern *)

Lemma space_not_digit_or_dot c :
  Str.is_space c = true -> Str.is_digit_or_dot c = false.
Proof. destruct c as [[] [] [] [] [] [] [] []]; by vm_compute. Qed.

Lemma unit_form_cases u :
  u ∈ unit_forms ->
  u = "b" \/ u = "ib" \/ u = "kb" \/ u = "kib" \/ u = "mb" \/ u = "mib"
  \/ u = "gb" \/ u = "gib" \/ u = "tb" \/ u = "tib".
Proof.
  unfold unit_forms. rewrite !elem_of_cons, elem_of_nil. tauto.
Qed.

Lemma stops_blanks_unit p ws u rest :
  (forall c, Str.is_space c = true -> p c = false) ->
  stops p (u +:+ rest) ->
  blanks ws -> stops p (ws +:+ u +:+ rest).
Proof.
  intros Hp Hu Hws. destruct ws as [|c ws]; [done|].
  sapp. simpl. apply Hp. unfold blanks in Hws. simpl in Hws.
  by apply andb_prop in Hws as [? _].
Qed.

(** The scanner finds every text of the shape the pattern describes. *)
Lemma match_bytes_complete mag ws u rest :
  number_token mag -> blanks ws -> u ∈ unit_forms ->
  Re.match_bytes (mag +:+ ws +:+ u +:+ rest) = Some (mag, u).
Proof.
  intros [Hne Hmag] Hws Hu. unfold Re.match_bytes.
  assert (S1 : stops Str.is_digit_or_dot (ws +:+ u +:+ rest)).
  { apply stops_blanks_unit; [apply space_not_digit_or_dot| |done].
    apply unit_form_cases in Hu.
    repeat destruct Hu as [->|Hu]; try subst u; by sapp. }
  assert (S2 : stops Str.is_space (u +:+ rest)).
  { apply unit_form_cases in Hu.
    repeat destruct Hu as [->|Hu]; try subst u; by sapp. }
  rewrite take_while_app, drop_while_app by done.
  rewrite bool_decide_false by done.
  rewrite drop_while_app by done.
  apply unit_form_cases in Hu.
  repeat destruct Hu as [->|Hu]; try subst u; by sapp.
Qed.

Lemma opt_spec p s :
  let '(a, r) := Re.opt p s in
  s = a +:+ r /\ (a = "" \/ exists c, a = String c "" /\ p c = true).
Proof.
  destruct s as [|c s]; simpl; [by split; [|left]|].
  destruct (p c) eqn:E; (split; [done|]); [right|left]; eauto.
Qed.

(** Whatever the scanner accepts has the shape the pattern describes. *)
Lemma match_bytes_sound t g u :
  Re.match_bytes t = Some (g, u) ->
  exists ws rest,
    t = g +:+ ws +:+ u +:+ rest
    /\ number_token g /\ blanks ws /\ u ∈ unit_forms.
Proof.
  unfold Re.match_bytes. case_bool_decide as Hg; [done|].
  set (r0 := Str.drop_while Str.is_digit_or_dot t).
  pose proof (opt_spec Re.is_kmgt (Str.drop_while Str.is_space r0)) as H1.
  destruct (Re.opt Re.is_kmgt _) as [p r1]. destruct H1 as [E1 Hp].
  pose proof (opt_spec Re.is_i r1) as H2.
  destruct (Re.opt Re.is_i r1) as [i r2]. destruct H2 as [E2 Hi].
  destruct r2 as [|b r3]; [done|]. simpl.
  case_bool_decide as Hb; [|done]. simpl. intros [= <- <-]. subst b.
  exists (Str.take_while Str.is_space r0), r3. split_and!.
  - rewrite <- (take_drop_while Str.is_digit_or_dot t) at 1. f_equal.
    fold r0. rewrite <- (take_drop_while Str.is_space r0) at 1. f_equal.
    rewrite E1, E2.
    destruct Hp as [->|(c & -> & _)], Hi as [->|(c' & -> & _)]; by sapp.
  - split; [done|apply all_chars_take_while].
  - apply all_chars_take_while.
  - unfold unit_forms.
    destruct Hp as [->|(c & -> & Hc)], Hi as [->|(c' & -> & Hc')]; sapp;
      rewrite ?elem_of_cons.
    + tauto.
    + unfold Re.is_i in Hc'. case_bool_decide; [subst|done]. tauto.
    + unfold Re.is_kmgt in Hc.
      repeat (apply orb_prop in Hc as [Hc|Hc]);
        case_bool_decide; try done; subst; tauto.
    + unfold Re.is_i in Hc'. case_bool_decide; [subst|done].
      unfold Re.is_kmgt in Hc.
      repeat (apply orb_prop in Hc as [Hc|Hc]);
        case_bool_decide; try done; subst; tauto.
Qed.

Lemma match_bytes_none t : ~ quantity_text t -> Re.match_bytes t = None.
Proof.
  intros H. destruct (Re.match_bytes t) as [[g u]|] eqn:E; [|done].
  destruct H. apply match_bytes_sound in E as (ws & rest & ? & ? & ? & ?).
  by exists g, ws, u, rest.
Qed.

(** ** [float] on a numeric token *)

Lemma digit_not_dot c : Str.is_digit c = true -> c <> "."%char.
Proof. by intros H ->. Qed.

Lemma digit_or_dot_cases c :
  Str.is_digit_or_dot c = true -> Str.is_digit c = false -> c = "."%char.
Proof.
  unfold Str.is_digit_or_dot. intros H D. rewrite D in H. simpl in H.
  by case_bool_decide.
Qed.

Lemma count_points_app a b :
  count_points (a +:+ b) = (count_points a + count_points b)%nat.
Proof. induction a as [|c a IH]; sapp; simpl; [done|]. rewrite IH. lia. Qed.

Lemma has_digit_app a b : has_digit (a +:+ b) = has_digit a || has_digit b.
Proof.
  induction a as [|c a IH]; sapp; simpl; [done|].
  by rewrite IH, orb_assoc.
Qed.

Lemma all_digits_no_point s :
  all_chars Str.is_digit s = true -> count_points s = 0%nat.
Proof.
  induction s as [|c s IH]; simpl; [done|].
  intros [Hc Hs]%andb_prop. rewrite IH by done.
  by rewrite bool_decide_false by by apply digit_not_dot.
Qed.

Lemma all_digits_has_digit s :
  all_chars Str.is_digit s = true ->
  has_digit s = negb (bool_decide (s = "")).
Proof.
  destruct s as [|c s]; simpl; [done|]. by intros [-> _]%andb_prop.
Qed.

Lemma all_digits_weaken s :
  all_chars Str.is_digit s = true ->
  all_chars Str.is_digit_or_dot s = true.
Proof.
  induction s as [|c s IH]; simpl; [done|].
  intros [Hc Hs]%andb_prop. rewrite IH by done.
  unfold Str.is_digit_or_dot. by rewrite Hc.
Qed.

Lemma second_point s :
  all_chars Str.is_digit_or_dot s = true ->
  Str.drop_while Str.is_digit s <> "" -> (1 <= count_points s)%nat.
Proof.
  induction s as [|c s IH]; simpl; [done|].
  intros [Hc Hs]%andb_prop. destruct (Str.is_digit c) eqn:D.
  - intros H. specialize (IH Hs H). lia.
  - intros _. rewrite (digit_or_dot_cases c Hc D). simpl. lia.
Qed.

(** On a numeric token [float] returns exactly for the decimal
    literals and raises [ValueError] for the rest. *)
Lemma py_float_literal tok :
  all_chars Str.is_digit_or_dot tok = true ->
  if decimal_literal tok then returns (py_float tok)
  else py_float tok = Raise ValueError.
Proof.
  intros Hall. unfold decimal_literal, py_float. rewrite Hall. simpl.
  pose proof (take_drop_while Str.is_digit tok) as Htok.
  pose proof (all_chars_take_while Str.is_digit tok) as Hip.
  pose proof (stops_drop_while Str.is_digit tok) as Hstop.
  set (ip := Str.take_while Str.is_digit tok) in *.
  destruct (Str.drop_while Str.is_digit tok) as [|c frac] eqn:Hafter.
  - rewrite <- Htok, has_digit_app, count_points_app. simpl.
    rewrite orb_false_r, all_digits_no_point, all_digits_has_digit by done.
    simpl. case_bool_decide; simpl; [done|by eexists].
  - assert (Hc : c = "."%char).
    { apply digit_or_dot_cases; [|done].
      rewrite <- Htok, all_chars_app in Hall.
      apply andb_prop in Hall as [_ Hall]. simpl in Hall.
      by apply andb_prop in Hall as [? _]. }
    subst c. change (bool_decide ("."%char = "."%char)) with true. simpl.
    assert (Hfrac : all_chars Str.is_digit_or_dot frac = true).
    { rewrite <- Htok, all_chars_app in Hall.
      by apply andb_prop in Hall as [_ Hall]. }
    rewrite <- Htok, has_digit_app, count_points_app. simpl.
    rewrite (all_digits_no_point ip), (all_digits_has_digit ip) by done.
    destruct (decide (Str.drop_while Str.is_digit frac = "")) as [Hd|Hd].
    + rewrite (bool_decide_true _ Hd). apply drop_while_all in Hd.
      rewrite (all_digits_no_point frac), (all_digits_has_digit frac)
        by done. simpl.
      do 2 case_bool_decide; simpl; try done; by eexists.
    + rewrite (bool_decide_false _ Hd).
      pose proof (second_point frac Hfrac Hd).
      rewrite (bool_decide_false (_ <= 1)%nat) by lia.
      by rewrite andb_false_r.
Qed.

(** ** Baseline statistics *)

Section Statistics.

Import statistics.

Local Open Scope Q_scope.

Lemma float_of_fraction_proper q q' :
  q == q' -> float_of_fraction q = float_of_fraction q'.
Proof.
  intros H. unfold float_of_fraction. by rewrite (Qred_complete _ _ H).
Qed.

Lemma float_sqrt_proper q q' : q == q' -> float_sqrt q = float_sqrt q'.
Proof.
  intros H. unfold float_sqrt. by rewrite (Qred_complete _ _ H).
Qed.


(** The loop of [_sum] and [_ss] on finite floats. *)
Lemma accumulate_finite xs : forall qs p,
  exact_values xs = Some qs ->
  exists p',
    accumulate p (map JNum xs) = Ok p'
    /\ p_count p' = (p_count p + length xs)%nat
    /\ p_sx p' == p_sx p + sum_Q qs
    /\ p_sxx p' == p_sxx p + sum_sq qs
    /\ p_none p' = p_none p.
Proof.
  unfold exact_values.
  induction xs as [|x xs IH]; intros qs p H.
  - injection H as <-. exists p. simpl.
    split_and!; [done|lia|unfold sum_Q; simpl; ring
                |unfold sum_sq, sum_Q; simpl; ring|done].
  - cbn [mapM] in H.
    destruct (Float.to_Q x) as [q|] eqn:Hq; [|done]. simpl in H.
    destruct (mapM Float.to_Q xs) as [qs'|] eqn:Hqs; [|done].
    injection H as <-.
    simpl. unfold step at 1, _exact_ratio. rewrite Hq. simpl.
    edestruct (IH qs') as (p' & E & Hc & Hsx & Hsxx & Hn); [done|].
    exists p'. rewrite E. simpl in *.
    split_and!; [done|lia| | |done].
    + rewrite Hsx. unfold sum_Q. simpl. ring.
    + rewrite Hsxx. unfold sum_sq, sum_Q. simpl. ring.
Qed.

Lemma exact_values_length xs qs :
  exact_values xs = Some qs -> length qs = length xs.
Proof.
  unfold exact_values. intros H. apply mapM_Some in H.
  symmetry. by eapply Forall2_length.
Qed.

(** The sum of squared deviations from any centre. *)
Lemma sum_deviations c qs :
  sum_Q (map (fun q => (q - c) * (q - c)) qs)
  == sum_sq qs - (2 # 1) * c * sum_Q qs
     + inject_Z (Z.of_nat (length qs)) * c * c.
Proof.
  induction qs as [|q qs IH].
  - unfold sum_sq, sum_Q. simpl. ring.
  - unfold sum_sq, sum_Q in *. cbn [map foldr length]. rewrite IH.
    rewrite Nat2Z.inj_succ. unfold Z.succ. rewrite inject_Z_plus.
    ring.
Qed.

(** The formula of [_ss] is the textbook one. *)
Lemma ssd_sample_variance qs p :
  (2 <= length qs)%nat ->
  p_count p = length qs -> p_sx p == sum_Q qs -> p_sxx p == sum_sq qs ->
  ssd p / Q_of_nat (p_count p - 1) == sample_variance qs.
Proof.
  intros Hn Hc Hsx Hsxx. unfold ssd, sample_variance, arithmetic_mean.
  rewrite sum_deviations. unfold Q_of_nat. rewrite Hc, Hsx, Hsxx.
  rewrite Nat2Z.inj_sub by lia. change (Z.of_nat 1) with 1%Z.
  set (n := inject_Z (Z.of_nat (length qs))).
  assert (Hn0 : ~ n == 0).
  { unfold n. intros H. unfold Qeq in H. simpl in H. lia. }
  enough (H : (n * sum_sq qs - sum_Q qs * sum_Q qs) / n ==
              sum_sq qs - (2 # 1) * (sum_Q qs / n) * sum_Q qs
              + n * (sum_Q qs / n) * (sum_Q qs / n)) by by rewrite H.
  by field.
Qed.

Lemma total_bytes_of_length records : forall l,
  total_bytes_of records = Ok l -> length l = length records.
Proof.
  induction records as [|r records IH]; intros l; simpl.
  - by intros [= <-].
  - destruct (Py.getitem r _); simpl; [|done].
    destruct (total_bytes_of records); simpl; [|done].
    intros [= <-]. simpl. by rewrite (IH _ eq_refl).
Qed.

Lemma mean_finite xs qs :
  exact_values xs = Some qs -> (1 <= length xs)%nat ->
  mean (map JNum xs) = float_of_fraction (arithmetic_mean qs).
Proof.
  intros Hq Hn. unfold mean.
  destruct (accumulate_finite xs qs empty Hq)
    as (p & -> & Hc & Hsx & _ & Hnone).
  simpl in *. rewrite bool_decide_false by lia. rewrite Hnone.
  apply float_of_fraction_proper. unfold arithmetic_mean, Q_of_nat.
  rewrite Hc, Hsx, (exact_values_length _ _ Hq). by rewrite Qplus_0_l.
Qed.

Lemma stdev_finite xs qs :
  exact_values xs = Some qs -> (2 <= length xs)%nat ->
  stdev (map JNum xs) = float_sqrt (sample_variance qs).
Proof.
  intros Hq Hn. unfold stdev.
  destruct (accumulate_finite xs qs empty Hq)
    as (p & -> & Hc & Hsx & Hsxx & Hnone).
  simpl in *. rewrite bool_decide_false by lia. rewrite Hnone.
  pose proof (exact_values_length _ _ Hq) as Hl.
  apply (float_sqrt_proper (ssd p / Q_of_nat (p_count p - 1))).
  apply ssd_sample_variance; [lia|lia| |].
  - by rewrite Hsx, Qplus_0_l.
  - by rewrite Hsxx, Qplus_0_l.
Qed.

End Statistics.

Section BaselineStatistics.

Variable self : TrafficMonitor.

Lemma calculate_empty : calculate_historical_stats self (JArr []) = Ok ∅.
Proof. reflexivity. Qed.

Lemma calculate_single r x m :
  Py.getitem r "total_bytes" = Ok (JNum x) ->
  statistics.mean [JNum x] = Ok m ->
  calculate_historical_stats self (JArr [r]) =
    Ok {[ "total_traffic" :=
            {| mean := m; stdev := Float.zero;
               count := 1 |} ]}.
Proof.
  intros Hr Hm. unfold calculate_historical_stats. simpl.
  rewrite Hr. simpl. by rewrite Hm.
Qed.

Lemma calculate_many records xs qs m s :
  total_bytes_of records = Ok (map JNum xs) ->
  exact_values xs = Some qs ->
  (2 <= length xs)%nat ->
  statistics.float_of_fraction (arithmetic_mean qs) = Ok m ->
  float_sqrt (sample_variance qs) = Ok s ->
  calculate_historical_stats self (JArr records) =
    Ok {[ "total_traffic" :=
            {| mean := m; stdev := s;
               count := length records |} ]}.
Proof.
  intros Ht Hq Hn Hm Hs. unfold calculate_historical_stats.
  pose proof (total_bytes_of_length _ _ Ht) as Hl.
  rewrite length_map in Hl.
  assert (Py.truthy (JArr records) = true) as ->.
  { simpl. rewrite bool_decide_false by lia. done. }
  simpl. rewrite Ht. simpl.
  rewrite (mean_finite xs qs), Hm by (done || lia). simpl.
  rewrite length_map.
  destruct (Nat.ltb_spec 1 (length xs)); [|lia].
  rewrite (stdev_finite xs qs), Hs by done. simpl.
  by rewrite Hl.
Qed.

End BaselineStatistics.
(** ** Rounding stays finite below the largest double *)

Lemma fexp_eq x : fexp Float.prec Float.emax x = Z.max (x - 53) (-1074).
Proof. reflexivity. Qed.

Lemma digits2_pos_size p : digits2_pos p = Pos.size p.
Proof. induction p; simpl; congruence. Qed.

Lemma Zdigits2_log2 p : Zdigits2 (Zpos p) = Z.log2 (Zpos p) + 1.
Proof.
  simpl. rewrite digits2_pos_size. destruct p; simpl; lia.
Qed.

Lemma Zdigits2_le q k : 0 <= q -> 0 <= k -> q < 2 ^ k -> Zdigits2 q <= k.
Proof.
  intros Hq Hk H. destruct q as [|p|p]; [simpl; lia| |lia].
  rewrite Zdigits2_log2. apply Z.log2_lt_pow2 in H; lia.
Qed.

Lemma Zdigits2_gt q : 0 <= q -> q < 2 ^ Zdigits2 q.
Proof.
  intros Hq. destruct q as [|p|p]; [done| |lia].
  rewrite Zdigits2_log2. apply Z.log2_spec. lia.
Qed.

Lemma Zdigits2_nonneg q : 0 <= Zdigits2 q.
Proof. destruct q; simpl; lia. Qed.

Lemma shr_1_spec x :
  0 <= shr_m x ->
  shr_m (shr_1 x) = shr_m x / 2
  /\ inexact (shr_1 x) = Z.odd (shr_m x) || inexact x.
Proof.
  rewrite <- Z.div2_div.
  destruct x as [[|[p|p|]|p] r s]; simpl; intros H; try lia; done.
Qed.

Lemma iter_pos_nat {A} (f : A -> A) p x :
  SpecFloat.iter_pos f p x = Nat.iter (Pos.to_nat p) f x.
Proof.
  revert x. induction p as [p IH|p IH|]; intros x;
    cbn [SpecFloat.iter_pos].
  - rewrite !IH, Pos2Nat.inj_xI.
    change (Nat.iter (S (2 * Pos.to_nat p)) f x)
      with (f (Nat.iter (2 * Pos.to_nat p) f x)).
    rewrite <- Nat.iter_swap, <- Nat.iter_add. f_equal. lia.
  - rewrite !IH, Pos2Nat.inj_xO, <- Nat.iter_add. f_equal. lia.
  - done.
Qed.

Lemma shr_iter_spec k x :
  0 <= shr_m x ->
  let y := Nat.iter k shr_1 x in
  shr_m y = shr_m x / 2 ^ Z.of_nat k
  /\ (inexact y = true ->
      inexact x = true \/ shr_m y * 2 ^ Z.of_nat k < shr_m x).
Proof.
  intros Hx. induction k as [|k IH]; simpl.
  - rewrite Z.div_1_r. auto.
  - destruct IH as [Hm Hi].
    set (y := Nat.iter k shr_1 x) in *.
    assert (Hy : 0 <= shr_m y) by (rewrite Hm; apply Z.div_pos; lia).
    destruct (shr_1_spec y Hy) as [Hm' Hi'].
    assert (Hp : 0 < 2 ^ Z.of_nat k) by (apply Z.pow_pos_nonneg; lia).
    assert (Hpow : 2 ^ Z.of_nat (S k) = 2 ^ Z.of_nat k * 2).
    { rewrite Nat2Z.inj_succ, Z.pow_succ_r by lia. lia. }
    split.
    + rewrite Hm', Hm, Z.div_div by lia. by rewrite Hpow.
    + rewrite Hi'. pose proof (Z.mul_div_le (shr_m x) _ Hp) as Hle.
      rewrite <- Hm in Hle.
      pose proof (Z.div2_odd (shr_m y)) as Hodd.
      rewrite Z.div2_div in Hodd.
      intros [Ho|Hin]%orb_prop.
      * right. rewrite Hm', Hpow. rewrite Ho in Hodd. simpl in Hodd. nia.
      * destruct (Hi Hin) as [?|Hlt]; [by left|right].
        rewrite Hm', Hpow. destruct (Z.odd (shr_m y)); simpl in Hodd; nia.
Qed.

Lemma shr_record_of_loc_spec m l :
  shr_m (shr_record_of_loc m l) = m
  /\ (inexact (shr_record_of_loc m l) = true -> l <> loc_Exact).
Proof. by destruct l as [|[]]. Qed.

Lemma loc_of_shr_record_inexact y :
  loc_of_shr_record y <> loc_Exact -> inexact y = true.
Proof. by destruct y as [m [] []]. Qed.

Lemma round_nearest_even_spec m l :
  round_nearest_even m l = m
  \/ (round_nearest_even m l = m + 1 /\ l <> loc_Exact).
Proof.
  destruct l as [|[]]; simpl; auto.
  destruct (Z.even m); auto.
Qed.

(** One normalising shift: the new exponent, the new mantissa, and what
    a raised inexact flag means. *)
Lemma shr_fexp_spec m e l :
  0 <= m ->
  let r := shr_fexp Float.prec Float.emax m e l in
  r.2 = Z.max e (fexp Float.prec Float.emax (Zdigits2 m + e))
  /\ shr_m r.1 = m / 2 ^ (r.2 - e)
  /\ (inexact r.1 = true ->
      l <> loc_Exact \/ shr_m r.1 * 2 ^ (r.2 - e) < m).
Proof.
  intros Hm. unfold shr_fexp, shr.
  destruct (shr_record_of_loc_spec m l) as [Hr Hl].
  destruct (fexp _ _ _ - e) as [|p|p] eqn:E; simpl.
  - split_and!; [lia|by rewrite Z.sub_diag, Z.div_1_r|auto].
  - rewrite iter_pos_nat.
    destruct (shr_iter_spec (Pos.to_nat p) (shr_record_of_loc m l))
      as [H1 H2]; [lia|].
    rewrite positive_nat_Z, Hr in *.
    replace (e + Z.pos p - e) with (Z.pos p) by lia.
    split_and!; [lia|done|]. intros Hi. destruct (H2 Hi); auto.
  - split_and!; [lia|by rewrite Z.sub_diag, Z.div_1_r|auto].
Qed.

(** Rounding a quotient that does not exceed the largest double gives a
    finite double. *)
Lemma binary_round_aux_finite s q e l :
  0 <= q -> e <= 0 ->
  q <= (2 ^ 53 - 1) * 2 ^ (971 - e) ->
  (l <> loc_Exact -> q < (2 ^ 53 - 1) * 2 ^ (971 - e)) ->
  Float.is_finite (binary_round_aux Float.prec Float.emax s q e l) = true.
Proof.
  intros Hq He Hle Hlt. unfold binary_round_aux.
  pose proof (shr_fexp_spec q e l Hq) as H1.
  destruct (shr_fexp Float.prec Float.emax q e l) as [y e1].
  simpl in H1. destruct H1 as (He1 & Hm1 & Hi1).
  set (mr := round_nearest_even (shr_m y) (loc_of_shr_record y)).
  assert (HK : 0 < 2 ^ (e1 - e)) by (apply Z.pow_pos_nonneg; lia).
  assert (Hy : 0 <= shr_m y) by (rewrite Hm1; apply Z.div_pos; lia).
  assert (Hmr : 0 <= mr) by by apply round_nearest_even_nonneg.
  pose proof (shr_fexp_spec mr e1 loc_Exact Hmr) as H2.
  destruct (shr_fexp Float.prec Float.emax mr e1 loc_Exact) as [y2 e2].
  simpl in H2. destruct H2 as (He2 & Hm2 & _).
  assert (Hy2 : 0 <= shr_m y2).
  { rewrite Hm2. apply Z.div_pos; [done|]. apply Z.pow_pos_nonneg; lia. }
  destruct (shr_m y2) as [|m2|m2]; [done| |lia].
  enough (Hfin : e2 <= 971).
  { change (Float.emax - Float.prec) with 971.
    by apply Z.leb_le in Hfin as ->. }
  rewrite fexp_eq in He1, He2.
  (* the first exponent *)
  assert (Hpow : 2 ^ (1024 - e) = 2 ^ 53 * 2 ^ (971 - e)).
  { rewrite <- Z.pow_add_r by lia. f_equal; lia. }
  assert (HA0 : 0 < 2 ^ (971 - e)) by (apply Z.pow_pos_nonneg; lia).
  assert (Hdq : Zdigits2 q <= 1024 - e).
  { apply Zdigits2_le; [done|lia|]. rewrite Hpow. lia. }
  assert (He1' : e1 <= 971) by lia.
  (* the second exponent *)
  enough (Hd : Zdigits2 mr <= 1024 - e1) by lia.
  apply Zdigits2_le; [done|lia|].
  assert (Hsplit : 2 ^ (971 - e) = 2 ^ (971 - e1) * 2 ^ (e1 - e)).
  { rewrite <- Z.pow_add_r by lia. f_equal; lia. }
  assert (Hpow1 : 2 ^ (1024 - e1) = 2 ^ 53 * 2 ^ (971 - e1)).
  { rewrite <- Z.pow_add_r by lia. f_equal; lia. }
  assert (HA : 0 < 2 ^ (971 - e1)) by (apply Z.pow_pos_nonneg; lia).
  set (A := 2 ^ (971 - e1)) in *. set (K := 2 ^ (e1 - e)) in *.
  assert (Hy' : shr_m y <= (2 ^ 53 - 1) * A).
  { rewrite Hm1. apply Z.div_le_upper_bound; [done|]. rewrite Hsplit in Hle.
    lia. }
  pose proof (Z.mul_div_le q K HK) as HqK. rewrite <- Hm1 in HqK.
  rewrite Hpow1.
  destruct (round_nearest_even_spec (shr_m y) (loc_of_shr_record y))
    as [Hr|[Hr Hloc]]; fold mr in Hr; rewrite Hr; [lia|].
  destruct (decide (e1 = 971)) as [->|Hne].
  - (* the last binade: rounding up must not reach 2^53 *)
    change (2 ^ (971 - 971)) with 1 in *. subst A.
    enough (shr_m y <> 2 ^ 53 - 1) by lia. intros Heq.
    apply loc_of_shr_record_inexact in Hloc.
    rewrite Hsplit in Hle, Hlt.
    destruct (Hi1 Hloc) as [Hl|Hl]; [specialize (Hlt Hl)|]; nia.
  - assert (2 <= A); [|nia].
    subst A. change 2 with (2 ^ 1) at 1.
    apply Z.pow_le_mono_r; lia.
Qed.

Lemma new_location_exact d r :
  new_location d r <> loc_Exact -> r <> 0.
Proof.
  intros H ->. apply H. unfold new_location.
  by destruct (Z.even d).
Qed.

(** A ratio that does not exceed the largest double rounds to a finite
    double. *)
Lemma of_ratio_finite s n d :
  0 <= n -> 0 < d -> n <= max_double * d ->
  Float.is_finite (Float.of_ratio s n d) = true.
Proof.
  intros Hn Hd Hle. unfold Float.of_ratio, SFdiv_core_binary.
  set (e := Z.min _ (0 - 0)).
  assert (He : e <= 0) by (subst e; lia).
  assert (Hm : match 0 - 0 - e with
               | 0 => n
               | Z.pos _ => Z.shiftl n (0 - 0 - e)
               | Z.neg _ => 0
               end = n * 2 ^ (- e)).
  { replace (0 - 0 - e) with (- e) by lia.
    destruct (- e) as [|p|p] eqn:E; [lia| |lia].
    by rewrite Z.shiftl_mul_pow2 by lia. }
  rewrite Hm.
  pose proof (Z_div_mod (n * 2 ^ (- e)) d ltac:(lia)) as Hqr.
  destruct (Z.div_eucl (n * 2 ^ (- e)) d) as [q r].
  destruct Hqr as [Hq Hr].
  assert (HE : 0 < 2 ^ (- e)) by (apply Z.pow_pos_nonneg; lia).
  assert (Hsplit : 2 ^ (971 - e) = 2 ^ 971 * 2 ^ (- e)).
  { rewrite <- Z.pow_add_r by lia. f_equal; lia. }
  unfold max_double in Hle.
  set (E := 2 ^ (- e)) in *. set (T := 2 ^ 971) in *.
  assert (HT : 0 < T) by (subst T; apply Z.pow_pos_nonneg; lia).
  apply binary_round_aux_finite; [nia|done| |].
  - rewrite Hsplit. fold T E.
    assert (d * q <= d * ((2 ^ 53 - 1) * (T * E))); [nia|].
    by apply Z.mul_le_mono_pos_l in H.
  - intros Hl%new_location_exact. rewrite Hsplit. fold T E.
    assert (d * q < d * ((2 ^ 53 - 1) * (T * E))); [nia|].
    by apply Z.mul_lt_mono_pos_l in H.
Qed.

Lemma int_true_div_returns a b :
  0 <= a -> 0 < b -> a <= max_double * b ->
  returns (Py.int_true_div a b).
Proof.
  intros Ha Hb Hle. unfold Py.int_true_div.
  rewrite (Z.abs_eq a) by done.
  rewrite of_ratio_finite by done. by eexists.
Qed.

(** ** Square roots stay finite *)

Lemma lor_flag_le a (b : bool) :
  0 <= a -> a <= Z.lor a (if b then 0 else 1) <= a + 1.
Proof.
  intros Ha. destruct b.
  - rewrite Z.lor_0_r. lia.
  - destruct a as [|[p|p|]|p]; [| | | |lia].
    + change (Z.lor 0 1) with 1. lia.
    + change (Z.lor (Z.pos p~1) 1) with (Z.pos p~1). lia.
    + change (Z.lor (Z.pos p~0) 1) with (Z.pos p~1). lia.
    + change (Z.lor 1 1) with 1. lia.
Qed.

Lemma rto_bounds n m :
  0 <= n -> 0 < m ->
  let a := Z.sqrt (n / m) in
  0 <= a /\ a * a * m <= n
  /\ a <= statistics._integer_sqrt_of_frac_rto n m <= a + 1.
Proof.
  intros Hn Hm a.
  assert (H0 : 0 <= n / m) by (apply Z.div_pos; lia).
  pose proof (Z.sqrt_spec (n / m) H0) as [Hlo _]. fold a in Hlo.
  pose proof (Z.sqrt_nonneg (n / m)) as Ha. fold a in Ha.
  pose proof (Z.mul_div_le n m Hm) as Hd.
  split_and!; [done|nia| |];
    unfold statistics._integer_sqrt_of_frac_rto; fold a;
    apply (lor_flag_le a (a * a * m =? n) Ha).
Qed.

(** Four fifths of a bound on the square root. *)
Lemma half_square_bound x b :
  0 <= x -> 0 <= b -> 2 * (x * x) <= b * b -> 5 * x <= 4 * b.
Proof. intros. nia. Qed.

Lemma bit_length_gap n m :
  0 < n -> 0 < m -> forall k, 0 <= k -> n < 2 ^ k * m ->
  Py.bit_length n <= Py.bit_length m + k.
Proof.
  intros Hn Hm k Hk Hlt. unfold Py.bit_length.
  destruct (Z.eqb_spec n 0) as [|_]; [lia|].
  destruct (Z.eqb_spec m 0) as [|_]; [lia|].
  rewrite !Z.abs_eq by lia.
  pose proof (Z.log2_spec m Hm) as [_ Hhi].
  pose proof (Z.log2_nonneg m) as Hl.
  assert (n < 2 ^ (k + Z.succ (Z.log2 m))).
  { rewrite Z.pow_add_r by lia.
    assert (0 < 2 ^ k) by (apply Z.pow_pos_nonneg; lia). nia. }
  apply Z.log2_lt_pow2 in H; lia.
Qed.

Lemma max_double_facts :
  5 * 2 ^ 969 <= max_double /\ max_double * max_double < 2 * 2 ^ 2047.
Proof. split; vm_compute; congruence. Qed.

Lemma bit_length_nonneg m : 0 <= Py.bit_length m.
Proof.
  unfold Py.bit_length. destruct (m =? 0); [lia|].
  pose proof (Z.log2_nonneg (Z.abs m)). lia.
Qed.

(** The argument on the size of the root, for any bound [M] on the
    quotients that convert and any two powers [T] and [U] of two that
    frame [M] as [2^969] and [2^2047] frame the largest double. *)
Section RootBound.

Variables M T U : Z.

Hypothesis HT : 0 < T.
Hypothesis H5 : 5 * T <= M.
Hypothesis Hsq : M * M < 2 * U.
Hypothesis Hpow : forall q, 0 <= q <= 969 -> 0 < 2 ^ q <= T.
Hypothesis Hgap : forall n m,
  0 < n -> 0 < m -> n < U * m ->
  Py.bit_length n <= Py.bit_length m + 2047.
Hypothesis Hret : forall a b,
  0 <= a -> 0 < b -> a <= M * b -> returns (Py.int_true_div a b).

Lemma root_exponent n m :
  0 <= n -> 0 < m -> 2 * n <= M * M * m ->
  (Py.bit_length n - Py.bit_length m - 109) / 2 <= 969.
Proof.
  intros Hn Hm Hle.
  destruct (Z.eq_dec n 0) as [->|Hn0].
  - pose proof (bit_length_nonneg m).
    change (Py.bit_length 0) with 0.
    apply Z.div_le_upper_bound; lia.
  - assert (n < U * m) by nia.
    pose proof (Hgap n m ltac:(lia) Hm H).
    apply Z.div_le_upper_bound; lia.
Qed.

Lemma root_returns n m :
  0 <= n -> 0 < m -> 2 * n <= M * M * m ->
  returns (statistics._float_sqrt_of_frac n m).
Proof.
  intros Hn Hm Hle. unfold statistics._float_sqrt_of_frac.
  pose proof (root_exponent n m Hn Hm Hle) as Hq'.
  set (q := (Py.bit_length n - Py.bit_length m - 109) / 2) in *.
  assert (HM : 0 <= M) by lia.
  destruct (Z.leb_spec 0 q) as [Hq|Hq].
  - rewrite !Z.shiftl_mul_pow2 by lia.
    replace (2 ^ (2 * q)) with (2 ^ q * 2 ^ q)
      by (rewrite <- Z.pow_add_r by lia; f_equal; lia).
    destruct (Hpow q ltac:(lia)) as [HE H969].
    set (E := 2 ^ q) in *.
    destruct (rto_bounds n (m * (E * E)) Hn ltac:(nia))
      as (Ha & Hlo & Hr1 & Hr2).
    set (a := Z.sqrt (n / (m * (E * E)))) in *.
    set (r := statistics._integer_sqrt_of_frac_rto n (m * (E * E))) in *.
    assert (Hx : 5 * (a * E) <= 4 * M).
    { apply half_square_bound; [nia|done|].
      assert (m * (2 * (a * E * (a * E))) <= m * (M * M)) by nia.
      by apply Z.mul_le_mono_pos_l in H. }
    apply Hret; [nia|lia|]. nia.
  - rewrite !Z.shiftl_mul_pow2 by lia.
    replace (2 ^ (-2 * q)) with (2 ^ (- q) * 2 ^ (- q))
      by (rewrite <- Z.pow_add_r by lia; f_equal; lia).
    assert (HE : 0 < 2 ^ (- q)) by (apply Z.pow_pos_nonneg; lia).
    set (F := 2 ^ (- q)) in *.
    destruct (rto_bounds (n * (F * F)) m ltac:(nia) Hm)
      as (Ha & Hlo & Hr1 & Hr2).
    set (a := Z.sqrt (n * (F * F) / m)) in *.
    set (r := statistics._integer_sqrt_of_frac_rto (n * (F * F)) m) in *.
    assert (Hx : 5 * a <= 4 * (M * F)).
    { apply half_square_bound; [done|nia|].
      assert (m * (2 * (a * a)) <= m * (M * F * (M * F))) by nia.
      by apply Z.mul_le_mono_pos_l in H. }
    apply Hret; [lia|lia|]. rewrite Z.mul_1_l. nia.
Qed.

End RootBound.

(** The square root of a fraction that is at most half the square of
    the largest double is a double. *)
Lemma float_sqrt_of_frac_returns n m :
  0 <= n -> 0 < m -> 2 * n <= max_double * max_double * m ->
  returns (statistics._float_sqrt_of_frac n m).
Proof.
  destruct max_double_facts as [H5 Hsq].
  apply (root_returns max_double (2 ^ 969) (2 ^ 2047)).
  - by apply Z.pow_pos_nonneg.
  - exact H5.
  - exact Hsq.
  - intros q Hq. split; [apply Z.pow_pos_nonneg; lia|].
    apply Z.pow_le_mono_r; lia.
  - intros n' m' Hn' Hm' H. by apply bit_length_gap.
  - apply int_true_div_returns.
Qed.

(** ** Bounds on the mean and the variance *)

Section Bounds.

Import statistics.

Local Open Scope Q_scope.

Lemma to_Q_bound x :
  byte_total x = true ->
  exists q, Float.to_Q x = Some q /\ 0 <= q <= inject_Z max_double.
Proof.
  unfold byte_total. intros [[Hv Hf]%andb_prop Hn]%andb_prop.
  assert (HM : (2 ^ 53 - 1 <= max_double)%Z) by (vm_compute; congruence).
  destruct x as [s| | |s m e]; try done.
  - exists 0. split; [done|]. unfold Qle. cbn [Qnum Qden inject_Z]. lia.
  - destruct s; [done|]. simpl in Hv. unfold bounded, canonical_mantissa in Hv.
    apply andb_prop in Hv as [Hc He].
    apply Z.eqb_eq in Hc. apply Z.leb_le in He. rewrite fexp_eq in Hc.
    change (Float.emax - Float.prec)%Z with 971%Z in He.
    assert (Hm : (Zpos m < 2 ^ 53)%Z).
    { pose proof (Zdigits2_gt (Zpos m) ltac:(lia)) as Hd.
      change (Zdigits2 (Zpos m)) with (Zpos (digits2_pos m)) in Hd.
      assert (2 ^ Zpos (digits2_pos m) <= 2 ^ 53)%Z
        by (apply Z.pow_le_mono_r; lia).
      lia. }
    eexists. split; [reflexivity|]. rewrite Qred_correct.
    destruct e as [|k|k]; unfold Qle; cbn [Qnum Qden inject_Z].
    + rewrite Z.pow_0_r. lia.
    + assert (0 < 2 ^ Zpos k <= 2 ^ 971)%Z.
      { split; [apply Z.pow_pos_nonneg; lia|apply Z.pow_le_mono_r; lia]. }
      unfold max_double. set (T := (2 ^ 971)%Z) in *. nia.
    + nia.
Qed.

Lemma exact_values_bound xs :
  Forall (fun x => byte_total x = true) xs ->
  exists qs, exact_values xs = Some qs
    /\ Forall (fun q => 0 <= q <= inject_Z max_double) qs.
Proof.
  unfold exact_values. induction 1 as [|x xs Hx _ (qs & E & Hqs)].
  - by exists [].
  - destruct (to_Q_bound x Hx) as (q & Eq & Hq).
    exists (q :: qs). cbn [mapM]. rewrite Eq. simpl. rewrite E. simpl.
    split; [done|by constructor].
Qed.

Lemma sum_bounds M qs :
  Forall (fun q => 0 <= q <= M) qs ->
  0 <= sum_Q qs
  /\ sum_Q qs <= inject_Z (Z.of_nat (length qs)) * M
  /\ sum_sq qs <= M * sum_Q qs.
Proof.
  induction 1 as [|q qs [H0 H1] _ (IH0 & IH1 & IH2)].
  - unfold sum_sq, sum_Q. simpl. change (inject_Z (Z.of_nat 0)) with 0.
    split_and!; lra.
  - unfold sum_sq, sum_Q in *. cbn [map foldr length].
    rewrite Nat2Z.inj_succ. unfold Z.succ. rewrite inject_Z_plus.
    change (inject_Z 1) with 1.
    split_and!; nra.
Qed.

Lemma squares_nonneg c qs :
  0 <= sum_Q (map (fun q => (q - c) * (q - c)) qs).
Proof.
  induction qs as [|q qs IH]; unfold sum_Q in *; cbn [map foldr]; [lra|].
  generalize (q - c). intros y. assert (0 <= y * y) by nra. lra.
Qed.

Lemma count_positive k :
  (1 <= k)%nat -> 1 <= inject_Z (Z.of_nat k).
Proof. intros H. unfold Qle. simpl. lia. Qed.

Lemma mean_bound M qs :
  (1 <= length qs)%nat ->
  Forall (fun q => 0 <= q <= M) qs ->
  0 <= arithmetic_mean qs <= M.
Proof.
  intros Hn (H0 & H1 & _)%sum_bounds. unfold arithmetic_mean.
  pose proof (count_positive _ Hn) as Hc.
  split.
  - apply Qle_shift_div_l; lra.
  - apply Qle_shift_div_r; lra.
Qed.

(** The sample variance of values between 0 and [M] is at most half
    the square of [M]. *)
Lemma variance_bound M qs :
  (2 <= length qs)%nat ->
  Forall (fun q => 0 <= q <= M) qs ->
  0 <= sample_variance qs /\ (2 # 1) * sample_variance qs <= M * M.
Proof.
  intros Hn Hqs. destruct (sum_bounds M qs Hqs) as (H0 & H1 & H2).
  assert (HM : 0 <= M).
  { destruct qs as [|q qs]; [simpl in Hn; lia|].
    apply Forall_cons in Hqs as [[? ?] _]. lra. }
  unfold sample_variance.
  pose proof (squares_nonneg (arithmetic_mean qs) qs) as HD0.
  pose proof (sum_deviations (arithmetic_mean qs) qs) as HD.
  assert (Hmu : inject_Z (Z.of_nat (length qs)) * arithmetic_mean qs
                == sum_Q qs).
  { unfold arithmetic_mean. apply Qmult_div_r.
    pose proof (count_positive (length qs) ltac:(lia)). lra. }
  assert (Hc : 2 <= inject_Z (Z.of_nat (length qs))).
  { unfold Qle. simpl. lia. }
  assert (Hd : inject_Z (Z.of_nat (length qs) - 1)
               == inject_Z (Z.of_nat (length qs)) - 1).
  { unfold Z.sub. rewrite inject_Z_plus. reflexivity. }
  rewrite Hd.
  set (n := inject_Z (Z.of_nat (length qs))) in *.
  set (mu := arithmetic_mean qs) in *.
  set (D := sum_Q (map (fun q => (q - mu) * (q - mu)) qs)) in *.
  set (S := sum_Q qs) in *. set (sq := sum_sq qs) in *.
  assert (HA : D <= M * S - mu * S).
  { rewrite HD. 
    assert (n * mu * mu == S * mu) by (rewrite Hmu; reflexivity).
    lra. }
  assert (HB : (4 # 1) * (n * D) <= n * (n * (M * M))).
  { assert (n * (mu * S) == S * S) by (rewrite <- Hmu at 2; ring).
    assert (n * D <= n * (M * S) - S * S) by nra.
    assert (0 <= (n * M - (2 # 1) * S) * (n * M - (2 # 1) * S)).
    { generalize (n * M - (2 # 1) * S). intros t. nra. }
    lra. }
  assert (HC : (4 # 1) * D <= n * (M * M)).
  { apply (Qmult_le_l _ _ n); [lra|]. lra. }
  assert (HD2 : (2 # 1) * D <= (n - 1) * (M * M)) by nra.
  split.
  - apply Qle_shift_div_l; lra.
  - assert ((2 # 1) * (D / (n - 1)) == ((2 # 1) * D) / (n - 1)) as ->
      by (field; lra).
    apply Qle_shift_div_r; lra.
Qed.

Lemma float_of_fraction_returns q :
  0 <= q <= inject_Z max_double -> returns (float_of_fraction q).
Proof.
  intros [H0 H1]. unfold float_of_fraction.
  rewrite <- (Qred_correct q) in H0, H1.
  destruct (Qred q) as [a b]. unfold Qle in *.
  cbn [Qnum Qden inject_Z] in *.
  apply int_true_div_returns; lia.
Qed.

Lemma float_sqrt_returns q :
  0 <= q ->
  (2 # 1) * q <= inject_Z max_double * inject_Z max_double ->
  returns (float_sqrt q).
Proof.
  intros H0 H1. unfold float_sqrt.
  rewrite <- (Qred_correct q) in H0, H1.
  destruct (Qred q) as [a b]. cbn [Qnum Qden].
  apply float_sqrt_of_frac_returns.
  - unfold Qle in H0. simpl in H0. lia.
  - done.
  - revert H1. generalize max_double. intros M H1.
    unfold Qle in H1. simpl in H1. lia.
Qed.

End Bounds.

(** ** The baseline of a stored history *)

Section BaselineReturns.

Import statistics.

Local Open Scope Q_scope.

Lemma int_true_div_class a b x :
  (0 <= a)%Z -> (0 < b)%Z -> Py.int_true_div a b = Ok x ->
  Float.is_finite x = true /\ plus_class x.
Proof.
  intros Ha Hb. unfold Py.int_true_div.
  destruct (Float.is_finite _) eqn:F; [|done]. intros [= <-].
  split; [done|].
  destruct (Z.ltb_spec a 0) as [|_]; [lia|].
  rewrite Z.abs_eq by done. by apply of_ratio_plus.
Qed.

Lemma float_of_fraction_class q x :
  0 <= q -> float_of_fraction q = Ok x ->
  Float.is_finite x = true /\ plus_class x.
Proof.
  intros H0. unfold float_of_fraction.
  rewrite <- (Qred_correct q) in H0.
  destruct (Qred q) as [a b]. unfold Qle in H0. simpl in H0.
  apply int_true_div_class; simpl; lia.
Qed.

Lemma rto_nonneg n m :
  (0 <= n)%Z -> (0 < m)%Z -> (0 <= _integer_sqrt_of_frac_rto n m)%Z.
Proof.
  intros Hn Hm. destruct (rto_bounds n m Hn Hm) as (? & _ & ? & _). lia.
Qed.

Lemma float_sqrt_class q x :
  0 <= q -> float_sqrt q = Ok x ->
  Float.is_finite x = true /\ plus_class x.
Proof.
  intros H0. unfold float_sqrt, _float_sqrt_of_frac.
  rewrite <- (Qred_correct q) in H0.
  destruct (Qred q) as [a b]. unfold Qle in H0. simpl in H0.
  cbn [Qnum Qden].
  set (k := ((Py.bit_length a - Py.bit_length (Z.pos b) - 109) / 2)%Z).
  destruct (Z.leb_spec 0 k).
  - rewrite !Z.shiftl_mul_pow2 by lia.
    assert (0 < 2 ^ k)%Z by (apply Z.pow_pos_nonneg; lia).
    assert (0 < 2 ^ (2 * k))%Z by (apply Z.pow_pos_nonneg; lia).
    apply int_true_div_class; [|lia].
    apply Z.mul_nonneg_nonneg; [apply rto_nonneg|]; nia.
  - rewrite !Z.shiftl_mul_pow2 by lia.
    assert (0 < 2 ^ (- k))%Z by (apply Z.pow_pos_nonneg; lia).
    assert (0 < 2 ^ (-2 * k))%Z by (apply Z.pow_pos_nonneg; lia).
    apply int_true_div_class; [|lia].
    apply rto_nonneg; nia.
Qed.

(** The values of a constant list. *)
Lemma sum_Q_replicate n q :
  sum_Q (replicate n q) == inject_Z (Z.of_nat n) * q.
Proof.
  induction n as [|n IH]; unfold sum_Q in *; cbn [replicate foldr].
  - change (inject_Z (Z.of_nat 0)) with 0. ring.
  - rewrite IH, Nat2Z.inj_succ. unfold Z.succ. rewrite inject_Z_plus.
    change (inject_Z 1) with 1. ring.
Qed.

Lemma sum_sq_replicate n q :
  sum_sq (replicate n q) == inject_Z (Z.of_nat n) * (q * q).
Proof.
  unfold sum_sq. rewrite <- sum_Q_replicate.
  by rewrite <- (fmap_replicate (fun q => q * q)).
Qed.

Lemma variance_replicate n q :
  (2 <= n)%nat -> sample_variance (replicate n q) == 0.
Proof.
  intros Hn. unfold sample_variance.
  pose proof (sum_deviations (arithmetic_mean (replicate n q))
                (replicate n q)) as HD.
  assert (Hmu : arithmetic_mean (replicate n q) == q).
  { unfold arithmetic_mean. rewrite sum_Q_replicate, length_replicate.
    pose proof (count_positive n ltac:(lia)). field. lra. }
  rewrite HD, sum_sq_replicate, sum_Q_replicate, length_replicate, Hmu.
  pose proof (count_positive n ltac:(lia)) as Hc.
  assert (Hd : inject_Z (Z.of_nat n - 1) == inject_Z (Z.of_nat n) - 1).
  { unfold Z.sub. rewrite inject_Z_plus. reflexivity. }
  rewrite Hd. assert (2 <= inject_Z (Z.of_nat n)).
  { unfold Qle. simpl. lia. }
  field. lra.
Qed.

Lemma exact_values_replicate n x q :
  Float.to_Q x = Some q ->
  exact_values (replicate n x) = Some (replicate n q).
Proof.
  intros H. unfold exact_values. induction n as [|n IH]; [done|].
  cbn [replicate mapM]. rewrite H. simpl. by rewrite IH.
Qed.

End BaselineReturns.

Section BaselineTotal.

Variable self : TrafficMonitor.

(** On stored totals that are finite and not negative the statistics
    overflow nowhere. *)
Lemma calculate_returns records xs :
  total_bytes_of records = Ok (map JNum xs) ->
  Forall (fun x => byte_total x = true) xs ->
  (1 <= length xs)%nat ->
  exists st,
    calculate_historical_stats self (JArr records) =
      Ok {[ "total_traffic" := st ]}
    /\ count st = length records
    /\ Float.is_finite (mean st) = true /\ plus_class (mean st)
    /\ Float.is_finite (stdev st) = true /\ plus_class (stdev st).
Proof.
  intros Ht Hx Hn.
  destruct (exact_values_bound xs Hx) as (qs & Hq & Hqs).
  pose proof (exact_values_length _ _ Hq) as Hl.
  pose proof (total_bytes_of_length _ _ Ht) as Hr.
  rewrite length_map in Hr.
  destruct (mean_bound _ qs ltac:(lia) Hqs) as [Hm0 Hm1].
  destruct (float_of_fraction_returns (arithmetic_mean qs) (conj Hm0 Hm1))
    as [m Em].
  destruct (float_of_fraction_class _ _ Hm0 Em) as [Fm Pm].
  destruct (decide (length xs = 1%nat)) as [H1|H1].
  - exists {| mean := m; stdev := Float.of_Z 0; count := length records |}.
    split; [|by repeat split].
    unfold calculate_historical_stats.
    assert (Py.truthy (JArr records) = true) as ->.
    { simpl. rewrite bool_decide_false by lia. done. }
    simpl. rewrite Ht. simpl.
    rewrite (mean_finite xs qs), Em by (done || lia). simpl.
    rewrite length_map, H1. simpl. by rewrite <- Hr, H1.
  - destruct (variance_bound _ qs ltac:(lia) Hqs) as [Hv0 Hv1].
    destruct (float_sqrt_returns (sample_variance qs) Hv0) as [s Es].
    { by rewrite <- inject_Z_mult in Hv1 |- *. }
    destruct (float_sqrt_class _ _ Hv0 Es) as [Fs Ps].
    exists {| mean := m; stdev := s; count := length records |}.
    split; [|by repeat split].
    apply (calculate_many self records xs qs); (done || lia).
Qed.

End BaselineTotal.

(** ** The paths of a run *)

Section RunPaths.

Variable self : TrafficMonitor.

Lemma bind_raise {A B} (c : M A) (k : A -> M B) w e w1 :
  c w = (Raise e, w1) -> (c ≫= k) w = (Raise e, w1).
Proof. intros E. unfold mbind, M_bind. by rewrite E. Qed.

Lemma try_except_raise {A} (body : M A) handles handler w e w1 :
  body w = (Raise e, w1) -> handles e = true ->
  try_except body handles handler w = handler e w1.
Proof. intros E H. unfold try_except. by rewrite E, H. Qed.

(** The detector only logs, and its verdict does not depend on the
    state of the world. *)
Lemma detect_spike_run current_data hs w :
  exists r w',
    detect_spike self current_data hs w = (Ok r, w')
    /\ quiet w w'
    /\ (forall w0, (detect_spike self current_data hs w0).1 = Ok r)
    /\ (r.1 = true -> exists st,
          hs !! "total_traffic" = Some st
          /\ Float.eqb (stdev st) (Float.of_Z 0) = false).
Proof.
  unfold detect_spike.
  destruct (hs !! "total_traffic") as [st|].
  - destruct (Float.eqb (stdev st) (Float.of_Z 0)) eqn:Z.
    + eexists _, _. split; [reflexivity|].
      split; [by repeat split|]. split; [done|]. done.
    + destruct (debug self);
        (eexists _, _; split; [reflexivity|];
         split; [by repeat split|]; split; [done|]; by exists st).
  - eexists _, _. split; [reflexivity|].
    split; [by repeat split|]. split; [done|]. done.
Qed.

Lemma send_spike_alert_spec current_data z hs st w :
  hs !! "total_traffic" = Some st ->
  exists w',
    send_spike_alert self current_data z hs w = (Ok tt, w')
    /\ same_env w w'
    /\ posted w' =
         posted w ++ [SpikeAlert (alert_data self current_data z st)]
    /\ history_file w' = history_file w.
Proof.
  intros H. unfold send_spike_alert. rewrite H.
  match goal with
  | |- context [send_to_apps_script self ?d] =>
      destruct (send_to_apps_script_spec self d w) as (w1 & E & Q & Hp & Hf)
  end.
  exists w1. unfold mbind, M_bind. rewrite E.
  split; [done|]. split; [done|]. by split.
Qed.

Lemma send_health_check_posts current_data w :
  exists w' p,
    send_health_check self current_data w = (Ok tt, w')
    /\ same_env w w' /\ posted w' = posted w ++ [p]
    /\ history_file w' = history_file w
    /\ reports self "healthy" None p
    /\ (forall h, p = HealthCheck h ->
          hc_timestamp h = timestamp current_data).
Proof.
  unfold send_health_check.
  match goal with
  | |- context [send_to_apps_script self ?d] =>
      destruct (send_to_apps_script_spec self d w) as (w1 & E & Q & Hp & Hf);
      exists (if endpoint_up w d
              then set_log (log w1 ++ [(STDOUT, "Health check sent successfully - {server_name} ({server_ip}) - {interface}")]) w1
              else set_log (log w1 ++ [(STDOUT, "Health check failed - {server_name} ({server_ip}) - {interface}")]) w1), d
  end.
  unfold mbind, M_bind. rewrite E.
  destruct Q as (?&?&?&?&?).
  destruct (endpoint_up w _); simpl;
    (split; [reflexivity|]; split; [by repeat split|];
     split; [done|]; split; [done|]; split; [by repeat split|];
     by intros ? [= <-]).
Qed.

(** What a load returns depends on the history file alone. *)
Lemma load_history_result w w0 :
  history_file w0 = history_file w ->
  (load_history self w0).1 = (load_history self w).1.
Proof.
  intros H.
  destruct (history_file w) as [| | | | |v] eqn:F.
  - by rewrite !load_history_absent.
  - by rewrite !load_history_unreadable by auto.
  - by rewrite !load_history_undecodable.
  - by rewrite !load_history_unreadable by auto.
  - by rewrite !load_history_too_deep.
  - destruct (Py.len v) as [n|e] eqn:L.
    + by rewrite !(load_history_sized self _ v n).
    + by rewrite !(load_history_unsized self _ v e).
Qed.

Lemma baseline_result w w0 :
  history_file w0 = history_file w ->
  (baseline self w0).1 = (baseline self w).1.
Proof.
  intros H. unfold baseline, mbind, M_bind.
  pose proof (load_history_result w w0 H) as E.
  destruct (load_history self w0) as [[h0|e0] w0'],
           (load_history self w) as [[h|e] w']; simpl in E;
    try discriminate; by injection E as ->.
Qed.

Lemma baseline_quiet w : quiet w (baseline self w).2.
Proof.
  unfold baseline, mbind, M_bind.
  pose proof (load_history_quiet self w) as Q.
  destruct (load_history self w) as [[h|e] w']; simpl in *; done.
Qed.

End RunPaths.

Ltac world_eqs :=
  repeat match goal with
         | H : quiet _ _ |- _ => destruct H as (? & ? & ?)
         | H : same_env _ _ |- _ => destruct H as (? & ? & ? & ? & ?)
         end;
  simpl in *.

Ltac step E := erewrite bind_ok by E; cbv beta iota.

Section RunOutcomes.

Variable self : TrafficMonitor.

(** The run that goes through: a measurement, a stored history that
    loads as a list and statistics that are computed. *)
Lemma run_check_completes w output current_data h hs r :
  vnstat w = VnstatOutput output ->
  parsed w output = Some current_data ->
  loaded_records (history_file w) = Some h ->
  calculate_historical_stats self (JArr h) = Ok hs ->
  (forall w0, (detect_spike self current_data hs w0).1 = Ok r) ->
  exists w' p,
    run_check self w = (Ok true, w')
    /\ same_env w w'
    /\ sent w w'
         ((if r.1 then
             match hs !! "total_traffic" with
             | Some st => [SpikeAlert (alert_data self current_data r.2 st)]
             | None => []
             end
           else []) ++ [p])
    /\ reports self "healthy" None p
    /\ history_file w' =
         written w (Py.last_n MAX_HISTORY
                      (h ++ [current_record current_data])).
Proof.
  intros V Hp L C D. unfold run_check, sent.
  step ltac:(apply logger_ok).
  match goal with |- context [set_log ?l w] => set (w0 := set_log l w) end.
  destruct (get_current_traffic_data_spec self w0) as (w1 & E1 & Q1).
  change (vnstat w0) with (vnstat w) in E1. rewrite V in E1.
  change (parsed w0 output) with (parsed w output) in E1. rewrite Hp in E1.
  set (w2 := set_log (log w1 ++ [(INFO, "Current traffic: {total} (RX: {rx}, TX: {tx})")]) w1).
  destruct (load_history_loaded self w2 h) as (w3 & E3 & Q3).
  { destruct Q1 as (_ & _ & F1). subst w2. simpl. by rewrite F1. }
  destruct (detect_spike_run self current_data hs w3)
    as (r' & w4 & E4 & Q4 & R4 & S4).
  assert (r' = r) as ->.
  { specialize (R4 w). rewrite D in R4. by injection R4. }
  destruct r as [is_spike z]. simpl in *.
  assert (exists w5,
    (if is_spike
     then logger WARNING "SPIKE DETECTED! Z-score: {z_score:.2f}";;
          send_spike_alert self current_data z hs
     else logger INFO "Normal traffic (z-score: {z_score:.2f})") w4
      = (Ok tt, w5)
    /\ same_env w4 w5 /\ history_file w5 = history_file w4
    /\ posted w5 = posted w4 ++
         (if is_spike then
            match hs !! "total_traffic" with
            | Some st => [SpikeAlert (alert_data self current_data z st)]
            | None => []
            end
          else [])) as (w5 & E5 & Q5 & F5 & P5).
  { destruct is_spike.
    - destruct (S4 eq_refl) as (st & Hst & _). rewrite Hst.
      match goal with
      | |- context [logger ?l ?m] =>
          destruct (send_spike_alert_spec self current_data z hs st
                      (set_log (log w4 ++ [(l, m)]) w4) Hst)
            as (w5 & E5 & Q5 & P5 & F5)
      end.
      exists w5. split; [|by world_eqs].
      step ltac:(apply logger_ok). exact E5.
    - eexists. split; [apply logger_ok|].
      split; [by repeat split|]. split; [done|].
      simpl. by rewrite app_nil_r. }
  destruct (send_health_check_posts self current_data w5)
    as (w6 & p & E6 & Q6 & P6 & F6 & R6 & _).
  assert (F : history_file w6 = history_file w).
  { rewrite F6, F5. subst w2 w0. world_eqs. congruence. }
  assert (W : forall l, written w6 l = written w l).
  { intros l. subst w2 w0. world_eqs. apply written_env; congruence. }
  destruct (add_to_history_spec self current_data w6 h)
    as (w7 & E7 & Q7 & P7 & F7); [by rewrite F|].
  eexists _, p. split; [|split; [|split; [|split; [exact R6|]]]].
  - apply try_except_ok.
    step ltac:(apply E1).
    step ltac:(apply logger_ok). fold w2.
    step ltac:(apply E3).
    step ltac:(unfold lift; rewrite C; reflexivity).
    step ltac:(apply E4).
    step ltac:(apply E5).
    step ltac:(apply E6).
    step ltac:(apply E7).
    step ltac:(apply logger_ok). reflexivity.
  - subst w2 w0. world_eqs. repeat split; simpl; congruence.
  - simpl. rewrite P7, P6, P5. subst w2 w0. world_eqs.
    rewrite <- app_assoc. congruence.
  - simpl. by rewrite F7, W.
Qed.


Lemma now_ok w : now w = (Ok (clock w (ticks w)), set_ticks (S (ticks w)) w).
Proof. reflexivity. Qed.

(** The run that obtains a measurement and then meets an exception [e]
    in the world [w1]: the handler sends one health check with the
    status ["error"] and the run reports failure. *)
Lemma run_check_handler (body : M bool) w1 e :
  exists w' p,
    (logger ERROR "Traffic check failed: {e}";;
     ts ← now;
     let error_data :=
       {| hc_type := "health_check";
          hc_timestamp := ts;
          hc_server_name := server_name self;
          hc_server_ip := server_ip self;
          hc_interface := interface self;
          hc_status := "error";
          hc_service := "traffic_monitor";
          hc_error_message := Some e |} in
     try_except (send_to_apps_script self (HealthCheck error_data))
       any_exception (fun _ => mret false);;
     mret false) w1 = (Ok false, w')
    /\ same_env w1 w' /\ posted w' = posted w1 ++ [p]
    /\ history_file w' = history_file w1
    /\ reports self "error" (Some e) p.
Proof.
  step ltac:(apply logger_ok).
  set (wa := set_log (log w1 ++ [(ERROR, "Traffic check failed: {e}")]) w1).
  step ltac:(apply now_ok). cbv zeta.
  set (wb := set_ticks (S (ticks wa)) wa).
  match goal with
  | |- context [send_to_apps_script self ?d ] =>
      destruct (send_to_apps_script_spec self d wb)
        as (w2 & E & Q & P & F)
  end.
  exists w2. eexists.
  split; [|split; [|split; [exact P|split]]].
  - step ltac:(apply try_except_ok; apply E). reflexivity.
  - world_eqs. repeat split; congruence.
  - by rewrite F.
  - by repeat split.
Qed.

(** A measurement is in hand but the baseline cannot be computed. *)
Lemma run_check_baseline_fails w output current_data e :
  vnstat w = VnstatOutput output ->
  parsed w output = Some current_data ->
  (baseline self w).1 = Raise e ->
  exists w' p,
    run_check self w = (Ok false, w')
    /\ same_env w w' /\ sent w w' [p]
    /\ reports self "error" (Some e) p
    /\ history_file w' = history_file w.
Proof.
  intros V Hp B. unfold run_check, sent.
  step ltac:(apply logger_ok).
  match goal with |- context [set_log ?l w] => set (w0 := set_log l w) end.
  destruct (get_current_traffic_data_spec self w0) as (w1 & E1 & Q1).
  change (vnstat w0) with (vnstat w) in E1. rewrite V in E1.
  change (parsed w0 output) with (parsed w output) in E1. rewrite Hp in E1.
  set (w2 := set_log (log w1 ++ [(INFO, "Current traffic: {total} (RX: {rx}, TX: {tx})")]) w1).
  assert (F2 : history_file w2 = history_file w).
  { subst w2 w0. world_eqs. congruence. }
  rewrite <- (baseline_result self w w2 F2) in B.
  pose proof (baseline_quiet self w2) as Q3.
  destruct (baseline self w2) as [r3 w3] eqn:E3. simpl in B, Q3. subst r3.
  destruct (run_check_handler (mret false) w3 e)
    as (w' & p & E & Q & P & F & R).
  exists w', p. split; [|split; [|split; [|split; [exact R|]]]].
  - erewrite try_except_raise; [exact E| |done].
    step ltac:(apply E1).
    step ltac:(apply logger_ok). fold w2.
    unfold baseline in E3. unfold mbind, M_bind in E3 |- *.
    destruct (load_history self w2) as [[v|e'] w3'].
    + unfold lift in *.
      destruct (calculate_historical_stats self v); [done|].
      by injection E3 as -> ->.
    + by injection E3 as -> ->.
  - subst w2 w0. world_eqs. repeat split; congruence.
  - rewrite P. subst w2 w0. world_eqs. congruence.
  - rewrite F. subst w2 w0. world_eqs. congruence.
Qed.


(** Appending to a stored value that is not a list. *)
Lemma add_to_history_not_list current_data w v n :
  history_file w = FileJSON v -> Py.len v = Ok n ->
  (forall l, v <> JArr l) ->
  exists w',
    add_to_history self current_data w = (Raise AttributeError, w')
    /\ quiet w w'.
Proof.
  intros F L N. unfold add_to_history.
  pose proof (load_history_quiet self w) as Q.
  pose proof (load_history_sized self w v n F L) as E.
  rewrite E in Q. eexists. split; [|exact Q].
  step ltac:(exact E). unfold mbind, M_bind, lift.
  destruct v; simpl; try done. by destruct (N l).
Qed.

(** Statistics are computed from a stored value that is not a list
    only when that value is empty. *)
Lemma calculate_not_list v hs :
  calculate_historical_stats self v = Ok hs ->
  (forall l, v <> JArr l) -> Py.truthy v = false /\ hs = ∅.
Proof.
  intros C N. unfold calculate_historical_stats in C.
  destruct (Py.truthy v) eqn:T; simpl in C; [|by injection C as <-].
  exfalso. destruct v as [|x|s|l|kv]; simpl in *; try done.
  - destruct s as [|c s]; [done|]. simpl in C. done.
  - by destruct (N l).
  - destruct kv as [|[k x] kv]; [done|]. simpl in C. done.
Qed.

(** The stored value is empty but not a list: the health check goes
    out, the append fails and a second health check reports it. *)
Lemma run_check_append_fails w output current_data v n :
  vnstat w = VnstatOutput output ->
  parsed w output = Some current_data ->
  history_file w = FileJSON v -> Py.len v = Ok n ->
  Py.truthy v = false -> (forall l, v <> JArr l) ->
  exists w' p1 p2,
    run_check self w = (Ok false, w')
    /\ same_env w w' /\ sent w w' [p1; p2]
    /\ reports self "healthy" None p1
    /\ reports self "error" (Some AttributeError) p2
    /\ history_file w' = history_file w.
Proof.
  intros V Hp Fv L T N. unfold run_check, sent.
  step ltac:(apply logger_ok).
  match goal with |- context [set_log ?l w] => set (w0 := set_log l w) end.
  destruct (get_current_traffic_data_spec self w0) as (w1 & E1 & Q1).
  change (vnstat w0) with (vnstat w) in E1. rewrite V in E1.
  change (parsed w0 output) with (parsed w output) in E1. rewrite Hp in E1.
  set (w2 := set_log (log w1 ++ [(INFO, "Current traffic: {total} (RX: {rx}, TX: {tx})")]) w1).
  assert (F2 : history_file w2 = FileJSON v).
  { subst w2 w0. world_eqs. congruence. }
  pose proof (load_history_quiet self w2) as Q3.
  pose proof (load_history_sized self w2 v n F2 L) as E3.
  rewrite E3 in Q3. simpl in Q3.
  match type of E3 with _ = (_, ?w) => set (w3 := w) in * end.
  assert (C : calculate_historical_stats self v = Ok ∅).
  { unfold calculate_historical_stats. by rewrite T. }
  destruct (detect_spike_run self current_data ∅ w3)
    as (r & w4 & E4 & Q4 & R4 & _).
  assert (r = (false, Float.zero)) as ->.
  { specialize (R4 w).
    rewrite (detect_spike_no_baseline self current_data ∅ w) in R4 by done.
    by injection R4. }
  set (w5 := set_log (log w4 ++ [(INFO, "Normal traffic (z-score: {z_score:.2f})")]) w4).
  destruct (send_health_check_posts self current_data w5)
    as (w6 & p1 & E6 & Q6 & P6 & F6 & R6 & _).
  assert (F : history_file w6 = FileJSON v).
  { rewrite F6. subst w5 w3 w2 w0. world_eqs. congruence. }
  destruct (add_to_history_not_list current_data w6 v n F L N)
    as (w7 & E7 & Q7).
  destruct (run_check_handler (mret false) w7 AttributeError)
    as (w' & p2 & E & Q & P & F' & R).
  exists w', p1, p2.
  split; [|split; [|split; [|split; [exact R6|split; [exact R|]]]]].
  - erewrite try_except_raise; [exact E| |done].
    step ltac:(apply E1).
    step ltac:(apply logger_ok). fold w2.
    step ltac:(apply E3).
    step ltac:(unfold lift; rewrite C; reflexivity).
    step ltac:(apply E4).
    step ltac:(apply logger_ok). fold w5.
    step ltac:(apply E6).
    by apply bind_raise.
  - subst w5 w3 w2 w0. world_eqs. repeat split; congruence.
  - rewrite P. subst w5 w3 w2 w0. world_eqs.
    replace (posted w7) with (posted w ++ [p1]) by congruence.
    by rewrite <- app_assoc.
  - rewrite F'. subst w5 w3 w2 w0. world_eqs. congruence.
Qed.


Lemma parsed_none w output :
  parsed w output = None -> omap line_measurement (lines output) = [].
Proof.
  unfold parsed. destruct (last _) eqn:E; [done|].
  intros _. by apply last_None.
Qed.

(** What a load returns. *)
Lemma load_history_cases w :
  (exists e w', load_history self w = (Raise e, w'))
  \/ (exists h w', loaded_records (history_file w) = Some h
                   /\ load_history self w = (Ok (JArr h), w'))
  \/ (exists v n w', history_file w = FileJSON v /\ Py.len v = Ok n
                     /\ (forall l, v <> JArr l)
                     /\ load_history self w = (Ok v, w')).
Proof.
  destruct (history_file w) as [| | | | |v] eqn:F.
  - right; left. exists []. eexists. split; [done|].
    by apply load_history_absent.
  - right; left. exists []. eexists. split; [done|].
    apply load_history_unreadable; auto.
  - left. eexists _, _. by apply load_history_undecodable.
  - right; left. exists []. eexists. split; [done|].
    apply load_history_unreadable; auto.
  - left. eexists _, _. by apply load_history_too_deep.
  - destruct (Py.len v) as [n|e] eqn:L.
    + destruct v as [|x|s|l|kv]; try discriminate.
      * right; right. exists (JStr s), n. eexists.
        split; [done|]. split; [done|]. split; [done|].
        by eapply load_history_sized.
      * right; left. exists l. eexists. split; [done|].
        by eapply load_history_sized.
      * right; right. exists (JObj kv), n. eexists.
        split; [done|]. split; [done|]. split; [done|].
        by eapply load_history_sized.
    + left. eexists _, _. by eapply load_history_unsized.
Qed.

(** The four ways a run can end. *)
Lemma run_check_cases w :
  exists b w' new,
    run_check self w = (Ok b, w') /\ same_env w w' /\ sent w w' new
    /\ ((b = false /\ new = [] /\ history_file w' = history_file w)
        \/ (b = false /\ history_file w' = history_file w
            /\ exists p e, new = [p] /\ reports self "error" (Some e) p)
        \/ (b = false /\ history_file w' = history_file w
            /\ loaded_records (history_file w) = None
            /\ exists p1 p2,
                 new = [p1; p2] /\ reports self "healthy" None p1
                 /\ reports self "error" (Some AttributeError) p2)
        \/ (b = true
            /\ exists current_data h hs r p,
                 loaded_records (history_file w) = Some h
                 /\ calculate_historical_stats self (JArr h) = Ok hs
                 /\ (forall w0,
                       (detect_spike self current_data hs w0).1 = Ok r)
                 /\ new =
                      (if r.1 then
                         match hs !! "total_traffic" with
                         | Some st =>
                             [SpikeAlert
                                (alert_data self current_data r.2 st)]
                         | None => []
                         end
                       else []) ++ [p]
                 /\ reports self "healthy" None p
                 /\ history_file w' =
                      written w
                        (Py.last_n MAX_HISTORY
                           (h ++ [current_record current_data])))).
Proof.
  assert (N : (match vnstat w with
               | VnstatOutput output =>
                   omap line_measurement (lines output) = []
               | _ => True
               end)
              \/ exists output current_data,
                   vnstat w = VnstatOutput output
                   /\ parsed w output = Some current_data).
  { destruct (vnstat w) as [output| | |]; auto.
    destruct (parsed w output) as [current_data|] eqn:Hp.
    - right. by exists output, current_data.
    - left. by apply parsed_none in Hp. }
  destruct N as [N|(output & current_data & V & Hp)].
  { destruct (run_check_no_measurement self w N) as (w' & E & P & F).
    exists false, w', []. split; [done|].
    split; [|split; [unfold sent; by rewrite app_nil_r|by left]].
    pose proof (triple_run_check self w) as [[Q _] _].
    by rewrite E in Q. }
  destruct (baseline self w) as [[hs|e] wb] eqn:B.
  2:{ destruct (run_check_baseline_fails w output current_data e V Hp)
        as (w' & p & E & Q & S & R & F); [by rewrite B|].
      exists false, w', [p]. split; [done|]. split; [done|].
      split; [done|]. right; left. split; [done|]. split; [done|].
      by exists p, e. }
  unfold baseline in B. unfold mbind, M_bind, lift in B.
  destruct (load_history_cases w)
    as [(e & w1 & E)|[(h & w1 & L & E)|(v & n & w1 & F & Ln & Nl & E)]];
    rewrite E in B; [done| |].
  - injection B as C _.
    destruct (detect_spike_run self current_data hs w)
      as (r & _ & _ & _ & R & _).
    destruct (run_check_completes w output current_data h hs r V Hp L C R)
      as (w' & p & E' & Q & S & Rp & F).
    exists true, w'. eexists. split; [done|]. split; [done|].
    split; [exact S|]. right; right; right. split; [done|].
    by exists current_data, h, hs, r, p.
  - injection B as C _.
    destruct (calculate_not_list v hs C Nl) as [T _].
    destruct (run_check_append_fails w output current_data v n
                V Hp F Ln T Nl)
      as (w' & p1 & p2 & E' & Q & S & R1 & R2 & F').
    exists false, w', [p1; p2]. split; [done|]. split; [done|].
    split; [done|]. right; right; left.
    split; [done|]. split; [done|]. split.
    + rewrite F. destruct v; try done. by destruct (Nl l).
    + by exists p1, p2.
Qed.

End RunOutcomes.

(** ** Rate converter: the pattern *)

Lemma starts_with_app p rest : Str.starts_with p (p +:+ rest) = true.
Proof.
  induction p as [|c p IH]; [done|]. sapp. simpl.
  by rewrite bool_decide_true.
Qed.

Lemma starts_with_split p s :
  Str.starts_with p s = true -> exists rest, s = p +:+ rest.
Proof.
  revert s. induction p as [|c p IH]; intros s H.
  - exists s. by sapp.
  - destruct s as [|b s]; [done|]. simpl in H.
    apply andb_prop in H as [Hc H]. apply bool_decide_eq_true in Hc as ->.
    destruct (IH s H) as [rest ->]. exists rest. by sapp.
Qed.

Lemma contains_app a p rest : Str.contains p (a +:+ p +:+ rest) = true.
Proof.
  induction a as [|c a IH].
  - sapp. destruct (p +:+ rest) eqn:E; simpl;
      rewrite <- E, starts_with_app; done.
  - sapp. simpl. rewrite IH. apply orb_true_r.
Qed.

Lemma rate_unit_cases u :
  is_Some (rate_unit u) ->
  u = "" \/ u = "k" \/ u = "m" \/ u = "g" \/ u = "t".
Proof.
  unfold rate_unit. repeat case_bool_decide; try tauto.
  by intros [? ?].
Qed.

Lemma space_not_kmgt c : Str.is_space c = true -> Re.is_kmgt c = false.
Proof. destruct c as [[] [] [] [] [] [] [] []]; by vm_compute. Qed.

Lemma opt_blank p ws r :
  (forall c, Str.is_space c = true -> p c = false) ->
  blanks ws -> ws <> "" -> Re.opt p (ws +:+ r) = ("", ws +:+ r).
Proof.
  intros Hp Hws Hne. destruct ws as [|c ws]; [done|].
  sapp. simpl. unfold blanks in Hws. simpl in Hws.
  apply andb_prop in Hws as [Hc _]. by rewrite (Hp c Hc).
Qed.

(** The scanner finds every text of the shape the pattern describes. *)
Lemma match_rate_complete mag ws1 u ws2 rest :
  number_token mag -> blanks ws1 -> blanks ws2 ->
  is_Some (rate_unit u) ->
  Re.match_rate (mag +:+ ws1 +:+ u +:+ ws2 +:+ "bit/s" +:+ rest) =
    Some (mag, if bool_decide (u = "") then None else Some u).
Proof.
  intros [Hne Hmag] Hws1 Hws2 Hu. unfold Re.match_rate.
  assert (B : stops Str.is_space ("bit/s" +:+ rest)) by by sapp.
  assert (S0 : stops Str.is_digit_or_dot (ws2 +:+ "bit/s" +:+ rest)).
  { apply stops_blanks_unit; [apply space_not_digit_or_dot|by sapp|done]. }
  assert (S1 : stops Str.is_digit_or_dot
                 (ws1 +:+ u +:+ ws2 +:+ "bit/s" +:+ rest)).
  { destruct ws1 as [|c ws1].
    - sapp. apply rate_unit_cases in Hu.
      repeat destruct Hu as [->|Hu]; try subst u; by sapp.
    - sapp. simpl. apply space_not_digit_or_dot.
      unfold blanks in Hws1. simpl in Hws1.
      by apply andb_prop in Hws1 as [? _]. }
  rewrite take_while_app, drop_while_app by done.
  rewrite bool_decide_false by done.
  apply rate_unit_cases in Hu.
  destruct Hu as [->|Hu].
  - rewrite (append_nil_l (ws2 +:+ "bit/s" +:+ rest)).
    rewrite bool_decide_true by done.
    assert (Hall : all_chars Str.is_space (ws1 +:+ ws2) = true).
    { rewrite all_chars_app. unfold blanks in *. by rewrite Hws1, Hws2. }
    assert (ws1 +:+ ws2 +:+ "bit/s" +:+ rest
            = (ws1 +:+ ws2) +:+ "bit/s" +:+ rest) as ->.
    { clear. induction ws1 as [|c ws1 IH]; [done|].
      rewrite !append_cons. by f_equal. }
    rewrite drop_while_app by done.
    sapp. by simpl.
  - assert (S2 : stops Str.is_space
                   (u +:+ ws2 +:+ "bit/s" +:+ rest)).
    { repeat destruct Hu as [->|Hu]; try subst u; by sapp. }
    rewrite drop_while_app by done.
    assert (Hopt : Re.opt Re.is_kmgt (u +:+ ws2 +:+ "bit/s" +:+ rest)
                   = (u, ws2 +:+ "bit/s" +:+ rest)).
    { repeat destruct Hu as [->|Hu]; try subst u; by sapp. }
    rewrite Hopt. rewrite drop_while_app by done.
    rewrite starts_with_app.
    repeat destruct Hu as [->|Hu]; try subst u; done.
Qed.

Lemma contains_prefix p s : Str.starts_with p s = true -> Str.contains p s = true.
Proof. intros H. destruct s; simpl in *; by rewrite H. Qed.

Lemma contains_later p a s :
  Str.contains p s = true -> Str.contains p (a +:+ s) = true.
Proof.
  intros H. induction a as [|c a IH]; [done|].
  sapp. simpl. rewrite IH. apply orb_true_r.
Qed.

(** Whatever the scanner accepts has the shape the pattern describes. *)
Lemma match_rate_sound t g g2 :
  Re.match_rate t = Some (g, g2) ->
  exists ws1 ws2 rest,
    t = g +:+ ws1 +:+ default "" g2 +:+ ws2 +:+ "bit/s" +:+ rest
    /\ number_token g /\ blanks ws1 /\ blanks ws2
    /\ is_Some (rate_unit (default "" g2)).
Proof.
  unfold Re.match_rate. case_bool_decide as Hg; [done|].
  set (r0 := Str.drop_while Str.is_digit_or_dot t).
  pose proof (opt_spec Re.is_kmgt (Str.drop_while Str.is_space r0)) as H1.
  destruct (Re.opt Re.is_kmgt _) as [u r1]. destruct H1 as [E1 Hu].
  cbv zeta.
  destruct (Str.starts_with "bit/s" _) eqn:Hs; [|done].
  apply starts_with_split in Hs as [rest Hr]. intros [= <- <-].
  assert (D : default "" (if bool_decide (u = "") then None else Some u) = u).
  { case_bool_decide; by subst. }
  rewrite D.
  exists (Str.take_while Str.is_space r0),
         (Str.take_while Str.is_space r1), rest.
  split_and!.
  - rewrite <- (take_drop_while Str.is_digit_or_dot t) at 1. f_equal.
    fold r0. rewrite <- (take_drop_while Str.is_space r0) at 1. f_equal.
    rewrite E1. f_equal.
    rewrite <- (take_drop_while Str.is_space r1) at 1. by f_equal.
  - split; [done|apply all_chars_take_while].
  - apply all_chars_take_while.
  - apply all_chars_take_while.
  - destruct Hu as [->|(c & -> & Hc)]; [by eexists|].
    unfold Re.is_kmgt in Hc.
    repeat (apply orb_prop in Hc as [Hc|Hc]);
      apply bool_decide_eq_true in Hc as ->; by eexists.
Qed.

Lemma match_rate_none t : ~ rate_text t -> Re.match_rate t = None.
Proof.
  intros H. destruct (Re.match_rate t) as [[g g2]|] eqn:E; [|done].
  destruct H.
  apply match_rate_sound in E as (ws1 & ws2 & rest & ? & ? & ? & ? & ?).
  by exists g, ws1, (default "" g2), ws2, rest.
Qed.

Lemma convert_rate_scaled s mag ws1 u ws2 rest k :
  Str.lower (Str.strip s) = mag +:+ ws1 +:+ u +:+ ws2 +:+ "bit/s" +:+ rest ->
  number_token mag -> blanks ws1 -> blanks ws2 -> rate_unit u = Some k ->
  convert_rate_to_bps s =
    rbind (py_float mag)
          (fun v => Ok (Float.mul v (Float.of_Z (1000 ^ k)))).
Proof.
  intros Ht Hmag Hws1 Hws2 Hu. unfold convert_rate_to_bps.
  rewrite Ht.
  assert (Str.contains "bit/s"
            (mag +:+ ws1 +:+ u +:+ ws2 +:+ "bit/s" +:+ rest) = true) as ->.
  { do 4 apply contains_later. apply contains_prefix, starts_with_app. }
  rewrite match_rate_complete by (done || by rewrite Hu).
  unfold rate_unit in Hu.
  repeat case_bool_decide; try done; subst; by injection Hu as <-.
Qed.

Lemma convert_rate_zero s :
  ~ rate_text (Str.lower (Str.strip s)) ->
  convert_rate_to_bps s = Ok Float.zero.
Proof.
  intros H. unfold convert_rate_to_bps. rewrite match_rate_none by done.
  by destruct (Str.contains _ _).
Qed.

(** ** Histories that cannot give a baseline, or only a flat one *)

Section Histories.

Variable self : TrafficMonitor.

(** With fewer than two stored records the detector has nothing to
    compare with. *)
Lemma no_spike_on_short_history current_data h hs r :
  (length h <= 1)%nat ->
  calculate_historical_stats self (JArr h) = Ok hs ->
  (forall w0, (detect_spike self current_data hs w0).1 = Ok r) ->
  r.1 = false.
Proof.
  intros Hn C D.
  pose (w0 := sample_world VnstatFileNotFound FileAbsent).
  specialize (D w0).
  destruct h as [|x [|y h]]; [| |simpl in Hn; lia].
  - injection C as <-.
    rewrite (detect_spike_no_baseline self current_data ∅ w0) in D by done.
    by injection D as <-.
  - unfold calculate_historical_stats in C. simpl in C.
    destruct (Py.getitem x "total_bytes") as [v|]; simpl in C; [|done].
    destruct (statistics.mean [v]) as [m|]; simpl in C; [|done].
    injection C as <-.
    erewrite detect_spike_flat in D;
      [by injection D as <-|apply lookup_singleton_eq|done].
Qed.

(** The count of a baseline is the number of stored records it was
    computed from. *)
Lemma calculate_count h hs st :
  calculate_historical_stats self (JArr h) = Ok hs ->
  hs !! "total_traffic" = Some st -> count st = length h.
Proof.
  unfold calculate_historical_stats.
  destruct (Py.truthy (JArr h)); simpl; [|by intros [= <-]].
  destruct (total_bytes_of h) as [l|] eqn:Ht; simpl; [|done].
  destruct (statistics.mean l) as [m|]; simpl; [|done].
  destruct (if Nat.ltb 1 (length l) then statistics.stdev l else _)
    as [s|]; simpl; [|done].
  intros [= <-]. rewrite lookup_singleton_eq. intros [= <-]. simpl.
  by apply total_bytes_of_length.
Qed.

End Histories.

(** ** Formatting: the ladder of binary units *)

Lemma of_Z_1024 :
  Float.of_Z 1024 = S754_finite false 4503599627370496 (-42).
Proof. reflexivity. Qed.

Lemma normal_mantissa m :
  digits2_pos m = 53%positive -> 2 ^ 52 <= Zpos m < 2 ^ 53.
Proof.
  intros H. pose proof (Zdigits2_log2 m) as L.
  change (Zdigits2 (Zpos m)) with (Zpos (digits2_pos m)) in L.
  rewrite H in L.
  pose proof (Z.log2_spec (Zpos m) ltac:(lia)) as [Hlo Hhi].
  replace (Z.log2 (Zpos m)) with 52 in * by lia. split; [done|].
  exact Hhi.
Qed.

(** A canonical mantissa is normal unless the exponent is the least. *)
Lemma valid_normal s m e :
  valid_binary Float.prec Float.emax (S754_finite s m e) = true ->
  e <= 971 /\ (digits2_pos m = 53%positive \/ e = -1074).
Proof.
  simpl. unfold bounded, canonical_mantissa.
  intros [Hc He]%andb_prop.
  apply Z.eqb_eq in Hc. apply Z.leb_le in He. rewrite fexp_eq in Hc.
  change (Float.emax - Float.prec) with 971 in He. split; [done|].
  destruct (Z.eq_dec e (-1074)); [by right|left]. lia.
Qed.

Lemma ltb_1024 m e :
  digits2_pos m = 53%positive \/ e = -1074 ->
  Float.ltb (S754_finite false m e) (Float.of_Z 1024) = (e <? -42).
Proof.
  intros H. rewrite of_Z_1024.
  remember 4503599627370496%positive as p eqn:Ep.
  unfold Float.ltb, SFltb, SFcompare.
  destruct (Z.compare_spec e (-42)) as [->|Hlt|Hgt].
  - destruct H as [H|]; [|done].
    apply normal_mantissa in H as [Hlo _].
    destruct (Pos.compare_cont Eq m p) eqn:C; try done.
    assert (C' : (m ?= p)%positive = Lt) by exact C.
    rewrite Pos.compare_lt_iff in C'. lia.
  - symmetry. by apply Z.ltb_lt.
  - symmetry. apply Z.ltb_ge. lia.
Qed.

(** Dividing a normal double by 1024 only moves its exponent. *)
Lemma div_1024 s m e :
  digits2_pos m = 53%positive -> -1063 <= e <= 981 ->
  Float.div (S754_finite s m e) (Float.of_Z 1024) = S754_finite s m (e - 10).
Proof.
  intros Hd He. rewrite of_Z_1024. unfold Float.div, SFdiv.
  assert (C : SFdiv_core_binary Float.prec Float.emax (Zpos m) e
                4503599627370496 (-42) = (Zpos m~0, e - 11, loc_Exact)).
  { unfold SFdiv_core_binary.
    change (Zdigits2 (Zpos m)) with (Zpos (digits2_pos m)). rewrite Hd.
    change (Zdigits2 4503599627370496) with 53.
    rewrite fexp_eq.
    replace (Z.min (Z.max (53 + e - (53 + -42) - 53) (-1074)) (e - -42))
      with (e - 11) by lia.
    replace (e - -42 - (e - 11)) with 53 by lia.
    cbv iota. rewrite Z.shiftl_mul_pow2 by lia.
    assert (Z.div_eucl (Zpos m * 2 ^ 53) 4503599627370496
            = (Zpos m~0, 0)) as ->; [|done].
    pose proof (Z_div_mod (Zpos m * 2 ^ 53) 4503599627370496 eq_refl) as D.
    destruct (Z.div_eucl _ _) as [q r]. destruct D as [D1 D2].
    change (2 ^ 53) with (2 * 4503599627370496) in D1.
    assert (q = Zpos m~0 /\ r = 0) as [-> ->] by lia. done. }
  rewrite C. unfold binary_round_aux, shr_fexp.
  change (Zdigits2 (Zpos m~0)) with (Zpos (Pos.succ (digits2_pos m))).
  rewrite Hd. rewrite fexp_eq.
  replace (Z.max (Zpos (Pos.succ 53) + (e - 11) - 53) (-1074) - (e - 11))
    with 1 by lia.
  cbn [shr shr_record_of_loc SpecFloat.iter_pos shr_1 orb
       loc_of_shr_record shr_m shr_r shr_s round_nearest_even].
  change (Zdigits2 (Zpos m)) with (Zpos (digits2_pos m)). rewrite Hd.
  rewrite fexp_eq.
  replace (Z.max (53 + (e - 11 + 1) - 53) (-1074) - (e - 11 + 1))
    with 0 by lia.
  cbn [shr shr_m].
  change (Float.emax - Float.prec) with 971.
  destruct (Z.leb_spec (e - 11 + 1) 971); [|lia].
  replace (e - 11 + 1) with (e - 10) by lia. by destruct s.
Qed.

(** [format_bytes] on a positive double [m * 2^e]: the unit is the one
    of index [floor(log2(x) / 10)], at most 5, and the number shown is
    the value divided by that power of 1024, exactly. *)
Lemma format_bytes_ladder self m e :
  valid_binary Float.prec Float.emax (S754_finite false m e) = true ->
  format_bytes self (S754_finite false m e) =
    let k := Z.min 5 (Z.max 0 ((e + 52) / 10)) in
    Py.format_2f (S754_finite false m (e - 10 * k)) +:+ " "
    +:+ nth (Z.to_nat k) ["B"; "KiB"; "MiB"; "GiB"; "TiB"; "PiB"] "".
Proof.
  intros [He Hn]%valid_normal. unfold format_bytes. cbv zeta.
  cbn [format_loop]. rewrite ltb_1024 by done.
  destruct (Z.ltb_spec e (-42)).
  { replace (Z.min 5 (Z.max 0 ((e + 52) / 10))) with 0
      by (Z.div_mod_to_equations; lia).
    by replace (e - 10 * 0) with e by lia. }
  destruct Hn as [Hn|]; [|lia].
  rewrite div_1024 by (done || lia). rewrite ltb_1024 by auto.
  destruct (Z.ltb_spec (e - 10) (-42)).
  { replace (Z.min 5 (Z.max 0 ((e + 52) / 10))) with 1
      by (Z.div_mod_to_equations; lia).
    by replace (e - 10 * 1) with (e - 10) by lia. }
  rewrite div_1024 by (done || lia). rewrite ltb_1024 by auto.
  destruct (Z.ltb_spec (e - 10 - 10) (-42)).
  { replace (Z.min 5 (Z.max 0 ((e + 52) / 10))) with 2
      by (Z.div_mod_to_equations; lia).
    by replace (e - 10 * 2) with (e - 10 - 10) by lia. }
  rewrite div_1024 by (done || lia). rewrite ltb_1024 by auto.
  destruct (Z.ltb_spec (e - 10 - 10 - 10) (-42)).
  { replace (Z.min 5 (Z.max 0 ((e + 52) / 10))) with 3
      by (Z.div_mod_to_equations; lia).
    by replace (e - 10 * 3) with (e - 10 - 10 - 10) by lia. }
  rewrite div_1024 by (done || lia). rewrite ltb_1024 by auto.
  destruct (Z.ltb_spec (e - 10 - 10 - 10 - 10) (-42)).
  { replace (Z.min 5 (Z.max 0 ((e + 52) / 10))) with 4
      by (Z.div_mod_to_equations; lia).
    by replace (e - 10 * 4) with (e - 10 - 10 - 10 - 10) by lia. }
  rewrite div_1024 by (done || lia).
  replace (Z.min 5 (Z.max 0 ((e + 52) / 10))) with 5
      by (Z.div_mod_to_equations; lia).
  by replace (e - 10 * 5) with (e - 10 - 10 - 10 - 10 - 10) by lia.
Qed.


(** ** Construction and the time label *)

Lemma last_given_snoc values a :
  last_given (values ++ [a]) =
    if given a then a else last_given values.
Proof.
  unfold last_given. rewrite filter_app.
  destruct (given a) eqn:G.
  - rewrite filter_cons_True, filter_nil by done. by rewrite last_snoc.
  - rewrite filter_cons_False, filter_nil by (by rewrite G).
    by rewrite app_nil_r.
Qed.

Lemma given_default a : given a = true -> a = Some (default "" a).
Proof. by destruct a. Qed.

(** A time label is two digits, a colon and two digits. *)
Lemma search_time_label s lbl :
  Re.search_time s = Some lbl ->
  exists a b c d,
    lbl = String a (String b (String ":" (String c (String d ""))))
    /\ Str.is_digit a = true /\ Str.is_digit b = true
    /\ Str.is_digit c = true /\ Str.is_digit d = true.
Proof.
  induction s as [|x s IH]; [done|].
  cbn [Re.search_time].
  destruct (Re.time_label (String x s)) as [[l rest]|] eqn:E.
  - intros [= <-]. unfold Re.time_label in E.
    destruct s as [|b [|c [|d [|e rest']]]]; try done.
    destruct (Str.is_digit x) eqn:Hx; [|done].
    destruct (Str.is_digit b) eqn:Hb; [|done].
    case_bool_decide as Hc; [|done]. subst c.
    destruct (Str.is_digit d) eqn:Hd; [|done].
    destruct (Str.is_digit e) eqn:He; [|done].
    simpl in E. injection E as <- _. by exists x, b, d, e.
  - apply IH.
Qed.

Lemma line_measurement_label line f ts :
  line_measurement line = Some f ->
  timestamp (f ts) = ts
  /\ Re.search_time (Str.strip (default "" (head (fields line))))
     = Some (time (f ts)).
Proof.
  unfold line_measurement.
  destruct (structurally_parses line); [|done].
  destruct (fields line) as [|p0 [|p1 [|p2 [|p3 rest]]]]; try done.
  destruct (Re.search_time (Str.strip p0)) as [lbl|] eqn:E; [|done].
  destruct (convert_to_bytes _); [|done].
  destruct (convert_to_bytes _); [|done].
  destruct (convert_to_bytes _); [|done].
  destruct (convert_rate_to_bps _); [|done].
  intros [= <-]. split; [done|]. simpl. by rewrite E.
Qed.

Lemma parsed_label w output current_data :
  parsed w output = Some current_data ->
  (exists n, (ticks w <= n)%nat /\ timestamp current_data = clock w n)
  /\ exists line,
       line ∈ lines output
       /\ Re.search_time (Str.strip (default "" (head (fields line))))
          = Some (time current_data).
Proof.
  unfold parsed.
  destruct (last _) as [f|] eqn:L; [|done]. intros [= <-].
  apply last_Some_elem_of in L.
  apply list_elem_of_omap in L as (line & Hin & Hf).
  destruct (line_measurement_label line f
              (clock w (ticks w + length (omap line_measurement (lines output)) - 1))
              Hf) as [Ht Hl].
  split.
  - eexists. split; [|exact Ht].
    assert (omap line_measurement (lines output) <> []).
    { intros E.
      assert (f ∈ omap line_measurement (lines output)) as Hin'
        by (apply list_elem_of_omap; eauto).
      rewrite E in Hin'. by apply elem_of_nil in Hin'. }
    destruct (omap line_measurement (lines output)); [done|]. simpl. lia.
  - by exists line.
Qed.

(** ** Reading a formatted quantity back *)

Lemma digits_value_app a b : forall acc,
  Str.digits_value acc (a +:+ b) = Str.digits_value (Str.digits_value acc a) b.
Proof.
  induction a as [|c a IH]; intros acc; [done|].
  sapp. simpl. apply IH.
Qed.

Lemma of_uint_acc_digits d : forall acc,
  Zpos (Pos.of_uint_acc d acc) =
    Str.digits_value (Zpos acc) (NilEmpty.string_of_uint d).
Proof.
  induction d as [|d IH|d IH|d IH|d IH|d IH|d IH|d IH|d IH|d IH|d IH];
    intros acc; [done|..];
    cbn [Pos.of_uint_acc NilEmpty.string_of_uint Str.digits_value];
    rewrite IH; f_equal; unfold Str.code; simpl; lia.
Qed.

Lemma of_uint_digits d :
  Z.of_N (Pos.of_uint d) = Str.digits_value 0 (NilEmpty.string_of_uint d).
Proof.
  induction d as [|d IH|d IH|d IH|d IH|d IH|d IH|d IH|d IH|d IH|d IH];
    [done|exact IH|..];
    cbn [Pos.of_uint NilEmpty.string_of_uint Str.digits_value Z.of_N];
    by rewrite of_uint_acc_digits.
Qed.

Lemma uint_digits d :
  all_chars Str.is_digit (NilEmpty.string_of_uint d) = true.
Proof.
  induction d as [|d IH|d IH|d IH|d IH|d IH|d IH|d IH|d IH|d IH|d IH];
    [done|..]; simpl; exact IH.
Qed.

(** The decimal numeral of a natural number is made of digits and
    denotes that number. *)
Lemma decimal_spec n :
  0 <= n ->
  all_chars Str.is_digit (Py.decimal n) = true
  /\ Py.decimal n <> ""
  /\ Str.digits_value 0 (Py.decimal n) = n.
Proof.
  intros Hn. unfold Py.decimal, NilZero.string_of_uint.
  pose proof (DecimalN.Unsigned.of_to (Z.to_N n)) as R.
  unfold N.of_uint in R.
  destruct (N.to_uint (Z.to_N n)) as [|d|d|d|d|d|d|d|d|d|d] eqn:E;
    (split; [first [done|apply (uint_digits (_ d))]|]);
    (split; [done|]);
    try (rewrite <- of_uint_digits, R; lia).
  simpl in R. change (Str.digits_value 0 "0") with 0. lia.
Qed.

Lemma digit_not_space c : Str.is_digit c = true -> Str.is_space c = false.
Proof. destruct c as [[] [] [] [] [] [] [] []]; by vm_compute. Qed.

Lemma lower_digit_or_dot c :
  Str.is_digit_or_dot c = true -> Str.lower_char c = c.
Proof. destruct c as [[] [] [] [] [] [] [] []]; by vm_compute. Qed.

Lemma lower_app a b : Str.lower (a +:+ b) = Str.lower a +:+ Str.lower b.
Proof. induction a as [|c a IH]; [done|]. sapp. simpl. by rewrite IH. Qed.

Lemma lower_number s :
  all_chars Str.is_digit_or_dot s = true -> Str.lower s = s.
Proof.
  induction s as [|c s IH]; [done|]. simpl.
  intros [Hc Hs]%andb_prop. by rewrite lower_digit_or_dot, IH.
Qed.

Lemma rstrip_app a u :
  Str.rstrip u = u -> u <> "" -> Str.rstrip (a +:+ u) = a +:+ u.
Proof.
  intros Hu Hne. induction a as [|c a IH]; [done|].
  sapp. simpl. rewrite IH.
  destruct (a +:+ u) eqn:E; [|done].
  destruct a; [by sapp; subst|done].
Qed.

(** The last two digits of a number shown with two decimals. *)
Lemma two_decimals r :
  0 <= r < 100 ->
  let t := (if r <? 10 then "0" else "") +:+ Py.decimal r in
  all_chars Str.is_digit t = true /\ String.length t = 2%nat
  /\ forall acc, Str.digits_value acc t = 100 * acc + r.
Proof.
  intros Hr.
  assert (H : r ∈ seqZ 0 100) by (apply elem_of_seqZ; lia).
  vm_compute in H.
  repeat (apply elem_of_cons in H as [->|H]);
    try (by apply elem_of_nil in H);
    (split; [reflexivity|split; [reflexivity|]]);
    intros acc; vm_compute Py.decimal; sapp;
    cbn [Str.digits_value]; unfold Str.code; simpl; lia.
Qed.

Lemma round_half_even_nonneg a b :
  0 <= a -> 0 < b -> 0 <= Py.round_half_even a b.
Proof.
  intros Ha Hb. unfold Py.round_half_even.
  pose proof (Z.div_pos a b Ha Hb).
  destruct (_ ?= _); [destruct (Z.even _)| |]; lia.
Qed.

Lemma hundredths_nonneg m e : 0 <= Py.hundredths m e.
Proof.
  unfold Py.hundredths. destruct e as [|p|p].
  - lia.
  - assert (0 < 2 ^ Zpos p) by (apply Z.pow_pos_nonneg; lia). nia.
  - apply round_half_even_nonneg; [lia|apply Z.pow_pos_nonneg; lia].
Qed.

(** A number shown with two decimals: digits, a point, two digits. *)
Lemma fixed2_shape n :
  0 <= n ->
  exists whole frac,
    Py.fixed2 false n = whole +:+ "." +:+ frac
    /\ all_chars Str.is_digit whole = true /\ whole <> ""
    /\ all_chars Str.is_digit frac = true /\ String.length frac = 2%nat
    /\ Str.digits_value 0 (whole +:+ frac) = n.
Proof.
  intros Hn. unfold Py.fixed2. sapp.
  assert (Hq : 0 <= n / 100) by (apply Z.div_pos; lia).
  pose proof (Z.mod_pos_bound n 100 ltac:(lia)) as Hr.
  destruct (decimal_spec (n / 100) Hq) as (D1 & N1 & V1).
  destruct (two_decimals (n mod 100) Hr) as (D2 & L2 & V2).
  eexists _, _. split; [reflexivity|]. split_and!; try done.
  rewrite digits_value_app, V1, V2.
  pose proof (Z.div_mod n 100 ltac:(lia)). lia.
Qed.

Lemma fixed2_number n :
  0 <= n -> number_token (Py.fixed2 false n).
Proof.
  intros Hn.
  destruct (fixed2_shape n Hn) as (whole & frac & -> & D1 & N1 & D2 & _).
  split.
  - destruct whole; [done|]. by sapp.
  - rewrite !all_chars_app. rewrite (all_digits_weaken whole D1).
    by rewrite (all_digits_weaken frac D2).
Qed.

(** [float] reads a number shown with two decimals as that many
    hundredths. *)
Lemma py_float_fixed2 n :
  0 <= n -> py_float (Py.fixed2 false n) = Ok (Float.of_ratio false n 100).
Proof.
  intros Hn.
  destruct (fixed2_shape n Hn)
    as (whole & frac & -> & D1 & N1 & D2 & L2 & V).
  unfold py_float.
  assert (S : stops Str.is_digit ("." +:+ frac)) by by sapp.
  rewrite take_while_app, drop_while_app by done.
  sapp. rewrite bool_decide_true by done.
  rewrite (all_drop_while _ _ D2).
  rewrite bool_decide_true by done.
  rewrite (bool_decide_false (whole = "")) by done. simpl.
  by rewrite V, L2.
Qed.

(** The text [format_bytes] produces, as the converter scans it. *)
Lemma stripped_quantity mag u :
  number_token mag -> Str.rstrip u = u -> u <> "" ->
  Str.lower (Str.strip (mag +:+ " " +:+ u)) = mag +:+ " " +:+ Str.lower u.
Proof.
  intros [Hne Hmag] Hu Hune. unfold Str.strip, Str.lstrip.
  assert (Str.drop_while Str.is_space (mag +:+ " " +:+ u)
          = mag +:+ " " +:+ u) as ->.
  { destruct mag as [|c mag]; [done|]. sapp. simpl.
    simpl in Hmag. apply andb_prop in Hmag as [Hc _].
    assert (Str.is_space c = false) as ->; [|done].
    destruct (Str.is_space c) eqn:Hs; [|done].
    apply space_not_digit_or_dot in Hs. congruence. }
  assert (Str.rstrip (mag +:+ " " +:+ u) = mag +:+ " " +:+ u) as ->.
  { apply rstrip_app; [by apply (rstrip_app " ")|].
    destruct u; [done|by sapp]. }
  rewrite !lower_app. by rewrite lower_number.
Qed.

Lemma match_bytes_pib mag :
  number_token mag -> Re.match_bytes (mag +:+ " pib") = None.
Proof.
  intros [Hne Hmag]. unfold Re.match_bytes.
  assert (S : stops Str.is_digit_or_dot " pib") by done.
  rewrite take_while_app, drop_while_app by done.
  by rewrite bool_decide_false by done.
Qed.

Lemma read_back_unit mag u :
  number_token mag -> u ∈ unit_forms ->
  Re.match_bytes (mag +:+ " " +:+ u) = Some (mag, u).
Proof.
  intros Hmag Hu.
  pose proof (match_bytes_complete mag " " u "" Hmag eq_refl Hu) as E.
  replace (u +:+ "") with u in E; [done|].
  apply unit_form_cases in Hu.
  by repeat destruct Hu as [->|Hu]; try subst u.
Qed.

(** ** Conversions that do not round *)

Lemma Zdigits2_shift m k :
  0 <= k -> Zdigits2 (Zpos m * 2 ^ k) = Zdigits2 (Zpos m) + k.
Proof.
  intros Hk.
  assert (0 < 2 ^ k) by (apply Z.pow_pos_nonneg; lia).
  destruct (Zpos m * 2 ^ k) as [|p|p] eqn:E; [lia| |lia].
  rewrite !Zdigits2_log2, <- E, Z.log2_mul_pow2 by lia. lia.
Qed.

Lemma exact_location y : inexact y = false -> loc_of_shr_record y = loc_Exact.
Proof. by destruct y as [m [] []]. Qed.

Lemma new_location_zero d : new_location d 0 = loc_Exact.
Proof. unfold new_location. by destruct (Z.even d). Qed.

(** Rounding a value that is a double returns that double. *)
Lemma binary_round_aux_exact s q e' m e :
  e' <= e -> q = Zpos m * 2 ^ (e - e') ->
  valid_binary Float.prec Float.emax (S754_finite s m e) = true ->
  binary_round_aux Float.prec Float.emax s q e' loc_Exact
    = S754_finite s m e.
Proof.
  intros He Hq V. simpl in V. unfold bounded, canonical_mantissa in V.
  apply andb_prop in V as [Hc Hb].
  apply Z.eqb_eq in Hc. apply Z.leb_le in Hb.
  assert (HK : 0 < 2 ^ (e - e')) by (apply Z.pow_pos_nonneg; lia).
  assert (Hq0 : 0 <= q) by lia.
  unfold binary_round_aux.
  pose proof (shr_fexp_spec q e' loc_Exact Hq0) as H1.
  destruct (shr_fexp Float.prec Float.emax q e' loc_Exact) as [y e1].
  simpl in H1. destruct H1 as (He1 & Hm1 & Hi1).
  assert (Hd : Zdigits2 q + e' = Zpos (digits2_pos m) + e).
  { rewrite Hq, Zdigits2_shift by lia. simpl. lia. }
  rewrite Hd, Hc in He1.
  assert (e1 = e) as -> by lia.
  assert (Hy : shr_m y = Zpos m).
  { rewrite Hm1, Hq. by rewrite Z.div_mul by lia. }
  assert (Hex : inexact y = false).
  { destruct (inexact y) eqn:I; [|done].
    destruct (Hi1 eq_refl) as [?|Hlt]; [done|]. rewrite Hy, <- Hq in Hlt. lia. }
  rewrite (exact_location y Hex), Hy. cbn [round_nearest_even].
  pose proof (shr_fexp_spec (Zpos m) e loc_Exact ltac:(lia)) as H2.
  destruct (shr_fexp Float.prec Float.emax (Zpos m) e loc_Exact) as [y2 e2].
  simpl in H2. destruct H2 as (He2 & Hm2 & _).
  change (Zdigits2 (Zpos m)) with (Zpos (digits2_pos m)) in He2.
  rewrite Hc in He2. assert (e2 = e) as -> by lia.
  rewrite Z.sub_diag, Z.div_1_r in Hm2. rewrite Hm2.
  by apply Z.leb_le in Hb as ->.
Qed.

Lemma fexp_mono a b :
  a <= b -> fexp Float.prec Float.emax a <= fexp Float.prec Float.emax b.
Proof. rewrite !fexp_eq. lia. Qed.

(** The quotient of two integers whose value is a double converts to
    that double. *)
Lemma of_ratio_exact s a b m e :
  0 < a -> 0 < b ->
  a * 2 ^ Z.max (- e) 0 = Zpos m * 2 ^ Z.max e 0 * b ->
  valid_binary Float.prec Float.emax (S754_finite s m e) = true ->
  Float.of_ratio s a b = S754_finite s m e.
Proof.
  intros Ha Hb Heq V. unfold Float.of_ratio, SFdiv_core_binary.
  assert (Hc : fexp Float.prec Float.emax (Zpos (digits2_pos m) + e) = e).
  { simpl in V. unfold bounded, canonical_mantissa in V.
    apply andb_prop in V as [Hc _]. by apply Z.eqb_eq in Hc. }
  (* the digits of the operands *)
  pose proof (Zdigits2_gt (Zpos m) ltac:(lia)) as Hm.
  change (Zdigits2 (Zpos m)) with (Zpos (digits2_pos m)) in Hm.
  pose proof (Zdigits2_gt b ltac:(lia)) as Hb2.
  assert (Ha2 : 2 ^ (Zdigits2 a - 1) <= a).
  { destruct a as [|p|p]; [lia| |lia].
    rewrite Zdigits2_log2.
    replace (Z.log2 (Zpos p) + 1 - 1) with (Z.log2 (Zpos p)) by lia.
    apply Z.log2_spec. lia. }
  pose proof (Zdigits2_nonneg a) as Hda.
  pose proof (Zdigits2_nonneg b) as Hdb.
  assert (Hda1 : 1 <= Zdigits2 a) by (destruct a; simpl; lia).
  set (da := Zdigits2 a) in *. set (db := Zdigits2 b) in *.
  set (dm := Zpos (digits2_pos m)) in *.
  assert (Hdig : da - db <= dm + e).
  { assert (HP : 0 < 2 ^ Z.max (- e) 0) by (apply Z.pow_pos_nonneg; lia).
    assert (HR : 0 < 2 ^ Z.max e 0) by (apply Z.pow_pos_nonneg; lia).
    assert (Hlt : 2 ^ (da - 1) * 2 ^ Z.max (- e) 0
                  < 2 ^ dm * 2 ^ Z.max e 0 * 2 ^ db).
    { assert (0 < 2 ^ (da - 1)) by (apply Z.pow_pos_nonneg; lia).
      set (A := 2 ^ (da - 1)) in *. set (P := 2 ^ Z.max (- e) 0) in *.
      set (R := 2 ^ Z.max e 0) in *. set (M2 := 2 ^ dm) in *.
      set (B2 := 2 ^ db) in *.
      assert (A * P <= a * P) by nia.
      assert (Zpos m * b < M2 * B2) by nia.
      assert (Zpos m * b * R < M2 * B2 * R) by nia.
      lia. }
    rewrite <- !Z.pow_add_r in Hlt by lia.
    apply Z.pow_lt_mono_r_iff in Hlt; lia. }
  set (e' := Z.min (fexp Float.prec Float.emax (da + 0 - (db + 0))) (0 - 0)).
  assert (He'0 : e' <= 0) by (subst e'; lia).
  assert (He' : e' <= e).
  { pose proof (fexp_mono (da + 0 - (db + 0)) (dm + e) ltac:(lia)).
    subst e'. lia. }
  assert (Hshift : match 0 - 0 - e' with
                   | 0 => a
                   | Z.pos _ => Z.shiftl a (0 - 0 - e')
                   | Z.neg _ => 0
                   end = a * 2 ^ (- e')).
  { replace (0 - 0 - e') with (- e') by lia.
    destruct (- e') as [|p|p] eqn:E; [lia| |lia].
    by rewrite Z.shiftl_mul_pow2 by lia. }
  rewrite Hshift.
  assert (Hval : a * 2 ^ (- e') = Zpos m * 2 ^ (e - e') * b).
  { assert (HP : 0 < 2 ^ Z.max (- e) 0) by (apply Z.pow_pos_nonneg; lia).
    apply (Z.mul_reg_r _ _ (2 ^ Z.max (- e) 0)); [lia|].
    replace (a * 2 ^ (- e') * 2 ^ Z.max (- e) 0)
      with (a * 2 ^ Z.max (- e) 0 * 2 ^ (- e')) by lia.
    rewrite Heq.
    replace (Zpos m * 2 ^ Z.max e 0 * b * 2 ^ (- e'))
      with (Zpos m * b * (2 ^ Z.max e 0 * 2 ^ (- e'))) by lia.
    replace (Zpos m * 2 ^ (e - e') * b * 2 ^ Z.max (- e) 0)
      with (Zpos m * b * (2 ^ (e - e') * 2 ^ Z.max (- e) 0)) by lia.
    rewrite <- !Z.pow_add_r by lia. do 2 f_equal. lia. }
  pose proof (Z_div_mod (a * 2 ^ (- e')) b ltac:(lia)) as Hqr.
  destruct (Z.div_eucl (a * 2 ^ (- e')) b) as [q r].
  destruct Hqr as [Hq Hr].
  assert (HK : 0 < 2 ^ (e - e')) by (apply Z.pow_pos_nonneg; lia).
  assert (q = Zpos m * 2 ^ (e - e') /\ r = 0) as [-> ->].
  { rewrite Hval in Hq.
    apply (Z.div_mod_unique b); [lia|lia|]. lia. }
  rewrite new_location_zero.
  by apply binary_round_aux_exact.
Qed.

Section ExactMean.

Import statistics.

Local Open Scope Q_scope.

(** The exact fraction of a double converts back to that double. *)
Lemma float_of_fraction_exact x q :
  byte_total x = true -> Float.to_Q x = Some q ->
  float_of_fraction q = Ok (unsigned_zero x).
Proof.
  unfold byte_total. intros [[V F]%andb_prop N]%andb_prop.
  destruct x as [s| | |s m e]; try done.
  { intros [= <-]. reflexivity. }
  destruct s; [done|]. cbn [Float.to_Q unsigned_zero]. intros [= <-].
  unfold float_of_fraction.
  set (q0 := match e with
             | Z.neg k => Z.pos m # 2 ^ k
             | _ => (Z.pos m * 2 ^ e)%Z # 1
             end).
  rewrite (Qred_complete (Qred q0) q0 (Qred_correct q0)).
  pose proof (Qred_correct q0) as E. unfold Qeq in E.
  destruct (Qred q0) as [a b]. cbn [Qnum Qden] in *.
  assert (Hq0 : (0 < Qnum q0)%Z).
  { subst q0. destruct e as [|p|p]; cbn [Qnum]; [lia| |lia].
    assert (0 < 2 ^ Z.pos p)%Z by (apply Z.pow_pos_nonneg; lia). nia. }
  assert (Ha : (0 < a)%Z) by nia.
  unfold Py.int_true_div.
  destruct (Z.ltb_spec a 0) as [|_]; [lia|].
  rewrite Z.abs_eq by lia.
  rewrite (of_ratio_exact false a (Zpos b) m e); [done|lia|lia| |done].
  subst q0. destruct e as [|p|p]; cbn [Qnum Qden] in E.
  - change (Z.max (- 0) 0) with 0%Z. change (Z.max 0 0) with 0%Z. lia.
  - replace (Z.max (- Z.pos p) 0) with 0%Z by lia.
    replace (Z.max (Z.pos p) 0) with (Z.pos p) by lia. lia.
  - replace (Z.max (- Z.neg p) 0) with (Z.pos p) by lia.
    replace (Z.max (Z.neg p) 0) with 0%Z by lia.
    rewrite Pos2Z.inj_pow in E. lia.
Qed.

Lemma mean_replicate n q :
  (1 <= n)%nat -> arithmetic_mean (replicate n q) == q.
Proof.
  intros Hn. unfold arithmetic_mean.
  rewrite sum_Q_replicate, length_replicate.
  pose proof (count_positive n Hn). field. lra.
Qed.

End ExactMean.

Section ExactBaseline.

Variable self : TrafficMonitor.

(** The mean of equal totals is that total, without rounding. *)
Lemma calculate_constant records n x :
  total_bytes_of records = Ok (replicate n (JNum x)) ->
  byte_total x = true -> (1 <= n)%nat ->
  calculate_historical_stats self (JArr records) =
    Ok {[ "total_traffic" :=
            {| mean := unsigned_zero x; stdev := Float.zero; count := n |} ]}.
Proof.
  intros Ht Hx Hn.
  destruct (to_Q_bound x Hx) as (q & Eq & Hq).
  pose proof (exact_values_replicate n x q Eq) as Hqs.
  pose proof (total_bytes_of_length _ _ Ht) as Hr.
  rewrite length_replicate in Hr.
  assert (Hm : statistics.float_of_fraction (arithmetic_mean (replicate n q))
               = Ok (unsigned_zero x)).
  { rewrite (float_of_fraction_proper _ q) by by apply mean_replicate.
    by apply float_of_fraction_exact. }
  destruct (decide (n = 1%nat)) as [->|Hn1].
  - destruct records as [|r [|r' records]]; try done.
    simpl in Ht. destruct (Py.getitem r "total_bytes") as [v|] eqn:G;
      simpl in Ht; [|done].
    injection Ht as ->.
    apply (calculate_single self r x); [done|].
    change [JNum x] with (map JNum [x]).
    rewrite (mean_finite [x] [q]); [done| |simpl; lia].
    unfold exact_values. simpl. by rewrite Eq.
  - rewrite Hr.
    apply (calculate_many self records (replicate n x) (replicate n q)).
    + by rewrite fmap_replicate.
    + done.
    + rewrite length_replicate. lia.
    + done.
    + rewrite (float_sqrt_proper _ 0%Q)
        by (apply variance_replicate; lia).
      reflexivity.
Qed.

End ExactBaseline.
(** ** Rounding to the nearest double *)

Lemma new_location_spec d r :
  0 <= r < d -> new_location d r = loc_of r d 0.
Proof.
  intros H. unfold new_location.
  destruct (Z.even d) eqn:Ev;
    unfold new_location_even, new_location_odd, loc_of;
    rewrite Z.mul_0_l, Z.sub_0_r; destruct (r =? 0) eqn:E; try done.
  f_equal.
  assert (Ho : Z.odd d = true) by by rewrite <- Z.negb_even, Ev.
  apply Z.odd_spec in Ho as [k ->].
  destruct (Z.compare_spec (2 * r + 1) (2 * k + 1));
    destruct (Z.compare_spec (2 * r) (2 * k + 1)); try done; lia.
Qed.

(** The shifted record keeps track of where the fraction lies. *)
Lemma shr_1_loc N D y :
  0 < D -> 0 <= shr_m y ->
  shr_m y * D <= N < (shr_m y + 1) * D ->
  loc_of_shr_record y = loc_of N D (shr_m y) ->
  let y' := shr_1 y in
  shr_m y' = shr_m y / 2
  /\ shr_m y' * (2 * D) <= N < (shr_m y' + 1) * (2 * D)
  /\ loc_of_shr_record y' = loc_of N (2 * D) (shr_m y').
Proof.
  intros HD Hm HN Hl.
  assert (Hs : shr_r y || shr_s y = negb (N - shr_m y * D =? 0)).
  { unfold loc_of in Hl. destruct y as [m [] []]; simpl in *;
      destruct (N - m * D =? 0); done. }
  assert (Hy : shr_m (shr_1 y) = shr_m y / 2
               /\ shr_r (shr_1 y) = Z.odd (shr_m y)
               /\ shr_s (shr_1 y) = shr_r y || shr_s y).
  { rewrite <- Z.div2_div.
    destruct y as [[|[p|p|]|p] r s]; simpl in *; try lia; done. }
  destruct Hy as (Hm' & Hr' & Hs'). cbv zeta.
  pose proof (Z.div2_odd (shr_m y)) as Hodd. rewrite Z.div2_div in Hodd.
  rewrite Hm'. set (h := shr_m y / 2) in *.
  split; [done|]. split.
  { destruct (Z.odd (shr_m y)); simpl in Hodd; nia. }
  destruct (shr_1 y) as [m' r' s']. simpl in Hm', Hr', Hs'.
  subst r' s'. rewrite Hs. unfold loc_of. simpl.
  destruct (Z.odd (shr_m y)) eqn:Ho; simpl in Hodd;
    destruct (Z.eqb_spec (N - shr_m y * D) 0) as [E0|E0];
    destruct (Z.eqb_spec (N - h * (2 * D)) 0) as [E1|E1]; simpl;
    try (exfalso; nia); try done; f_equal; symmetry.
  - apply Z.compare_eq_iff. nia.
  - apply Z.compare_gt_iff. nia.
  - apply Z.compare_lt_iff. nia.
Qed.

Lemma shr_iter_loc N D k : forall y,
  0 < D -> 0 <= shr_m y ->
  shr_m y * D <= N < (shr_m y + 1) * D ->
  loc_of_shr_record y = loc_of N D (shr_m y) ->
  let y' := Nat.iter k shr_1 y in
  let D' := 2 ^ Z.of_nat k * D in
  shr_m y' = shr_m y / 2 ^ Z.of_nat k
  /\ shr_m y' * D' <= N < (shr_m y' + 1) * D'
  /\ loc_of_shr_record y' = loc_of N D' (shr_m y').
Proof.
  induction k as [|k IH]; intros y HD Hm HN Hl.
  - simpl. rewrite Z.div_1_r. change (2 ^ Z.of_nat 0 * D) with (1 * D).
    replace (1 * D) with D by lia. done.
  - cbv zeta.
    change (Nat.iter (S k) shr_1 y) with (shr_1 (Nat.iter k shr_1 y)).
    destruct (IH y HD Hm HN Hl) as (H1 & H2 & H3).
    set (y1 := Nat.iter k shr_1 y) in *.
    assert (HP : 0 < 2 ^ Z.of_nat k) by (apply Z.pow_pos_nonneg; lia).
    assert (Hm1 : 0 <= shr_m y1) by (rewrite H1; apply Z.div_pos; lia).
    destruct (shr_1_loc N (2 ^ Z.of_nat k * D) y1 ltac:(lia) Hm1 H2 H3)
      as (H4 & H5 & H6).
    assert (Hpow : 2 ^ Z.of_nat (S k) = 2 * 2 ^ Z.of_nat k).
    { rewrite Nat2Z.inj_succ, Z.pow_succ_r by lia. done. }
    rewrite Hpow.
    replace (2 * 2 ^ Z.of_nat k * D) with (2 * (2 ^ Z.of_nat k * D)) by lia.
    split; [|done].
    rewrite H4, H1, Z.div_div by lia. f_equal. lia.
Qed.

Lemma shr_record_of_loc_inv m l :
  shr_m (shr_record_of_loc m l) = m
  /\ loc_of_shr_record (shr_record_of_loc m l) = l.
Proof. by destruct l as [|[]]. Qed.

(** One normalising shift, with the place of the fraction. *)
Lemma shr_fexp_loc N D m e l :
  0 < D -> 0 <= m -> m * D <= N < (m + 1) * D -> l = loc_of N D m ->
  let r := shr_fexp Float.prec Float.emax m e l in
  let D' := 2 ^ (r.2 - e) * D in
  r.2 = Z.max e (fexp Float.prec Float.emax (Zdigits2 m + e))
  /\ shr_m r.1 = m / 2 ^ (r.2 - e)
  /\ shr_m r.1 * D' <= N < (shr_m r.1 + 1) * D'
  /\ loc_of_shr_record r.1 = loc_of N D' (shr_m r.1).
Proof.
  intros HD Hm HN Hl. unfold shr_fexp, shr.
  destruct (shr_record_of_loc_inv m l) as [Hr Hl'].
  destruct (fexp _ _ _ - e) as [|p|p] eqn:E; cbn [fst snd].
  - rewrite Z.sub_diag, Z.div_1_r. change (2 ^ 0) with 1.
    rewrite Z.mul_1_l, Hr, Hl'. split_and!; (lia || done).
  - rewrite iter_pos_nat.
    destruct (shr_iter_loc N D (Pos.to_nat p) (shr_record_of_loc m l))
      as (H1 & H2 & H3); [done|lia|by rewrite Hr|by rewrite Hr, Hl'|].
    rewrite positive_nat_Z, Hr in *.
    replace (e + Z.pos p - e) with (Z.pos p) by lia.
    split_and!; (lia || done).
  - rewrite Z.sub_diag, Z.div_1_r. change (2 ^ 0) with 1.
    rewrite Z.mul_1_l, Hr, Hl'. split_and!; (lia || done).
Qed.

(** Rounding to nearest, ties to even, on a located fraction. *)
Lemma round_nearest_even_loc N D m :
  0 < D -> m * D <= N < (m + 1) * D ->
  let m' := round_nearest_even m (loc_of N D m) in
  m <= m' <= m + 1
  /\ 2 * Z.abs (N - m' * D) <= D
  /\ (2 * Z.abs (N - m' * D) = D -> Z.even m' = true).
Proof.
  intros HD HN. unfold loc_of.
  destruct (Z.eqb_spec (N - m * D) 0) as [E|E]; simpl.
  { split; [lia|]. split; lia. }
  destruct (Z.compare_spec (2 * (N - m * D)) D) as [C|C|C].
  - destruct (Z.even m) eqn:Ev.
    + split; [lia|]. split; [lia|done].
    + split; [lia|]. split; [lia|]. intros _.
      change (Z.pos 1) with 1.
      rewrite Z.even_add. rewrite Ev. done.
  - split; [lia|]. split; lia.
  - change (Z.pos 1) with 1. split; [lia|]. split; lia.
Qed.

(** What [binary_round_aux] returns for a located fraction whose
    exponent is not above the one of the format: the nearest multiple
    of the unit in the last place, ties to even. *)
Lemma binary_round_aux_grid s q e l N D :
  0 < D -> 0 <= q -> q * D <= N < (q + 1) * D -> l = loc_of N D q ->
  e <= fexp Float.prec Float.emax (Zdigits2 q + e) ->
  let e1 := fexp Float.prec Float.emax (Zdigits2 q + e) in
  let G := 2 ^ (e1 - e) * D in
  exists m m',
    m * G <= N < (m + 1) * G
    /\ m <= m' <= m + 1
    /\ 2 * Z.abs (N - m' * G) <= G
    /\ (2 * Z.abs (N - m' * G) = G -> Z.even m' = true)
    /\ 0 <= m < 2 ^ 53
    /\ (e1 = -1074 \/ 2 ^ 52 <= m)
    /\ binary_round_aux Float.prec Float.emax s q e l = grid_float s m' e1.
Proof.
  intros HD Hq HN Hl He e1 G. unfold binary_round_aux.
  pose proof (shr_fexp_loc N D q e l HD Hq HN Hl) as H1.
  destruct (shr_fexp Float.prec Float.emax q e l) as [y e1'].
  cbn [fst snd] in H1. cbv zeta in H1.
  destruct H1 as (He1 & Hm & HNm & Hloc).
  assert (e1' = e1) as -> by (subst e1; lia).
  fold G in HNm, Hloc.
  set (m := shr_m y) in *.
  assert (HK : 0 < 2 ^ (e1 - e)) by (apply Z.pow_pos_nonneg; lia).
  assert (HG : 0 < G) by (subst G; nia).
  assert (Hm0 : 0 <= m) by (rewrite Hm; apply Z.div_pos; lia).
  rewrite Hloc.
  destruct (round_nearest_even_loc N G m HG HNm) as (Hmm & Hr1 & Hr2).
  set (m' := round_nearest_even m (loc_of N G m)) in *.
  assert (He1' : -1074 <= e1) by (subst e1; rewrite fexp_eq; lia).
  assert (Hd : Zdigits2 q + e - 53 <= e1) by (subst e1; rewrite fexp_eq; lia).
  assert (Hlt : m < 2 ^ 53).
  { rewrite Hm. apply Z.div_lt_upper_bound; [done|].
    rewrite <- Z.pow_add_r by lia.
    pose proof (Zdigits2_gt q Hq) as Hg.
    assert (2 ^ Zdigits2 q <= 2 ^ (e1 - e + 53))
      by (apply Z.pow_le_mono_r; lia).
    lia. }
  assert (Hnorm : e1 = -1074 \/ 2 ^ 52 <= m).
  { destruct (decide (e1 = -1074)) as [?|Hne]; [by left|right].
    assert (Hdq : Zdigits2 q = e1 - e + 53)
      by (subst e1; rewrite fexp_eq in *; lia).
    rewrite Hm. apply Z.div_le_lower_bound; [done|].
    rewrite <- Z.pow_add_r by lia.
    destruct q as [|p|p]; [simpl in Hdq; lia| |lia].
    rewrite Zdigits2_log2 in Hdq.
    replace (e1 - e + 52) with (Z.log2 (Zpos p)) by lia.
    apply Z.log2_spec. lia. }
  exists m, m'. split; [done|]. split; [done|]. split; [done|].
  split; [done|]. split; [lia|]. split; [done|].
  assert (Hm'0 : 0 <= m') by lia.
  pose proof (shr_fexp_spec m' e1 loc_Exact Hm'0) as H2.
  destruct (shr_fexp Float.prec Float.emax m' e1 loc_Exact) as [y2 e2].
  cbn [fst snd] in H2. destruct H2 as (He2 & Hm2 & _).
  rewrite fexp_eq in He2.
  destruct (decide (m' = 2 ^ 53)) as [E|E].
  - rewrite E in *. change (Zdigits2 (2 ^ 53)) with 54 in He2.
    assert (e2 = e1 + 1) as -> by lia.
    replace (e1 + 1 - e1) with 1 in Hm2 by lia.
    change (2 ^ 53 / 2 ^ 1) with (Z.pos (2 ^ 52)) in Hm2.
    rewrite Hm2. unfold grid_float.
    change (2 ^ 53) with (Z.pos (2 ^ 53)). rewrite Z.eqb_refl.
    done.
  - assert (Hd' : Zdigits2 m' <= 53) by (apply Zdigits2_le; lia).
    pose proof (Zdigits2_nonneg m').
    assert (e2 = e1) as -> by lia.
    rewrite Z.sub_diag, Z.div_1_r in Hm2. rewrite Hm2.
    unfold grid_float. destruct m' as [|p|p]; [done| |lia].
    apply Z.eqb_neq in E. rewrite E. done.
Qed.

Lemma Zdigits2_ge q : 0 < q -> 2 ^ (Zdigits2 q - 1) <= q.
Proof.
  intros Hq. destruct q as [|p|p]; [lia| |lia].
  rewrite Zdigits2_log2.
  replace (Z.log2 (Zpos p) + 1 - 1) with (Z.log2 (Zpos p)) by lia.
  apply Z.log2_spec. lia.
Qed.

Lemma Zdigits2_lower q k : 0 <= k -> 2 ^ k <= q -> k + 1 <= Zdigits2 q.
Proof.
  intros Hk H.
  assert (Hq : 0 < q) by (pose proof (Z.pow_pos_nonneg 2 k); lia).
  pose proof (Zdigits2_gt q ltac:(lia)) as Hg.
  pose proof (Zdigits2_nonneg q).
  destruct (Z.lt_ge_cases (Zdigits2 q) (k + 1)) as [Hlt|]; [|done].
  assert (2 ^ Zdigits2 q <= 2 ^ k) by (apply Z.pow_le_mono_r; lia).
  lia.
Qed.

(** The quotient [SFdiv_core_binary] hands to the rounding: it is
    located, and it has enough digits for its exponent. *)
Lemma div_core_located m1 e1 m2 e2 :
  0 < m1 -> 0 < m2 ->
  exists q e' l,
    SFdiv_core_binary Float.prec Float.emax m1 e1 m2 e2 = (q, e', l)
    /\ e' = Z.min (fexp Float.prec Float.emax
                     (Zdigits2 m1 + e1 - (Zdigits2 m2 + e2))) (e1 - e2)
    /\ 0 <= q
    /\ q * m2 <= m1 * 2 ^ (e1 - e2 - e') < (q + 1) * m2
    /\ l = loc_of (m1 * 2 ^ (e1 - e2 - e')) m2 q
    /\ e' <= fexp Float.prec Float.emax (Zdigits2 q + e').
Proof.
  intros H1 H2. unfold SFdiv_core_binary.
  set (e' := Z.min _ (e1 - e2)).
  assert (He : e' <= e1 - e2) by (subst e'; lia).
  assert (Hs : match e1 - e2 - e' with
               | 0 => m1
               | Z.pos _ => Z.shiftl m1 (e1 - e2 - e')
               | Z.neg _ => 0
               end = m1 * 2 ^ (e1 - e2 - e')).
  { destruct (e1 - e2 - e') as [|p|p] eqn:E; [lia| |lia].
    by rewrite Z.shiftl_mul_pow2 by lia. }
  rewrite Hs. set (s := e1 - e2 - e') in *.
  assert (HS : 0 < 2 ^ s) by (apply Z.pow_pos_nonneg; lia).
  pose proof (Z_div_mod (m1 * 2 ^ s) m2 ltac:(lia)) as Hqr.
  destruct (Z.div_eucl (m1 * 2 ^ s) m2) as [q r].
  destruct Hqr as [Hq Hr].
  assert (Hq0 : 0 <= q) by nia.
  exists q, e', (new_location m2 r). fold s.
  split; [done|]. split; [done|].
  split; [done|]. split; [lia|]. split.
  { rewrite new_location_spec by done. unfold loc_of.
    by replace (m1 * 2 ^ s - q * m2) with (r - 0 * m2) by lia. }
  transitivity (fexp Float.prec Float.emax
                  (Zdigits2 m1 + e1 - (Zdigits2 m2 + e2))); [subst e'; lia|].
  apply fexp_mono.
  enough (Hd : Zdigits2 m1 + s - Zdigits2 m2 <= Zdigits2 q) by lia.
  pose proof (Zdigits2_ge m1 H1) as Hg1.
  pose proof (Zdigits2_gt m2 ltac:(lia)) as Hg2.
  pose proof (Zdigits2_nonneg q) as Hdq.
  pose proof (Zdigits2_nonneg m2) as Hd2.
  assert (Hd1 : 1 <= Zdigits2 m1) by (destruct m1; simpl; lia).
  set (k := Zdigits2 m1 - 1 + s - Zdigits2 m2).
  destruct (Z.lt_ge_cases k 0) as [Hk|Hk]; [lia|].
  enough (2 ^ k <= q) by (apply Zdigits2_lower in H; lia).
  assert (Hpow : 2 ^ (Zdigits2 m1 - 1) * 2 ^ s = 2 ^ k * 2 ^ Zdigits2 m2).
  { rewrite <- !Z.pow_add_r by lia. f_equal. lia. }
  assert (HK : 0 < 2 ^ k) by (apply Z.pow_pos_nonneg; lia).
  set (a := 2 ^ (Zdigits2 m1 - 1)) in *. set (b := 2 ^ Zdigits2 m2) in *.
  set (K := 2 ^ k) in *. set (S := 2 ^ s) in *.
  assert (K * b <= m1 * S) by nia.
  assert (K * m2 < (q + 1) * m2) by nia.
  nia.
Qed.

(** The double [of_ratio] returns, on the grid of its last place: with
    [A / B] the fraction in units of [2^e1], the mantissa is the
    integer nearest to it. *)
Lemma of_ratio_grid s n d :
  0 < n -> 0 < d ->
  exists e1 m m',
    let A := n * 2 ^ Z.max (- e1) 0 in
    let B := d * 2 ^ Z.max e1 0 in
    -1074 <= e1
    /\ m * B <= A < (m + 1) * B
    /\ m <= m' <= m + 1
    /\ 2 * Z.abs (A - m' * B) <= B
    /\ (2 * Z.abs (A - m' * B) = B -> Z.even m' = true)
    /\ 0 <= m < 2 ^ 53
    /\ (e1 = -1074 \/ 2 ^ 52 <= m)
    /\ Float.of_ratio s n d = grid_float s m' e1.
Proof.
  intros Hn Hd. unfold Float.of_ratio.
  destruct (div_core_located n 0 d 0 Hn Hd)
    as (q & e' & l & -> & He' & Hq & HN & Hl & Hf).
  replace (0 - 0 - e') with (- e') in * by lia.
  assert (He0 : e' <= 0) by lia.
  destruct (binary_round_aux_grid s q e' l (n * 2 ^ (- e')) d
              Hd Hq HN Hl Hf)
    as (m & m' & H1 & H2 & H3 & H4 & H5 & H6 & H7).
  set (e1 := fexp Float.prec Float.emax (Zdigits2 q + e')) in *.
  exists e1, m, m'. cbv zeta.
  assert (He1 : -1074 <= e1) by (subst e1; rewrite fexp_eq; lia).
  set (F := 2 ^ (Z.min e1 0 - e')).
  assert (HF : 0 < F) by (apply Z.pow_pos_nonneg; lia).
  assert (EA : n * 2 ^ (- e') = n * 2 ^ Z.max (- e1) 0 * F).
  { unfold F. rewrite <- Z.mul_assoc, <- Z.pow_add_r by lia.
    do 2 f_equal. lia. }
  assert (EB : 2 ^ (e1 - e') * d = d * 2 ^ Z.max e1 0 * F).
  { unfold F. rewrite <- Z.mul_assoc, <- Z.pow_add_r by lia.
    rewrite Z.mul_comm. do 2 f_equal. lia. }
  rewrite EA, EB in *.
  set (A := n * 2 ^ Z.max (- e1) 0) in *.
  set (B := d * 2 ^ Z.max e1 0) in *.
  assert (HB : 0 < B).
  { unfold B. pose proof (Z.pow_pos_nonneg 2 (Z.max e1 0)). nia. }
  split; [done|]. split; [nia|]. split; [done|].
  assert (Habs : Z.abs (A * F - m' * (B * F)) = Z.abs (A - m' * B) * F).
  { replace (A * F - m' * (B * F)) with ((A - m' * B) * F) by lia.
    rewrite Z.abs_mul. f_equal. lia. }
  rewrite Habs in H3, H4.
  split; [nia|]. split; [|done].
  intros E. apply H4. nia.
Qed.

(** ** Doubles as rationals *)

Section Values.

Local Open Scope Q_scope.

Lemma pow2_pos e : 0 < (2 # 1) ^ e.
Proof. by apply Qpower_0_lt. Qed.

Lemma pow2_add a b : (2 # 1) ^ (a + b) == (2 # 1) ^ a * (2 # 1) ^ b.
Proof. by apply Qpower_plus. Qed.

Lemma pow2_inject e : (0 <= e)%Z -> (2 # 1) ^ e == inject_Z (2 ^ e).
Proof. intros H. by rewrite Zpower_Qpower. Qed.

Lemma pow2_below e : (e < 0)%Z -> (2 # 1) ^ e <= 1 # 2.
Proof.
  intros H. replace e with ((e + 1) + -1)%Z by lia.
  rewrite pow2_add. change ((2 # 1) ^ (-1)) with (1 # 2).
  assert ((2 # 1) ^ (e + 1) <= (2 # 1) ^ 0)
    by (apply Qpower_le_compat_l; [lia|done]).
  change ((2 # 1) ^ 0) with 1 in H0.
  pose proof (pow2_pos (e + 1)). nra.
Qed.

(** The exact value of a finite double. *)
Lemma to_Q_value s m e u :
  Float.to_Q (S754_finite s m e) = Some u ->
  u == inject_Z (if s then Zneg m else Zpos m) * (2 # 1) ^ e.
Proof.
  unfold Float.to_Q. intros [= <-]. rewrite Qred_correct.
  set (n := if s then Zneg m else Zpos m).
  destruct e as [|k|k].
  - change ((2 # 1) ^ 0) with 1. rewrite Z.pow_0_r, Z.mul_1_r.
    change (n # 1) with (inject_Z n). ring.
  - change ((n * 2 ^ Zpos k)%Z # 1) with (inject_Z (n * 2 ^ Zpos k)).
    rewrite inject_Z_mult, pow2_inject by lia. reflexivity.
  - rewrite Qmake_Qdiv.
    change ((2 # 1) ^ Zneg k) with (/ (2 # 1) ^ Zpos k).
    rewrite pow2_inject by lia.
    rewrite Pos2Z.inj_pow. reflexivity.
Qed.

Lemma to_Q_zero s u : Float.to_Q (S754_zero s) = Some u -> u == 0.
Proof. by intros [= <-]. Qed.

(** A double in canonical form has at most 53 bits and an exponent of
    at least -1074. *)
Lemma canonical_bounds s m e :
  valid_binary Float.prec Float.emax (S754_finite s m e) = true ->
  (Zpos m < 2 ^ 53 /\ -1074 <= e <= 971)%Z.
Proof.
  simpl. unfold bounded, canonical_mantissa.
  intros [Hc He]%andb_prop.
  apply Z.eqb_eq in Hc. apply Z.leb_le in He. rewrite fexp_eq in Hc.
  change (Float.emax - Float.prec)%Z with 971%Z in He.
  split; [|lia].
  pose proof (Zdigits2_gt (Zpos m) ltac:(lia)) as Hd.
  change (Zdigits2 (Zpos m)) with (Zpos (digits2_pos m)) in Hd.
  assert (2 ^ Zpos (digits2_pos m) <= 2 ^ 53)%Z
    by (apply Z.pow_le_mono_r; lia).
  lia.
Qed.

(** Seen from the grid of step [2^e1], a double is a multiple of the
    step or lies below [2^52] steps. *)
Lemma double_on_grid y u e1 :
  valid_binary Float.prec Float.emax y = true ->
  Float.to_Q y = Some u ->
  (exists k : Z, u == inject_Z k * (2 # 1) ^ e1)
  \/ ((-1074 < e1)%Z
      /\ - (inject_Z (2 ^ 52) * (2 # 1) ^ e1) < u
      /\ u < inject_Z (2 ^ 52) * (2 # 1) ^ e1).
Proof.
  intros V Hu. destruct y as [s|s| |s m e]; try done.
  - left. exists 0%Z. apply to_Q_zero in Hu. rewrite Hu. ring.
  - pose proof (to_Q_value _ _ _ _ Hu) as E.
    destruct (canonical_bounds _ _ _ V) as [Hm He].
    set (n := if s then Zneg m else Zpos m) in *.
    destruct (Z.le_gt_cases e1 e) as [H|H].
    + left. exists (n * 2 ^ (e - e1))%Z.
      rewrite E, inject_Z_mult, <- pow2_inject by lia.
      rewrite <- Qmult_assoc, <- pow2_add.
      by replace (e - e1 + e1)%Z with e by lia.
    + right.
      assert (Hp : (2 # 1) ^ e == (2 # 1) ^ (e - e1) * (2 # 1) ^ e1).
      { rewrite <- pow2_add. by replace (e - e1 + e1)%Z with e by lia. }
      pose proof (pow2_below (e - e1) ltac:(lia)) as Hb.
      pose proof (pow2_pos (e - e1)) as Hb0.
      pose proof (pow2_pos e1) as Hg.
      assert (Hn : - inject_Z (2 ^ 53) < inject_Z n < inject_Z (2 ^ 53)).
      { split; [rewrite <- inject_Z_opp|]; rewrite <- Zlt_Qlt;
          subst n; destruct s; lia. }
      change (inject_Z (2 ^ 53)) with ((2 # 1) * inject_Z (2 ^ 52)) in Hn.
      assert (0 < inject_Z (2 ^ 52)) by done.
      rewrite E, Hp.
      set (a := inject_Z n) in *. set (t := inject_Z (2 ^ 52)) in *.
      set (b := (2 # 1) ^ (e - e1)) in *. set (g := (2 # 1) ^ e1) in *.
      assert (Hab : - t < a * b /\ a * b < t).
      { destruct (Qlt_le_dec a 0); split; nra. }
      destruct Hab. rewrite Qmult_assoc. split; [lia|]. split; nra.
Qed.

End Values.

(** ** The nearest double *)

Lemma binary_round_aux_zero s e :
  binary_round_aux Float.prec Float.emax s 0 e loc_Exact = S754_zero s.
Proof.
  unfold binary_round_aux.
  pose proof (shr_fexp_spec 0 e loc_Exact ltac:(lia)) as H1.
  destruct (shr_fexp Float.prec Float.emax 0 e loc_Exact) as [y e1].
  cbn [fst snd] in H1. destruct H1 as (_ & Hm & Hi).
  rewrite Zdiv_0_l in Hm.
  assert (Hex : inexact y = false).
  { destruct (inexact y); [|done]. destruct (Hi eq_refl); [done|lia]. }
  rewrite (exact_location y Hex), Hm. cbn [round_nearest_even].
  pose proof (shr_fexp_spec 0 e1 loc_Exact ltac:(lia)) as H2.
  destruct (shr_fexp Float.prec Float.emax 0 e1 loc_Exact) as [y2 e2].
  cbn [fst snd] in H2. destruct H2 as (_ & Hm2 & _).
  rewrite Zdiv_0_l in Hm2. by rewrite Hm2.
Qed.

Lemma of_ratio_zero s d : 0 < d -> Float.of_ratio s 0 d = S754_zero s.
Proof.
  intros Hd. unfold Float.of_ratio, SFdiv_core_binary.
  set (e' := Z.min _ (0 - 0)).
  assert (Hs : match 0 - 0 - e' with
               | 0 => 0
               | Z.pos _ => Z.shiftl 0 (0 - 0 - e')
               | Z.neg _ => 0
               end = 0).
  { destruct (0 - 0 - e'); try done. apply Z.shiftl_0_l. }
  rewrite Hs. destruct d as [|p|p]; [lia| |lia].
  cbn [Z.div_eucl]. rewrite new_location_zero.
  apply binary_round_aux_zero.
Qed.

(** The double on the grid, when it is finite: it is in canonical form
    and its value is the mantissa times the step. *)
Lemma grid_float_value s m' e1 :
  0 <= m' <= 2 ^ 53 -> -1074 <= e1 -> (e1 = -1074 \/ 2 ^ 52 <= m') ->
  Float.is_finite (grid_float s m' e1) = true ->
  valid_binary Float.prec Float.emax (grid_float s m' e1) = true
  /\ exists v,
       Float.to_Q (grid_float s m' e1) = Some v
       /\ (v == inject_Z (if s then - m' else m') * (2 # 1) ^ e1)%Q.
Proof.
  intros Hm He Hn. unfold grid_float.
  destruct m' as [|p|p]; [| |lia].
  - intros _. split; [done|]. exists 0%Q. split; [done|].
    destruct s; change (inject_Z (- 0)) with 0%Q;
      change (inject_Z 0) with 0%Q; by rewrite Qmult_0_l.
  - destruct (Z.eqb_spec (Zpos p) (2 ^ 53)) as [E|E].
    + destruct (Z.leb_spec (e1 + 1) 971) as [L|L]; [|done]. intros _.
      split.
      * simpl. unfold bounded, canonical_mantissa.
        change (Zpos (digits2_pos (2 ^ 52))) with 53.
        rewrite fexp_eq. apply andb_true_intro. split.
        -- apply Z.eqb_eq. lia.
        -- apply Z.leb_le. change (Float.emax - Float.prec) with 971. lia.
      * eexists. split; [reflexivity|].
        rewrite (to_Q_value s (2 ^ 52) (e1 + 1) _ eq_refl).
        rewrite pow2_add. change ((2 # 1) ^ 1)%Q with (2 # 1)%Q.
        rewrite E. set (g := ((2 # 1) ^ e1)%Q).
        destruct s.
        -- change (inject_Z (- 2 ^ 53))
             with (inject_Z (Z.neg (2 ^ 52)) * (2 # 1))%Q. ring.
        -- change (inject_Z (2 ^ 53))
             with (inject_Z (Z.pos (2 ^ 52)) * (2 # 1))%Q. ring.
    + destruct (Z.leb_spec e1 971) as [L|L]; [|done]. intros _.
      assert (Hd : Zdigits2 (Zpos p) <= 53) by (apply Zdigits2_le; lia).
      change (Zdigits2 (Zpos p)) with (Zpos (digits2_pos p)) in Hd.
      split.
      * simpl. unfold bounded, canonical_mantissa.
        rewrite fexp_eq. apply andb_true_intro. split.
        -- apply Z.eqb_eq. destruct Hn as [->|Hn]; [lia|].
           apply Zdigits2_lower in Hn; [|lia].
           change (Zdigits2 (Zpos p)) with (Zpos (digits2_pos p)) in Hn.
           lia.
        -- apply Z.leb_le. by change (Float.emax - Float.prec) with 971.
      * eexists. split; [reflexivity|].
        rewrite (to_Q_value s p e1 _ eq_refl). by destruct s.
Qed.

Section Nearest.

Local Open Scope Q_scope.

(** Among the multiples of the step and the values below [2^52] steps,
    none is closer to [t] steps than [m'] steps, for [m'] the integer
    nearest to [t]. *)
Lemma nearest_on_grid (g t : Q) (m m' : Z) u :
  0 < g ->
  inject_Z m <= t -> t < inject_Z m + 1 -> (m <= m' <= m + 1)%Z ->
  - (1 # 2) <= t - inject_Z m' <= 1 # 2 -> (0 <= m)%Z ->
  (exists k : Z, u == inject_Z k * g)
  \/ ((2 ^ 52 <= m)%Z /\ - (inject_Z (2 ^ 52) * g) < u
      /\ u < inject_Z (2 ^ 52) * g) ->
  Qabs (inject_Z m' * g - t * g) <= Qabs (u - t * g).
Proof.
  intros Hg Hm1 Hm2 Hmm Hr Hm0 Hu.
  assert (Hm' : inject_Z m' == inject_Z m \/ inject_Z m' == inject_Z m + 1).
  { destruct (decide (m' = m)) as [->|]; [by left|right].
    replace m' with (m + 1)%Z by lia. by rewrite inject_Z_plus. }
  apply Qabs_Qle_condition.
  destruct Hu as [[k Hk]|(H52 & Hu1 & Hu2)].
  - rewrite Hk.
    destruct (Z.lt_total k m') as [Hlt|[->|Hgt]].
    + assert (inject_Z k <= inject_Z m' - 1).
      { assert (H : inject_Z (k + 1) <= inject_Z m')
          by (rewrite <- Zle_Qle; lia).
        rewrite inject_Z_plus in H. change (inject_Z 1) with 1 in H. lra. }
      rewrite Qabs_neg by nra. split; nra.
    + assert (E : Qabs (inject_Z m' * g - t * g) <=
                  Qabs (inject_Z m' * g - t * g)) by apply Qle_refl.
      by apply Qabs_Qle_condition in E.
    + assert (inject_Z m' + 1 <= inject_Z k).
      { assert (H : inject_Z (m' + 1) <= inject_Z k)
          by (rewrite <- Zle_Qle; lia).
        by rewrite inject_Z_plus in H. }
      rewrite Qabs_pos by nra. split; nra.
  - assert (H52' : inject_Z (2 ^ 52) <= inject_Z m) by by rewrite <- Zle_Qle.
    set (T := inject_Z (2 ^ 52)) in *.
    assert (u - t * g <= 0) by nra.
    rewrite Qabs_neg by done.
    destruct Hm' as [E|E]; rewrite E in *; split; nra.
Qed.

End Nearest.

Section NearestRatio.

Local Open Scope Q_scope.

(** A fraction in steps of the grid. *)
Lemma ratio_on_grid (n : Z) (d : positive) (e1 : Z) :
  n # d ==
    inject_Z (n * 2 ^ Z.max (- e1) 0)
    / inject_Z (Zpos d * 2 ^ Z.max e1 0) * (2 # 1) ^ e1.
Proof.
  rewrite Qmake_Qdiv, !inject_Z_mult, <- !pow2_inject by lia.
  assert (Hg : (2 # 1) ^ e1
               == (2 # 1) ^ Z.max e1 0 / (2 # 1) ^ Z.max (- e1) 0).
  { unfold Qdiv. rewrite <- Qpower_opp, <- pow2_add.
    by replace (Z.max e1 0 + - Z.max (- e1) 0)%Z with e1 by lia. }
  rewrite Hg.
  pose proof (pow2_pos (Z.max e1 0)). pose proof (pow2_pos (Z.max (- e1) 0)).
  set (P := (2 # 1) ^ Z.max e1 0) in *.
  set (R := (2 # 1) ^ Z.max (- e1) 0) in *.
  assert (0 < inject_Z (Zpos d)) by done.
  field. split_and!; lra.
Qed.

(** The double [of_ratio] returns, with the fraction counted in steps
    of the grid: [t] steps, between [m] and [m + 1], nearest to [m']. *)
Lemma of_ratio_steps (s : bool) (n : Z) (d : positive) :
  (0 < n)%Z ->
  exists (e1 m m' : Z) (t : Q),
    (-1074 <= e1)%Z
    /\ n # d == t * (2 # 1) ^ e1
    /\ inject_Z m <= t /\ t < inject_Z m + 1
    /\ (m <= m' <= m + 1)%Z
    /\ - (1 # 2) <= t - inject_Z m' <= 1 # 2
    /\ (0 <= m < 2 ^ 53)%Z
    /\ (e1 = -1074 \/ 2 ^ 52 <= m)%Z
    /\ Float.of_ratio s n (Zpos d) = grid_float s m' e1.
Proof.
  intros Hn.
  destruct (of_ratio_grid s n (Zpos d) Hn ltac:(lia))
    as (e1 & m & m' & He1 & HmA & Hmm & Hr & _ & Hm & Hnorm & E).
  pose proof (ratio_on_grid n d e1) as HX.
  set (A := (n * 2 ^ Z.max (- e1) 0)%Z) in *.
  set (B := (Zpos d * 2 ^ Z.max e1 0)%Z) in *.
  assert (HB : (0 < B)%Z).
  { subst B. pose proof (Z.pow_pos_nonneg 2 (Z.max e1 0)). nia. }
  assert (HB' : 0 < inject_Z B) by (by change 0 with (inject_Z 0);
                                    rewrite <- Zlt_Qlt).
  exists e1, m, m', (inject_Z A / inject_Z B).
  set (t := inject_Z A / inject_Z B) in *.
  assert (Ht : forall k : Z, inject_Z k * inject_Z B - inject_Z A
                             == (inject_Z k - t) * inject_Z B).
  { intros k. unfold t. field. lra. }
  split; [done|]. split; [done|]. split; [|split; [|split; [done|split]]].
  - assert (H : inject_Z (m * B) <= inject_Z A) by (rewrite <- Zle_Qle; lia).
    rewrite inject_Z_mult in H. pose proof (Ht m). nra.
  - assert (H : inject_Z A < inject_Z ((m + 1) * B))
      by (rewrite <- Zlt_Qlt; lia).
    rewrite inject_Z_mult, inject_Z_plus in H.
    change (inject_Z 1) with 1 in H. pose proof (Ht m). nra.
  - assert (H1 : inject_Z (2 * (A - m' * B)) <= inject_Z B)
      by (rewrite <- Zle_Qle; lia).
    assert (H2 : inject_Z (2 * (m' * B - A)) <= inject_Z B)
      by (rewrite <- Zle_Qle; lia).
    rewrite inject_Z_mult in H1, H2. unfold Z.sub in H1, H2.
    rewrite inject_Z_plus, inject_Z_opp, inject_Z_mult in H1, H2.
    change (inject_Z 2) with (2 # 1) in *. pose proof (Ht m').
    split; nra.
  - done.
Qed.

(** [of_ratio] rounds to a nearest double. *)
Lemma of_ratio_nearest (s : bool) (n : Z) (d : positive) :
  (0 <= n)%Z -> Float.is_finite (Float.of_ratio s n (Zpos d)) = true ->
  nearest_double ((if s then - n else n)%Z # d)
    (Float.of_ratio s n (Zpos d)).
Proof.
  intros Hn Hfin.
  destruct (decide (n = 0%Z)) as [->|Hn0].
  { rewrite of_ratio_zero by lia. split; [done|]. exists 0.
    split; [done|]. intros y u _ _.
    assert (E : (if s then - 0 else 0)%Z # d == 0) by by destruct s.
    rewrite E. apply Qabs_nonneg. }
  destruct (of_ratio_steps s n d ltac:(lia))
    as (e1 & m & m' & t & He1 & HX & Hm1 & Hm2 & Hmm & Hr' & Hm & Hnorm & E).
  rewrite E in *.
  destruct (grid_float_value s m' e1) as (V & v & Ev & Hv);
    [lia|done|destruct Hnorm; [by left|right; lia]|done|].
  split; [done|]. exists v. split; [done|]. intros y u Vy Hu.
  pose proof (pow2_pos e1) as Hg. set (g := (2 # 1) ^ e1) in *.
  assert (Hgrid : forall u',
            (exists k : Z, u' == inject_Z k * g)
            \/ ((-1074 < e1)%Z /\ - (inject_Z (2 ^ 52) * g) < u'
                /\ u' < inject_Z (2 ^ 52) * g) ->
            Qabs (inject_Z m' * g - t * g) <= Qabs (u' - t * g)).
  { intros u' Hu'. apply (nearest_on_grid g t m m'); try done; [lia|].
    destruct Hu' as [?|(? & ? & ?)]; [by left|right].
    split; [lia|done]. }
  pose proof (double_on_grid y u e1 Vy Hu) as Hd. fold g in Hd.
  destruct s.
  - change ((- n)%Z # d) with (- (n # d)).
    rewrite Hv, HX, inject_Z_opp.
    assert (E1 : - inject_Z m' * g - - (t * g)
                 == - (inject_Z m' * g - t * g)) by ring.
    assert (E2 : u - - (t * g) == - (- u - t * g)) by ring.
    rewrite E1, E2, !Qabs_opp. apply Hgrid.
    destruct Hd as [[k Hk]|(? & ? & ?)].
    + left. exists (- k)%Z. rewrite Hk, inject_Z_opp. ring.
    + right. split; [done|]. split; lra.
  - rewrite Hv, HX. by apply Hgrid.
Qed.

End NearestRatio.

(** ** Rounding to two places *)

Lemma round_half_even_spec a b :
  0 <= a -> 0 < b ->
  let h := Py.round_half_even a b in
  2 * Z.abs (a - h * b) <= b
  /\ (2 * Z.abs (a - h * b) = b -> Z.even h = true)
  /\ h <= a / b + 1.
Proof.
  intros Ha Hb. unfold Py.round_half_even.
  pose proof (Z.div_mod a b ltac:(lia)) as E.
  pose proof (Z.mod_pos_bound a b Hb) as Hr.
  set (q := a / b) in *. set (r := a mod b) in *.
  destruct (Z.compare_spec (2 * r) b) as [C|C|C].
  - destruct (Z.even q) eqn:Ev; cbv zeta.
    + split; [lia|]. split; [done|lia].
    + split; [lia|]. split; [|lia]. intros _.
      by rewrite Z.even_add, Ev.
  - cbv zeta. split; [lia|]. split; lia.
  - cbv zeta. split; [lia|]. split; lia.
Qed.

Lemma grid_float_valid s m' e1 :
  0 <= m' <= 2 ^ 53 -> -1074 <= e1 -> (e1 = -1074 \/ 2 ^ 52 <= m') ->
  valid_binary Float.prec Float.emax (grid_float s m' e1) = true.
Proof.
  intros Hm He Hn.
  destruct (Float.is_finite (grid_float s m' e1)) eqn:F.
  - by apply grid_float_value.
  - by destruct (grid_float s m' e1).
Qed.

(** Whatever [binary_round_aux] returns for a quotient of
    [SFdiv_core_binary] is a double in canonical form, and so is every
    quotient of two floats. *)
Lemma div_valid x y :
  valid_binary Float.prec Float.emax (Float.div x y) = true.
Proof.
  destruct x as [sx|sx| |sx mx ex], y as [sy|sy| |sy my ey]; try done.
  unfold Float.div, SFdiv.
  destruct (div_core_located (Zpos mx) ex (Zpos my) ey)
    as (q & e' & l & -> & He' & Hq & HN & Hl & Hf); [done|done|].
  destruct (binary_round_aux_grid (xorb sx sy) q e' l
              (Zpos mx * 2 ^ (ex - ey - e')) (Zpos my)
              ltac:(done) Hq HN Hl Hf)
    as (m & m' & H1 & H2 & H3 & H4 & H5 & H6 & ->).
  apply grid_float_valid; [lia| |destruct H6; [by left|right; lia]].
  rewrite fexp_eq. lia.
Qed.

Section TwoPlaces.

Local Open Scope Q_scope.

Lemma hundredths_bound m e :
  valid_binary Float.prec Float.emax (S754_finite false m e) = true ->
  (Py.hundredths m e <= max_double * 100)%Z.
Proof.
  intros V. destruct (canonical_bounds _ _ _ V) as [Hm He].
  unfold Py.hundredths, max_double. destruct e as [|p|p].
  - assert (2 ^ 53 - 1 <= (2 ^ 53 - 1) * 2 ^ 971)%Z by done. lia.
  - assert (0 < 2 ^ Zpos p <= 2 ^ 971)%Z.
    { split; [apply Z.pow_pos_nonneg; lia|apply Z.pow_le_mono_r; lia]. }
    set (T := (2 ^ 971)%Z) in *. nia.
  - assert (Hb : (0 < 2 ^ Zpos p)%Z) by (apply Z.pow_pos_nonneg; lia).
    destruct (round_half_even_spec (Zpos m * 100) (2 ^ Zpos p)
                ltac:(lia) Hb) as (_ & _ & H).
    assert (Zpos m * 100 / 2 ^ Zpos p <= Zpos m * 100)%Z.
    { apply Z.div_le_upper_bound; [done|]. nia. }
    assert (2 ^ 53 * 100 <= (2 ^ 53 - 1) * 2 ^ 971 * 100)%Z by done.
    lia.
Qed.

(** How far the hundredths are from a hundred times the value. *)
Lemma hundredths_spec m e :
  let t := inject_Z 100 * (inject_Z (Zpos m) * (2 # 1) ^ e) in
  let h := inject_Z (Py.hundredths m e) in
  - (1 # 2) <= t - h <= 1 # 2
  /\ (t - h == 1 # 2 \/ t - h == - (1 # 2) ->
      Z.even (Py.hundredths m e) = true).
Proof.
  cbv zeta. unfold Py.hundredths. destruct e as [|p|p].
  - change ((2 # 1) ^ 0) with 1. rewrite Z.pow_0_r, Z.mul_1_r.
    rewrite inject_Z_mult.
    assert (E : inject_Z 100 * (inject_Z (Zpos m) * 1)
                - inject_Z (Zpos m) * inject_Z 100 == 0) by ring.
    rewrite E. split; [done|]. intros [H|H]; discriminate H.
  - rewrite pow2_inject by lia. rewrite !inject_Z_mult.
    assert (E : inject_Z 100 * (inject_Z (Zpos m) * inject_Z (2 ^ Zpos p))
                - inject_Z (Zpos m) * inject_Z (2 ^ Zpos p) * inject_Z 100
                == 0) by ring.
    rewrite E. split; [done|]. intros [H|H]; discriminate H.
  - assert (Hb : (0 < 2 ^ Zpos p)%Z) by (apply Z.pow_pos_nonneg; lia).
    destruct (round_half_even_spec (Zpos m * 100) (2 ^ Zpos p)
                ltac:(lia) Hb) as (H1 & H2 & _).
    set (h := Py.round_half_even (Zpos m * 100) (2 ^ Zpos p)) in *.
    set (b := (2 ^ Zpos p)%Z) in *.
    change ((2 # 1) ^ Zneg p) with (/ (2 # 1) ^ Zpos p).
    rewrite pow2_inject by lia. fold b.
    assert (Hb' : 0 < inject_Z b)
      by (by change 0 with (inject_Z 0); rewrite <- Zlt_Qlt).
    assert (Ed : inject_Z 100 * (inject_Z (Zpos m) * / inject_Z b)
                 - inject_Z h
                 == inject_Z (Zpos m * 100 - h * b) / inject_Z b).
    { unfold Z.sub. rewrite inject_Z_plus, inject_Z_opp, !inject_Z_mult.
      field. lra. }
    rewrite Ed. set (c := (Zpos m * 100 - h * b)%Z) in *.
    assert (Hc1 : inject_Z (2 * c) <= inject_Z b)
      by (rewrite <- Zle_Qle; lia).
    assert (Hc2 : inject_Z (- b) <= inject_Z (2 * c))
      by (rewrite <- Zle_Qle; lia).
    rewrite inject_Z_mult in Hc1, Hc2. rewrite inject_Z_opp in Hc2.
    change (inject_Z 2) with (2 # 1) in *.
    split.
    + split.
      * apply Qle_shift_div_l; [done|]. lra.
      * apply Qle_shift_div_r; [done|]. lra.
    + intros H. apply H2.
      assert (Hx : inject_Z (2 * c) == inject_Z b
                   \/ inject_Z (2 * c) == - inject_Z b).
      { rewrite inject_Z_mult. change (inject_Z 2) with (2 # 1).
        destruct H as [H|H]; [left|right];
          apply (Qmult_inj_r _ _ (/ inject_Z b));
          try (apply Qinv_lt_0_compat in Hb'; lra);
          unfold Qdiv in H;
          [transitivity ((2 # 1) * (inject_Z c * / inject_Z b)); [ring|]
          |transitivity ((2 # 1) * (inject_Z c * / inject_Z b)); [ring|]];
          rewrite H; field; lra. }
      destruct Hx as [Hx|Hx].
      * rewrite inject_Z_injective in Hx. lia.
      * rewrite <- inject_Z_opp, inject_Z_injective in Hx. lia.
Qed.

(** [round(x, 2)] rounds to two places. *)
Lemma round2_spec x :
  valid_binary Float.prec Float.emax x = true ->
  rounded_to_two_places x (Py.round2 x).
Proof.
  intros V. unfold rounded_to_two_places.
  destruct x as [s|s| |s m e]; try done.
  - simpl. exists 0%Z. split; [done|]. split; [done|].
    split; [done|]. exists 0. split; [done|]. intros y u _ _.
    assert (E : Qabs (0 - (0 # 100)) == 0) by reflexivity.
    rewrite E. apply Qabs_nonneg.
  - destruct (Float.to_Q (S754_finite s m e)) as [q|] eqn:Hq; [|done].
    pose proof (to_Q_value _ _ _ _ Hq) as Eq.
    destruct (hundredths_spec m e) as [Hh Hev]. cbv zeta in Hh, Hev.
    pose proof (hundredths_nonneg m e) as H0.
    assert (Vp : valid_binary Float.prec Float.emax (S754_finite false m e)
                 = true) by done.
    pose proof (hundredths_bound m e Vp) as Hb.
    set (h := Py.hundredths m e) in *.
    exists (if s then - h else h)%Z.
    set (t := inject_Z 100 * (inject_Z (Zpos m) * (2 # 1) ^ e)) in *.
    assert (Ek : inject_Z 100 * q - inject_Z (if s then - h else h)%Z
                 == if s then - (t - inject_Z h) else t - inject_Z h).
    { rewrite Eq. destruct s.
      - rewrite inject_Z_opp. change (inject_Z (Zneg m)) with (- inject_Z (Zpos m)).
        unfold t. ring.
      - unfold t. ring. }
    split; [|split].
    + rewrite Ek. apply Qabs_Qle_condition. destruct s; lra.
    + rewrite Ek. intros Ht.
      assert (Z.even h = true).
      { apply Hev. revert Ht. destruct s.
        - rewrite Qabs_opp. apply Qabs_case; intros ? ?; [by left|right; lra].
        - apply Qabs_case; intros ? ?; [by left|right; lra]. }
      destruct s; [by rewrite Z.even_opp|done].
    + apply (of_ratio_nearest s h 100); [done|].
      apply of_ratio_finite; lia.
Qed.

End TwoPlaces.

(** ** The square root, correctly rounded *)

Lemma lor_one a :
  0 <= a -> Z.lor a 1 = if Z.even a then a + 1 else a.
Proof.
  intros Ha. destruct a as [|[p|p|]|p]; [done|done| |done|lia].
  change (Z.lor (Z.pos p~0) 1) with (Z.pos p~1). simpl. lia.
Qed.

(** Rounding to odd keeps the root on its side of every even
    integer. *)
Lemma rto_even n m E :
  0 <= n -> 0 < m -> 0 <= E -> Z.even E = true ->
  let a := statistics._integer_sqrt_of_frac_rto n m in
  (a <= E -> n <= E * E * m) /\ (E <= a -> E * E * m <= n).
Proof.
  intros Hn Hm HE Ev. unfold statistics._integer_sqrt_of_frac_rto.
  assert (H0 : 0 <= n / m) by (apply Z.div_pos; lia).
  pose proof (Z.sqrt_spec (n / m) H0) as [Hlo Hhi].
  pose proof (Z.sqrt_nonneg (n / m)) as Ha.
  set (a := Z.sqrt (n / m)) in *.
  pose proof (Z.mul_div_le n m Hm) as Hd.
  pose proof (Z.mul_succ_div_gt n m Hm) as Hd'.
  assert (Hlo' : a * a * m <= n) by nia.
  assert (Hhi' : n < (a + 1) * (a + 1) * m).
  { unfold Z.succ in *. nia. }
  assert (Hsq : forall x y, 0 <= x <= y -> x * x * m <= y * y * m).
  { intros x y Hxy. apply Z.mul_le_mono_nonneg_r; [lia|].
    apply Z.mul_le_mono_nonneg; lia. }
  apply Z.even_spec in Ev as [k Ek].
  destruct (Z.eqb_spec (a * a * m) n) as [Eq|Ne]; cbv zeta.
  - rewrite Z.lor_0_r. split; intros H.
    + rewrite <- Eq. apply Hsq. lia.
    + rewrite <- Eq. apply Hsq. lia.
  - rewrite lor_one by done.
    destruct (Z.even a) eqn:Ea.
    + apply Z.even_spec in Ea as [j Ej]. split; intros H.
      * pose proof (Hsq (a + 1) E ltac:(lia)). lia.
      * pose proof (Hsq E a ltac:(lia)). lia.
    + assert (Oa : Z.odd a = true) by by rewrite <- Z.negb_even, Ea.
      apply Z.odd_spec in Oa as [j Ej]. split; intros H.
      * pose proof (Hsq (a + 1) E ltac:(lia)). lia.
      * pose proof (Hsq E a ltac:(lia)). lia.
Qed.

Lemma bit_length_bounds n :
  0 < n -> 2 ^ (Py.bit_length n - 1) <= n < 2 ^ Py.bit_length n.
Proof.
  intros Hn. unfold Py.bit_length.
  destruct (Z.eqb_spec n 0); [lia|]. rewrite Z.abs_eq by lia.
  replace (Z.log2 n + 1 - 1) with (Z.log2 n) by lia.
  pose proof (Z.log2_spec n Hn). unfold Z.succ in *. lia.
Qed.

(** The scaled root has at least 55 bits. *)
Lemma rto_large N M :
  0 < N -> 0 < M -> 2 ^ 108 * M <= N ->
  2 ^ 54 <= statistics._integer_sqrt_of_frac_rto N M.
Proof.
  intros HN HM H.
  destruct (rto_bounds N M ltac:(lia) HM) as (_ & _ & Hr & _).
  enough (2 ^ 54 <= Z.sqrt (N / M)) by lia.
  change (2 ^ 54) with (Z.sqrt (2 ^ 108)).
  apply Z.sqrt_le_mono. apply Z.div_le_lower_bound; lia.
Qed.

(** The fraction scaled by [4^q], [q] being the exponent
    [_float_sqrt_of_frac] computes, is at least [2^108]. *)
Lemma sqrt_scale n m :
  0 < n -> 0 < m ->
  let q := (Py.bit_length n - Py.bit_length m - 109) / 2 in
  2 ^ 108 * (m * 2 ^ Z.max (2 * q) 0) <= n * 2 ^ Z.max (- (2 * q)) 0.
Proof.
  intros Hn Hm q.
  pose proof (bit_length_bounds n Hn) as [Hn1 _].
  pose proof (bit_length_bounds m Hm) as [_ Hm2].
  pose proof (bit_length_nonneg m) as Hbm.
  assert (Hbn : 1 <= Py.bit_length n).
  { unfold Py.bit_length. destruct (Z.eqb_spec n 0); [lia|].
    pose proof (Z.log2_nonneg (Z.abs n)). lia. }
  assert (Hq : 2 * q <= Py.bit_length n - Py.bit_length m - 109).
  { subst q. pose proof (Z.mul_div_le (Py.bit_length n
                                       - Py.bit_length m - 109) 2).
    lia. }
  set (bn := Py.bit_length n) in *. set (bm := Py.bit_length m) in *.
  assert (HP : 0 < 2 ^ Z.max (- (2 * q)) 0) by (apply Z.pow_pos_nonneg; lia).
  assert (HR : 0 < 2 ^ Z.max (2 * q) 0) by (apply Z.pow_pos_nonneg; lia).
  assert (Hpow : 2 ^ 108 * 2 ^ bm * 2 ^ Z.max (2 * q) 0
                 <= 2 ^ (bn - 1) * 2 ^ Z.max (- (2 * q)) 0).
  { rewrite <- !Z.pow_add_r by lia. apply Z.pow_le_mono_r; lia. }
  set (P := 2 ^ Z.max (- (2 * q)) 0) in *.
  set (R := 2 ^ Z.max (2 * q) 0) in *.
  set (A := 2 ^ (bn - 1)) in *. set (B := 2 ^ bm) in *.
  assert (2 ^ 108 * (m * R) <= 2 ^ 108 * (B * R)) by nia.
  assert (A * P <= n * P) by nia.
  lia.
Qed.

Lemma even_times_pow2 x d : 0 < d -> Z.even (x * 2 ^ d) = true.
Proof.
  intros Hd. rewrite Z.even_mul.
  replace d with (Z.succ (d - 1)) by lia.
  rewrite Z.pow_succ_r by lia. rewrite Z.even_mul. simpl.
  apply orb_true_r.
Qed.

Section RootNearest.

Local Open Scope Q_scope.

(** The conversion of [a * 2^q], for [a] the root rounded to odd with
    at least 55 bits, returns a double nearest to the root. *)
Lemma sqrt_core (vq : Q) (a q num : Z) (den : positive) :
  (2 ^ 54 <= a)%Z -> (0 < num)%Z ->
  num # den == inject_Z a * (2 # 1) ^ q ->
  (forall E : Z, (0 <= E)%Z -> Z.even E = true ->
     ((a <= E)%Z ->
      vq <= inject_Z E * (2 # 1) ^ q * (inject_Z E * (2 # 1) ^ q))
     /\ ((E <= a)%Z ->
         inject_Z E * (2 # 1) ^ q * (inject_Z E * (2 # 1) ^ q) <= vq)) ->
  Float.is_finite (Float.of_ratio false num (Zpos den)) = true ->
  nearest_double_sqrt vq (Float.of_ratio false num (Zpos den)).
Proof.
  intros H54 Hnum HX HK Hfin.
  destruct (of_ratio_steps false num den Hnum)
    as (e1 & m & m' & t & He1 & HXt & Hm1 & Hm2 & Hmm & Hr & Hm & Hnorm & E).
  rewrite E in *.
  destruct (grid_float_value false m' e1) as (V & v & Ev & Hv);
    [lia|done|destruct Hnorm; [by left|right; lia]|done|].
  pose proof (pow2_pos e1) as Hg. pose proof (pow2_pos q) as Hs.
  (* the step of the grid against the scale of the root *)
  assert (Ha54 : inject_Z (2 ^ 54) <= inject_Z a) by by rewrite <- Zle_Qle.
  assert (Hm53 : inject_Z m + 1 <= inject_Z (2 ^ 53)).
  { assert (H : inject_Z (m + 1) <= inject_Z (2 ^ 53))
      by (rewrite <- Zle_Qle; lia).
    by rewrite inject_Z_plus in H. }
  change (inject_Z (2 ^ 54)) with ((2 # 1) * inject_Z (2 ^ 53)) in Ha54.
  assert (H53 : 0 < inject_Z (2 ^ 53)) by done.
  assert (Hat : inject_Z a * (2 # 1) ^ q == t * (2 # 1) ^ e1)
    by by rewrite <- HX, HXt.
  assert (Hq1 : (q + 1 < e1)%Z).
  { apply (Qpower_lt_compat_l_inv (2 # 1)); [|done].
    rewrite pow2_add. change ((2 # 1) ^ 1) with (2 # 1).
    set (T := inject_Z (2 ^ 53)) in *. set (s := (2 # 1) ^ q) in *.
    set (g := (2 # 1) ^ e1) in *.
    assert (T * (s * (2 # 1)) < T * g); [nra|].
    by apply Qmult_lt_l in H. }
  set (d := (e1 - q - 1)%Z).
  assert (Hd : (0 < d)%Z) by (subst d; lia).
  assert (Hgs : (2 # 1) ^ e1 == (2 # 1) * inject_Z (2 ^ d) * (2 # 1) ^ q).
  { rewrite <- pow2_inject by lia.
    change (2 # 1) with ((2 # 1) ^ 1) at 2.
    rewrite <- !pow2_add. by replace (1 + d + q)%Z with e1 by (subst d; lia). }
  assert (HW : 0 < inject_Z (2 ^ d)).
  { change 0 with (inject_Z 0). rewrite <- Zlt_Qlt.
    apply Z.pow_pos_nonneg; lia. }
  set (g := (2 # 1) ^ e1) in *. set (s := (2 # 1) ^ q) in *.
  set (W := inject_Z (2 ^ d)) in *.
  (* the three even integers the root is compared with *)
  assert (Kup : vq <= (inject_Z m' + (1 # 2)) * g
                      * ((inject_Z m' + (1 # 2)) * g)).
  { destruct (HK ((2 * m' + 1) * 2 ^ d)%Z) as [H _].
    - apply Z.mul_nonneg_nonneg; [lia|]. apply Z.pow_nonneg. lia.
    - by apply even_times_pow2.
    - rewrite inject_Z_mult, inject_Z_plus, inject_Z_mult in H.
      change (inject_Z 2) with (2 # 1) in H.
      change (inject_Z 1) with 1 in H. fold W s in H.
      assert (Es : ((2 # 1) * inject_Z m' + 1) * W * s
                   == (inject_Z m' + (1 # 2)) * g) by (rewrite Hgs; ring).
      rewrite Es in H. apply H.
      rewrite Zle_Qle, inject_Z_mult, inject_Z_plus, inject_Z_mult.
      change (inject_Z 2) with (2 # 1). change (inject_Z 1) with 1.
      fold W.
      assert (inject_Z a * s <= ((2 # 1) * inject_Z m' + 1) * W * s).
      { rewrite Es, Hat. nra. }
      apply (Qmult_le_r _ _ s); done. }
  assert (Kdown : (1 <= m')%Z ->
            (inject_Z m' - (1 # 2)) * g * ((inject_Z m' - (1 # 2)) * g)
            <= vq).
  { intros H1.
    destruct (HK ((2 * m' - 1) * 2 ^ d)%Z) as [_ H].
    - apply Z.mul_nonneg_nonneg; [lia|]. apply Z.pow_nonneg. lia.
    - by apply even_times_pow2.
    - unfold Z.sub in H.
      rewrite inject_Z_mult, inject_Z_plus, inject_Z_mult in H.
      change (inject_Z 2) with (2 # 1) in H.
      change (inject_Z (-1)) with (- (1)) in H. fold W s in H.
      assert (Es : ((2 # 1) * inject_Z m' + - (1)) * W * s
                   == (inject_Z m' - (1 # 2)) * g) by (rewrite Hgs; ring).
      rewrite Es in H. apply H.
      rewrite Zle_Qle, inject_Z_mult, inject_Z_plus, inject_Z_mult.
      change (inject_Z 2) with (2 # 1). change (inject_Z (-1)) with (- (1)).
      fold W.
      assert (((2 # 1) * inject_Z m' + - (1)) * W * s <= inject_Z a * s).
      { rewrite Es, Hat. nra. }
      apply (Qmult_le_r _ _ s); done. }
  assert (Kon : m' = m -> inject_Z m' * g * (inject_Z m' * g) <= vq).
  { intros ->.
    destruct (HK (2 * m * 2 ^ d)%Z) as [_ H].
    - apply Z.mul_nonneg_nonneg; [lia|]. apply Z.pow_nonneg. lia.
    - by apply even_times_pow2.
    - rewrite !inject_Z_mult in H. change (inject_Z 2) with (2 # 1) in H.
      fold W s in H.
      assert (Es : (2 # 1) * inject_Z m * W * s == inject_Z m * g)
        by (rewrite Hgs; ring).
      rewrite Es in H. apply H.
      rewrite Zle_Qle, !inject_Z_mult. change (inject_Z 2) with (2 # 1).
      fold W.
      assert ((2 # 1) * inject_Z m * W * s <= inject_Z a * s).
      { rewrite Es, Hat. nra. }
      apply (Qmult_le_r _ _ s); done. }
  assert (Hm'0 : 0 <= inject_Z m').
  { change 0 with (inject_Z 0). rewrite <- Zle_Qle. lia. }
  change (inject_Z (if false then (- m')%Z else m')) with (inject_Z m') in Hv.
  split; [done|]. exists v. split; [done|]. split; [rewrite Hv; nra|].
  intros y u Vy Hu Hu0. rewrite Hv.
  pose proof (double_on_grid y u e1 Vy Hu) as Hgrid. fold g in Hgrid.
  assert (Hlow : u <= (inject_Z m' - 1) * g -> (1 <= m')%Z ->
                 (inject_Z m' * g + u) * (inject_Z m' * g + u)
                 <= (4 # 1) * vq).
  { intros Hle H1. specialize (Kdown H1).
    assert (H1' : 1 <= inject_Z m')
      by (change 1 with (inject_Z 1); by rewrite <- Zle_Qle).
    set (P := (inject_Z m' - (1 # 2)) * g) in *.
    assert (0 <= P) by (unfold P; nra).
    assert (inject_Z m' * g + u <= (2 # 1) * P) by (unfold P; nra).
    assert (0 <= inject_Z m' * g + u) by nra.
    nra. }
  destruct Hgrid as [[k Hk]|(He & Hu1 & Hu2)].
  - split; intros Hlt.
    + assert (Hk' : inject_Z m' + 1 <= inject_Z k).
      { assert (H : (m' + 1 <= k)%Z).
        { destruct (Z.lt_ge_cases m' k) as [|Hge]; [lia|].
          assert (inject_Z k <= inject_Z m') by by rewrite <- Zle_Qle.
          rewrite Hk in Hlt. nra. }
        rewrite Zle_Qle, inject_Z_plus in H. done. }
      set (P := (inject_Z m' + (1 # 2)) * g) in *.
      assert (0 <= P) by (unfold P; nra).
      assert ((2 # 1) * P <= inject_Z m' * g + u)
        by (rewrite Hk; unfold P; nra).
      nra.
    + assert (Hk' : (k <= m' - 1)%Z).
      { destruct (Z.lt_ge_cases k m') as [|Hge]; [lia|].
        assert (inject_Z m' <= inject_Z k) by by rewrite <- Zle_Qle.
        rewrite Hk in Hlt. nra. }
      assert (Hk0 : (0 <= k)%Z).
      { destruct (Z.lt_ge_cases k 0) as [Hneg|]; [|done].
        assert (inject_Z k <= - (1)).
        { change (- (1)) with (inject_Z (-1)). rewrite <- Zle_Qle. lia. }
        rewrite Hk in Hu0. nra. }
      apply Hlow; [|lia]. rewrite Hk.
      assert (inject_Z k <= inject_Z m' - 1).
      { rewrite Zle_Qle in Hk'. unfold Z.sub in Hk'.
        by rewrite inject_Z_plus in Hk'. }
      nra.
  - assert (H52 : (2 ^ 52 <= m)%Z) by (destruct Hnorm; lia).
    assert (H52' : inject_Z (2 ^ 52) <= inject_Z m) by by rewrite <- Zle_Qle.
    assert (Hmm' : inject_Z m <= inject_Z m') by (rewrite <- Zle_Qle; lia).
    set (T := inject_Z (2 ^ 52)) in *.
    split; intros Hlt; [nra|].
    destruct (decide (m' = m)) as [Em|Em].
    + specialize (Kon Em). nra.
    + assert (Em' : inject_Z m' == inject_Z m + 1).
      { replace m' with (m + 1)%Z by lia. by rewrite inject_Z_plus. }
      apply Hlow; [|lia]. rewrite Em'. nra.
Qed.

End RootNearest.

(** [_float_sqrt_of_frac] with both branches written as one. *)
Lemma float_sqrt_of_frac_eq n m :
  let q := (Py.bit_length n - Py.bit_length m - 109) / 2 in
  statistics._float_sqrt_of_frac n m =
    Py.int_true_div
      (statistics._integer_sqrt_of_frac_rto
         (n * 2 ^ Z.max (- (2 * q)) 0) (m * 2 ^ Z.max (2 * q) 0)
       * 2 ^ Z.max q 0)
      (2 ^ Z.max (- q) 0).
Proof.
  intros q. unfold statistics._float_sqrt_of_frac. fold q.
  destruct (Z.leb_spec 0 q) as [Hq|Hq].
  - rewrite !Z.shiftl_mul_pow2 by lia.
    replace (Z.max (- (2 * q)) 0) with 0 by lia.
    replace (Z.max (2 * q) 0) with (2 * q) by lia.
    replace (Z.max q 0) with q by lia.
    replace (Z.max (- q) 0) with 0 by lia.
    by rewrite Z.pow_0_r, Z.mul_1_r.
  - rewrite !Z.shiftl_mul_pow2 by lia.
    replace (Z.max (- (2 * q)) 0) with (-2 * q) by lia.
    replace (Z.max (2 * q) 0) with 0 by lia.
    replace (Z.max q 0) with 0 by lia.
    replace (Z.max (- q) 0) with (- q) by lia.
    by rewrite Z.pow_0_r, !Z.mul_1_r, Z.mul_1_l.
Qed.

Section RootOfFraction.

Local Open Scope Q_scope.

Lemma pow2_split e :
  (2 # 1) ^ e * inject_Z (2 ^ Z.max (- e) 0) == inject_Z (2 ^ Z.max e 0).
Proof.
  rewrite <- !pow2_inject by lia. rewrite <- pow2_add.
  by replace (e + Z.max (- e) 0)%Z with (Z.max e 0) by lia.
Qed.

(** [_float_sqrt_of_frac] returns a double nearest to the root. *)
Lemma float_sqrt_of_frac_nearest (n : Z) (m : positive) r :
  (0 <= n)%Z ->
  statistics._float_sqrt_of_frac n (Zpos m) = Ok r ->
  nearest_double_sqrt (n # m) r.
Proof.
  intros Hn. rewrite float_sqrt_of_frac_eq. cbv zeta.
  set (q := ((Py.bit_length n - Py.bit_length (Zpos m) - 109) / 2)%Z).
  set (N' := (n * 2 ^ Z.max (- (2 * q)) 0)%Z).
  set (M' := (Zpos m * 2 ^ Z.max (2 * q) 0)%Z).
  set (a := statistics._integer_sqrt_of_frac_rto N' M').
  assert (HP2 : (0 < 2 ^ Z.max (- (2 * q)) 0)%Z)
    by (apply Z.pow_pos_nonneg; lia).
  assert (HR2 : (0 < 2 ^ Z.max (2 * q) 0)%Z)
    by (apply Z.pow_pos_nonneg; lia).
  assert (HP : (0 < 2 ^ Z.max (- q) 0)%Z) by (apply Z.pow_pos_nonneg; lia).
  assert (HR : (0 < 2 ^ Z.max q 0)%Z) by (apply Z.pow_pos_nonneg; lia).
  assert (HM' : (0 < M')%Z) by (subst M'; nia).
  destruct (decide (n = 0%Z)) as [E0|Hn0].
  { assert (a = 0%Z) as ->.
    { subst a N'. rewrite E0, Z.mul_0_l.
      unfold statistics._integer_sqrt_of_frac_rto.
      by rewrite Zdiv_0_l. }
    rewrite Z.mul_0_l. unfold Py.int_true_div.
    change (0 <? 0)%Z with false. change (Z.abs 0) with 0%Z.
    rewrite of_ratio_zero by done. simpl. intros [= <-].
    split; [done|]. exists 0. split; [done|]. split; [done|].
    intros y u _ _ Hu. rewrite E0.
    assert (E : (4 # 1) * (0 # m) == 0) by reflexivity.
    rewrite E. split; intros; nra. }
  assert (HN' : (0 < N')%Z) by (subst N'; nia).
  pose proof (sqrt_scale n (Zpos m) ltac:(lia) ltac:(lia)) as Hsc.
  cbv zeta in Hsc. fold q N' M' in Hsc.
  pose proof (rto_large N' M' HN' HM' Hsc) as H54. fold a in H54.
  set (num := (a * 2 ^ Z.max q 0)%Z).
  assert (Hnum : (0 < num)%Z) by (subst num; nia).
  destruct (2 ^ Z.max (- q) 0)%Z as [|den|den] eqn:Eden; [lia| |lia].
  unfold Py.int_true_div. rewrite (Z.abs_eq num) by lia.
  assert ((num <? 0)%Z = false) as -> by (apply Z.ltb_ge; lia).
  destruct (Float.is_finite _) eqn:Hfin; [|done]. intros [= <-].
  apply (sqrt_core (n # m) a q num den H54 Hnum); [| |done].
  - rewrite Qmake_Qdiv. unfold num. rewrite inject_Z_mult.
    pose proof (pow2_split q) as Hs. rewrite Eden in Hs.
    assert (0 < inject_Z (Zpos den)) by done.
    rewrite <- Hs. field. lra.
  - intros E HE Ev.
    destruct (rto_even N' M' E ltac:(lia) HM' HE Ev) as [H1 H2].
    fold a in H1, H2.
    pose proof (pow2_split (2 * q)) as Hs2.
    assert (Hss : (2 # 1) ^ q * (2 # 1) ^ q == (2 # 1) ^ (2 * q)).
    { rewrite <- pow2_add. by replace (q + q)%Z with (2 * q)%Z by lia. }
    assert (Hv : (n # m) * inject_Z (Zpos m) == inject_Z n).
    { rewrite Qmake_Qdiv. field. done. }
    assert (Hm0 : 0 < inject_Z (Zpos m)) by done.
    assert (HP2' : 0 < inject_Z (2 ^ Z.max (- (2 * q)) 0))
      by (change 0 with (inject_Z 0); by rewrite <- Zlt_Qlt).
    set (s := (2 # 1) ^ q) in *. set (s2 := (2 # 1) ^ (2 * q)) in *.
    set (P2 := inject_Z (2 ^ Z.max (- (2 * q)) 0)) in *.
    set (R2 := inject_Z (2 ^ Z.max (2 * q) 0)) in *.
    set (mm := inject_Z (Zpos m)) in *.
    assert (EN : inject_Z N' == (n # m) * (mm * P2)).
    { unfold N'. rewrite inject_Z_mult. fold P2. rewrite <- Hv. ring. }
    assert (EM : inject_Z (E * E * M')
                 == inject_Z E * s * (inject_Z E * s) * (mm * P2)).
    { unfold M'. rewrite !inject_Z_mult. fold mm R2.
      rewrite <- Hs2, <- Hss. ring. }
    assert (Hpos : 0 < mm * P2) by nra.
    split; intros H.
    + specialize (H1 H). rewrite Zle_Qle, EN, EM in H1.
      by apply Qmult_le_r in H1.
    + specialize (H2 H). rewrite Zle_Qle, EN, EM in H2.
      by apply Qmult_le_r in H2.
Qed.

End RootOfFraction.

(** ** The baseline, to the last bit *)

Section BaselineRounding.

Import statistics.

Local Open Scope Q_scope.

Lemma nearest_double_proper q q' r :
  q == q' -> nearest_double q r -> nearest_double q' r.
Proof.
  intros E (V & v & Hv & H). split; [done|]. exists v. split; [done|].
  intros y u Vy Hu. rewrite <- E. by apply (H y u).
Qed.

Lemma nearest_double_sqrt_proper q q' r :
  q == q' -> nearest_double_sqrt q r -> nearest_double_sqrt q' r.
Proof.
  intros E (V & v & Hv & H0 & H). split; [done|]. exists v.
  split; [done|]. split; [done|].
  intros y u Vy Hu Hu0. rewrite <- E. by apply (H y u).
Qed.

(** [float(q)] is a double nearest to the fraction [q]. *)
Lemma float_of_fraction_nearest q m :
  0 <= q -> float_of_fraction q = Ok m -> nearest_double q m.
Proof.
  intros H0. unfold float_of_fraction, Py.int_true_div.
  pose proof (Qred_correct q) as E. rewrite <- E in H0.
  destruct (Qred q) as [a b]. cbn [Qnum Qden].
  assert (Ha : (0 <= a)%Z) by (unfold Qle in H0; simpl in H0; lia).
  assert ((a <? 0)%Z = false) as -> by (apply Z.ltb_ge; lia).
  rewrite Z.abs_eq by done.
  destruct (Float.is_finite _) eqn:F; [|done]. intros [= <-].
  apply (nearest_double_proper (a # b)); [done|].
  by apply (of_ratio_nearest false a b).
Qed.

(** The deviation is a double nearest to the root of the variance. *)
Lemma float_sqrt_nearest q s :
  0 <= q -> float_sqrt q = Ok s -> nearest_double_sqrt q s.
Proof.
  intros H0. unfold float_sqrt.
  pose proof (Qred_correct q) as E. rewrite <- E in H0.
  destruct (Qred q) as [a b]. cbn [Qnum Qden].
  assert (Ha : (0 <= a)%Z) by (unfold Qle in H0; simpl in H0; lia).
  intros H. apply (nearest_double_sqrt_proper (a # b)); [done|].
  by apply float_sqrt_of_frac_nearest.
Qed.

End BaselineRounding.

Section BaselineExact.

Variable self : TrafficMonitor.

(** The statistics of stored totals that are finite and not negative,
    against their exact values. *)
Lemma calculate_rounded records xs qs :
  total_bytes_of records = Ok (map JNum xs) ->
  Forall (fun x => byte_total x = true) xs ->
  exact_values xs = Some qs ->
  (1 <= length xs)%nat ->
  exists m s,
    calculate_historical_stats self (JArr records) =
      Ok {[ "total_traffic" :=
              {| mean := m; stdev := s; count := length records |} ]}
    /\ nearest_double (arithmetic_mean qs) m
    /\ (length xs = 1%nat -> s = Float.zero)
    /\ ((2 <= length xs)%nat ->
        nearest_double_sqrt (sample_variance qs) s).
Proof.
  intros Ht Hx Hq Hn.
  destruct (exact_values_bound xs Hx) as (qs' & Hq' & Hqs).
  rewrite Hq in Hq'. injection Hq' as <-.
  pose proof (exact_values_length _ _ Hq) as Hl.
  pose proof (total_bytes_of_length _ _ Ht) as Hr.
  rewrite length_map in Hr.
  destruct (mean_bound _ qs ltac:(lia) Hqs) as [Hm0 Hm1].
  destruct (float_of_fraction_returns (arithmetic_mean qs) (conj Hm0 Hm1))
    as [m Em].
  pose proof (float_of_fraction_nearest _ _ Hm0 Em) as Nm.
  destruct (decide (length xs = 1%nat)) as [H1|H1].
  - exists m, Float.zero. split; [|split; [done|split; [done|lia]]].
    unfold calculate_historical_stats.
    assert (Py.truthy (JArr records) = true) as ->.
    { simpl. rewrite bool_decide_false by lia. done. }
    simpl. rewrite Ht. simpl.
    rewrite (mean_finite xs qs), Em by (done || lia). simpl.
    rewrite length_map, H1. simpl. by rewrite <- Hr, H1.
  - destruct (variance_bound _ qs ltac:(lia) Hqs) as [Hv0 Hv1].
    destruct (float_sqrt_returns (sample_variance qs) Hv0) as [s Es].
    { by rewrite <- inject_Z_mult in Hv1 |- *. }
    exists m, s. split; [|split; [done|split; [lia|]]].
    + apply (calculate_many self records xs qs); (done || lia).
    + intros _. by apply float_sqrt_nearest.
Qed.

End BaselineExact.

(** ** The score of an alert *)

Lemma alert_fields_as_specified a : alert_fields_ok a -> alert_as_specified a.
Proof.
  intros [T Z]. split; [done|]. rewrite Z. apply round2_spec, div_valid.
Qed.

Lemma payload_ok_as_specified p : payload_ok p -> payload_as_specified p.
Proof. destruct p; [apply alert_fields_as_specified|done]. Qed.

(** * The claims *)

(** ** C1: the spike decision *)

(** C1.  For every measurement and baseline, [detect_spike] returns
    [(false, 0.0)] when the baseline is absent or its standard deviation
    equals 0; otherwise the z-score is [(total_bytes - mean) / stdev] and
    the spike flag is [total_bytes > mean + 2.0 * stdev].  With mean 1000
    and standard deviation 100, a total of 1250 gives z-score 2.5 and a
    spike, a total of 1150 gives no spike. *)
Theorem detect_spike_decision :
  (forall self current_data hs w,
     (detect_spike self current_data hs w).1 =
       Ok (match hs !! "total_traffic" with
           | None => (false, Float.zero)
           | Some b =>
               if Float.eqb (stdev b) Float.zero then (false, Float.zero)
               else (Float.ltb
                       (Float.add (mean b)
                                  (Float.mul (Float.of_Z 2) (stdev b)))
                       (total_bytes current_data),
                     Float.div
                       (Float.sub (total_bytes current_data) (mean b))
                       (stdev b))
           end))
  /\ (forall self w,
        (detect_spike self (sample_measurement 1250) sample_baseline w).1
        = Ok (true, Float.of_ratio false 5 2))
  /\ (forall self w,
        (detect_spike self (sample_measurement 1150) sample_baseline w).1
        = Ok (false, Float.of_ratio false 3 2)).
Proof.
  split_and!.
  - intros self current_data hs w.
    destruct (hs !! "total_traffic") as [b|] eqn:H.
    + destruct (Float.eqb (stdev b) Float.zero) eqn:E.
      * by eapply detect_spike_flat.
      * by eapply detect_spike_scored.
    + by apply detect_spike_no_baseline.
  - intros self w.
    by rewrite (detect_spike_scored self _ sample_baseline
                  {| mean := Float.of_Z 1000; stdev := Float.of_Z 100;
                     count := 3 |} w).
  - intros self w.
    by rewrite (detect_spike_scored self _ sample_baseline
                  {| mean := Float.of_Z 1000; stdev := Float.of_Z 100;
                     count := 3 |} w).
Qed.

(** ** C2: byte quantities *)

(** C2.  The claim is what the units ask for, and the code departs
    from it on the decimal spellings: the pattern of [convert_to_bytes]
    admits kb, mb, gb and tb, the table of multipliers holds none of
    them and falls back to 1, so ["12 KB"] is read as 12 bytes, not as
    12 * 1024, while ["12 KiB"] is read as 12 * 1024. *)
Theorem kb_is_not_scaled :
  Re.match_bytes "12 kb" = Some ("12", "kb")
  /\ Forall (fun u => byte_multipliers !! u = None) ["kb"; "mb"; "gb"; "tb"]
  /\ convert_to_bytes "12 KB" = Ok (Float.of_Z 12)
  /\ convert_to_bytes "12 KB" <> Ok (Float.of_Z (12 * 1024 ^ 1))
  /\ convert_to_bytes "12 KiB" = Ok (Float.of_Z (12 * 1024 ^ 1)).
Proof.
  split_and!; [by vm_compute|by repeat constructor|by vm_compute|
               by vm_compute|by vm_compute].
Qed.

(** ** C3: the converter and errors *)

(** C3, as the claim states it, fails: a run with two points matches
    the pattern and [float] rejects it. *)
Lemma two_points_raise :
  convert_to_bytes "1.2.3 KiB" = Raise ValueError
  /\ ~ returns (convert_to_bytes "1.2.3 KiB").
Proof.
  split; [by vm_compute|]. intros [x H]. by vm_compute in H.
Qed.

(** C3, amended.  [convert_to_bytes] returns 0.0 for every string that,
    stripped and lower-cased, does not start with a run of digits and
    points, optional blanks and a unit spelling.  When it does, the
    converter returns normally if the run is a decimal literal (digits
    with at most one point) and raises [ValueError] otherwise.  The
    sample parser catches that error and skips the line, so
    [get_current_traffic_data] returns normally for every output of the
    counter source. *)
Theorem convert_to_bytes_faults (s : string) :
  (~ quantity_text (Str.lower (Str.strip s)) ->
   convert_to_bytes s = Ok Float.zero)
  /\ (forall mag ws u rest,
        Str.lower (Str.strip s) = mag +:+ ws +:+ u +:+ rest ->
        number_token mag -> blanks ws -> u ∈ unit_forms ->
        if decimal_literal mag then returns (convert_to_bytes s)
        else convert_to_bytes s = Raise ValueError)
  /\ (forall self w, returns (get_current_traffic_data self w).1).
Proof.
  split_and!.
  - intros H. unfold convert_to_bytes. by rewrite match_bytes_none.
  - intros mag ws u rest Ht Hmag Hws Hu. unfold convert_to_bytes.
    rewrite Ht, (match_bytes_complete mag ws u rest) by done.
    pose proof (py_float_literal mag (proj2 Hmag)) as H.
    destruct (decimal_literal mag).
    + destruct H as [v ->]. simpl. by eexists.
    + by rewrite H.
  - intros self w. rewrite get_current_traffic_data_fst. by eexists.
Qed.

Lemma convert_to_bytes_faults_witness :
  returns (convert_to_bytes "500.00 KiB")
  /\ convert_to_bytes "1.2.3 KiB" = Raise ValueError
  /\ convert_to_bytes "" = Ok Float.zero.
Proof.
  split_and!.
  - apply (proj1 (proj2 (convert_to_bytes_faults "500.00 KiB"))
             "500.00" " " "kib" ""); [reflexivity| |reflexivity|].
    + split; [discriminate|reflexivity].
    + unfold unit_forms. rewrite !elem_of_cons. tauto.
  - apply (proj1 (proj2 (convert_to_bytes_faults "1.2.3 KiB"))
             "1.2.3" " " "kib" ""); [reflexivity| |reflexivity|].
    + split; [discriminate|reflexivity].
    + unfold unit_forms. rewrite !elem_of_cons. tauto.
  - apply (proj1 (convert_to_bytes_faults "")).
    intros (mag & ws & u & rest & Ht & [Hne Hmag] & _).
    destruct mag as [|c mag]; [done|]. discriminate.
Defined.

(** ** C4: the history window *)

(** C4.  Start from any loaded history and append any non-empty
    sequence of measurements, the history file being writable.  The
    records loaded and appended, in that order, then split into the
    oldest ones, which are gone, and the most recent ones, which are
    both what the last append returns and what the file holds; there
    are never more than 20 of them. *)
Theorem history_window_fifo (self : TrafficMonitor) (w : world)
    (h : list json) (r : TrafficData) (rs : list TrafficData) :
  loaded_records (history_file w) = Some h ->
  history_writable w = true ->
  let all := h ++ map current_record (r :: rs) in
  exists evicted kept w',
    all = evicted ++ kept
    /\ length kept = (length all `min` 20)%nat
    /\ (length kept <= 20)%nat
    /\ add_all self (r :: rs) w = (Ok kept, w')
    /\ history_file w' = FileJSON (JArr kept).
Proof.
  intros H W all.
  destruct (add_all_spec self rs r w h H W) as (w' & E & F & _).
  fold all in E, F.
  exists (take (length all - MAX_HISTORY) all),
         (Py.last_n MAX_HISTORY all), w'.
  split_and!; [by rewrite last_n_suffix|apply last_n_length| |done|done].
  rewrite last_n_length. unfold MAX_HISTORY. lia.
Qed.

Lemma history_window_fifo_witness :
  exists evicted kept w',
    sample_history (seqZ 1 25)
      ++ map current_record [sample_measurement 26; sample_measurement 27]
    = evicted ++ kept
    /\ length kept = 20%nat
    /\ (length kept <= 20)%nat
    /\ add_all sample_monitor [sample_measurement 26; sample_measurement 27]
         over_capacity_world
       = (Ok kept, w')
    /\ history_file w' = FileJSON (JArr kept).
Proof.
  apply (history_window_fifo sample_monitor over_capacity_world
           (sample_history (seqZ 1 25)) (sample_measurement 26)
           [sample_measurement 27]); reflexivity.
Defined.

(** ** C5: the baseline *)

(** C5, as the claim states it, fails: it is not every history that
    has statistics.  A quantity too large for a double is read as plus
    infinity, and a history that holds such a total makes
    [calculate_historical_stats] raise; so does a history whose
    deviation lies beyond the largest double. *)
Lemma infinite_total_raises :
  convert_to_bytes huge_quantity = Ok (S754_infinity false)
  /\ Py.getitem infinite_record "total_bytes"
     = Ok (JNum (S754_infinity false))
  /\ calculate_historical_stats sample_monitor
       (JArr (infinite_record :: sample_history [1000]))
     = Raise AttributeError
  /\ ~ returns (calculate_historical_stats sample_monitor
                  (JArr (infinite_record :: sample_history [1000])))
  /\ calculate_historical_stats sample_monitor
       (JArr (sample_history [- max_double; max_double]))
     = Raise OverflowError.
Proof.
  split_and!; [by vm_compute|by vm_compute|by vm_compute| |by vm_compute].
  intros [x H]. by vm_compute in H.
Qed.

(** C5, amended.  [calculate_historical_stats] returns the empty
    dictionary on an empty history.  On a history of [n >= 1] records
    whose totals are finite doubles that are not negative, with the
    exact values [qs], it returns the count [n]; as the mean a double
    nearest to the arithmetic mean of [qs]; and as the standard
    deviation 0 when [n = 1] and, when [n >= 2], a double nearest to the
    square root of the sample variance of [qs] with divisor [n - 1]. *)
Theorem baseline_statistics (self : TrafficMonitor) :
  calculate_historical_stats self (JArr []) = Ok ∅
  /\ (forall records xs qs,
        total_bytes_of records = Ok (map JNum xs) ->
        Forall (fun x => byte_total x = true) xs ->
        exact_values xs = Some qs ->
        (1 <= length xs)%nat ->
        exists m s,
          calculate_historical_stats self (JArr records) =
            Ok {[ "total_traffic" :=
                    {| mean := m; stdev := s; count := length records |} ]}
          /\ nearest_double (arithmetic_mean qs) m
          /\ (length xs = 1%nat -> s = Float.zero)
          /\ ((2 <= length xs)%nat ->
              nearest_double_sqrt (sample_variance qs) s)).
Proof.
  split.
  - apply calculate_empty.
  - apply calculate_rounded.
Qed.

Lemma baseline_statistics_witness :
  (exists m s,
     calculate_historical_stats sample_monitor
       (JArr (sample_history [900; 1000; 1100])) =
       Ok {[ "total_traffic" := {| mean := m; stdev := s; count := 3 |} ]}
     /\ nearest_double
          (arithmetic_mean [inject_Z 900; inject_Z 1000; inject_Z 1100]) m
     /\ (3%nat = 1%nat -> s = Float.zero)
     /\ ((2 <= 3)%nat ->
         nearest_double_sqrt
           (sample_variance [inject_Z 900; inject_Z 1000; inject_Z 1100]) s))
  /\ (exists m s,
        calculate_historical_stats sample_monitor
          (JArr (sample_history [1000])) =
          Ok {[ "total_traffic" := {| mean := m; stdev := s; count := 1 |} ]}
        /\ nearest_double (arithmetic_mean [inject_Z 1000]) m
        /\ (1%nat = 1%nat -> s = Float.zero)
        /\ ((2 <= 1)%nat ->
            nearest_double_sqrt (sample_variance [inject_Z 1000]) s)).
Proof.
  split.
  - apply (proj2 (baseline_statistics sample_monitor)
             (sample_history [900; 1000; 1100])
             (map Float.of_Z [900; 1000; 1100])
             [inject_Z 900; inject_Z 1000; inject_Z 1100]);
      [reflexivity| |reflexivity|simpl; lia].
    repeat (constructor; [by vm_compute|]). constructor.
  - apply (proj2 (baseline_statistics sample_monitor)
             (sample_history [1000]) (map Float.of_Z [1000])
             [inject_Z 1000]);
      [reflexivity| |reflexivity|simpl; lia].
    repeat (constructor; [by vm_compute|]). constructor.
Defined.

(** ** C6: which line the parser reports *)

(** C6, as the claim states it, fails: the last line that parses
    structurally is the one labelled 14:35, and the parser reports the
    interval labelled 14:25. *)
Lemma last_structural_line_skipped :
  last (filter (fun l => structurally_parses l = true)
               (lines malformed_output)) = Some malformed_line
  /\ Re.search_time malformed_line = Some "14:35"
  /\ exists m,
       (get_current_traffic_data sample_monitor malformed_world).1
       = Ok (Some m)
       /\ time m = "14:25".
Proof.
  split_and!; [by vm_compute|by vm_compute|].
  eexists. split; [by vm_compute|done].
Qed.

(** C6, amended.  The parser's result is the measurement of the last
    line of the text that parses structurally and whose four quantities
    convert; a line with fewer than four fields, without a time label,
    or with a quantity [float] rejects is skipped without aborting the
    parse; when no line yields a measurement, or the counter source
    fails, the result is absent. *)
Theorem parser_reports_last_measurement (self : TrafficMonitor) (w : world) :
  (get_current_traffic_data self w).1 =
    Ok (match vnstat w with
        | VnstatOutput output =>
            let ms := omap line_measurement (lines output) in
            match last ms with
            | Some f => Some (f (clock w (ticks w + length ms - 1)%nat))
            | None => None
            end
        | _ => None
        end)
  /\ (forall line,
        (length (fields line) < 4)%nat \/ Re.search_time line = None ->
        line_measurement line = None)
  /\ (forall line f,
        line_measurement line = Some f -> structurally_parses line = true).
Proof.
  split_and!.
  - apply get_current_traffic_data_fst.
  - intros line [H|H]; unfold line_measurement, structurally_parses.
    + destruct (Nat.leb_spec 4 (length (fields line))); [lia|].
      by rewrite andb_false_r.
    + rewrite H. by rewrite bool_decide_false by by intros [? ?].
  - intros line f. unfold line_measurement.
    by destruct (structurally_parses line).
Qed.

Lemma parser_reports_last_measurement_witness :
  line_measurement "no data yet" = None
  /\ structurally_parses sample_line_2 = true.
Proof.
  split.
  - apply (proj1 (proj2 (parser_reports_last_measurement sample_monitor
                           malformed_world))).
    left. vm_compute. lia.
  - pose (f := fun ts : string =>
        {| timestamp := ts; time := "14:30";
           rx_bytes := S754_finite false 5404319552844595 (-32);
           tx_bytes := S754_finite false 8796093022208000 (-34);
           total_bytes := S754_finite false 7656119366529843 (-32);
           avg_rate_bps := S754_finite false 8246337208320000 (-36) |}).
    apply (proj2 (proj2 (parser_reports_last_measurement sample_monitor
                           malformed_world))
             sample_line_2 f).
    reflexivity.
Defined.

(** ** C7: a run without a measurement *)

(** C7.  Whenever no measurement is obtainable, because the counter
    source fails or because no line of its output yields one, the parser
    returns nothing, and the run reports failure, sends no notification
    and leaves the history file untouched. *)
Theorem run_without_measurement (self : TrafficMonitor) (w : world) :
  no_measurement w ->
  (get_current_traffic_data self w).1 = Ok None
  /\ exists w',
       run_check self w = (Ok false, w')
       /\ posted w' = posted w
       /\ history_file w' = history_file w.
Proof.
  intros H. split; [|by apply run_check_no_measurement].
  rewrite get_current_traffic_data_fst. unfold no_measurement in H.
  destruct (vnstat w) as [output| | |]; [|done..].
  unfold parsed. by rewrite H.
Qed.

Lemma run_without_measurement_witness :
  (get_current_traffic_data sample_monitor failed_source_world).1 = Ok None
  /\ exists w',
       run_check sample_monitor failed_source_world = (Ok false, w')
       /\ posted w' = []
       /\ history_file w' = FileJSON (JArr (sample_history [900; 1000; 1100])).
Proof.
  apply (run_without_measurement sample_monitor failed_source_world).
  exact I.
Defined.

(** ** C8: loading the history *)

(** C8.  The claim is what a fault-tolerant loader has to do, and the
    code departs from it: [load_history] catches the errors of opening
    and of parsing the file only, and takes the length of what it read
    inside the same block.  A history file that holds the JSON value
    [null] is neither: [load_history] raises [TypeError], the run sends
    one health check with the status error, leaves the file as it is
    and reports failure. *)
Theorem null_history_fails_run :
  history_file null_history_world = FileJSON JNull
  /\ (load_history sample_monitor null_history_world).1 = Raise TypeError
  /\ ~ returns (load_history sample_monitor null_history_world).1
  /\ (run_check sample_monitor null_history_world).1 = Ok false
  /\ history_file (run_check sample_monitor null_history_world).2
     = FileJSON JNull
  /\ exists h,
       posted (run_check sample_monitor null_history_world).2
       = [HealthCheck h]
       /\ hc_status h = "error".
Proof.
  split_and!; [done|by vm_compute| |by vm_compute|by vm_compute|].
  - intros [x H]. by vm_compute in H.
  - eexists. split; by vm_compute.
Qed.

(** ** C9: parsed measurements are non-negative *)

(** C9.  Every measurement the parser produces has its numeric fields
    non-negative and none of them NaN, and so has the record stored for
    it; a parse that fails produces no measurement. *)
Theorem parsed_fields_nonneg (self : TrafficMonitor) (w : world) :
  (exists r, (get_current_traffic_data self w).1 = Ok r)
  /\ (forall m,
        (get_current_traffic_data self w).1 = Ok (Some m) ->
        Forall (fun x => Float.nonneg x = true /\ Float.is_nan x = false)
               [rx_bytes m; tx_bytes m; total_bytes m; avg_rate_bps m]
        /\ Forall (fun key =>
                     exists x, Py.getitem (current_record m) key = Ok (JNum x)
                               /\ Float.nonneg x = true
                               /\ Float.is_nan x = false)
                  ["rx_bytes"; "tx_bytes"; "total_bytes"; "avg_rate_bps"]).
Proof.
  split; [rewrite get_current_traffic_data_fst; by eexists|].
  intros m. rewrite get_current_traffic_data_fst.
  destruct (vnstat w) as [output| | |]; try done.
  unfold parsed. destruct (last _) as [f|] eqn:L; [|done].
  intros [= <-].
  apply last_Some_elem_of, list_elem_of_omap in L as (line & _ & Hf).
  destruct (line_measurement_plus line f
              (clock w (ticks w + length (omap line_measurement
                                            (lines output)) - 1)%nat) Hf)
    as (H1 & H2 & H3 & H4).
  apply plus_class_nonneg in H1, H2, H3, H4.
  split.
  - repeat constructor; auto using nonneg_not_nan.
  - repeat constructor; eexists; (split; [reflexivity|]);
      auto using nonneg_not_nan.
Qed.

Lemma parsed_fields_nonneg_witness :
  Forall (fun x => Float.nonneg x = true /\ Float.is_nan x = false)
    [S754_finite false 5404319552844595 (-32);
     S754_finite false 8796093022208000 (-34);
     S754_finite false 7656119366529843 (-32);
     S754_finite false 8246337208320000 (-36)].
Proof.
  apply (proj2 (parsed_fields_nonneg sample_monitor spike_world)
           {| timestamp := "2026-01-01T00:00:00"; time := "14:30";
              rx_bytes := S754_finite false 5404319552844595 (-32);
              tx_bytes := S754_finite false 8796093022208000 (-34);
              total_bytes := S754_finite false 7656119366529843 (-32);
              avg_rate_bps := S754_finite false 8246337208320000 (-36) |}).
  reflexivity.
Defined.

(** ** C10: the spike alert *)

(** C10.  Every spike alert carries the constant 2.0 as its threshold
    and the z-score rounded to two decimal places as its score.  The
    dictionary [send_spike_alert] builds has the threshold 2.0 whatever
    its inputs are, and as its score, for every z-score the detector
    computes, a double nearest to [k / 100], [k] being the integer
    nearest to a hundred times the z-score (the even one of two); a
    z-score that is not finite is passed on.  Every alert a run sends
    has that threshold, and as its score the rounded z-score of the
    traffic it reports against the statistics it reports.  The
    byte-valued cutoff [mean + 2.0 * stdev] is not what the field
    holds: for the baseline of mean 1000 and deviation 100 and a
    traffic of 1.70 MiB the cutoff is 1200, the field is 2.0, and the
    score is the double nearest to 17815.79. *)
Theorem spike_alert_threshold_and_score :
  (forall self current_data total mean stdev st,
     let z := z_score_of total mean stdev in
     sa_threshold (alert_data self current_data z st) = Float.of_Z 2
     /\ rounded_to_two_places z
          (sa_z_score (alert_data self current_data z st)))
  /\ (forall self current_data z st,
        sa_threshold (alert_data self current_data z st) = Float.of_Z 2)
  /\ (forall self w,
        exists new,
          posted (run_check self w).2 = posted w ++ new
          /\ Forall payload_as_specified new)
  /\ (exists a h,
        posted (run_check sample_monitor spike_world).2
        = [SpikeAlert a; HealthCheck h]
        /\ sa_threshold a = Float.of_Z 2
        /\ Float.add (as_mean (sa_historical_stats a))
             (Float.mul SPIKE_THRESHOLD (as_stdev (sa_historical_stats a)))
           = Float.of_Z 1200
        /\ convert_to_bytes "1.70 MiB"
           = Ok (ct_total_bytes (sa_current_traffic a))
        /\ as_mean (sa_historical_stats a) = Float.of_Z 1000
        /\ as_stdev (sa_historical_stats a) = Float.of_Z 100
        /\ sa_z_score a = Float.of_ratio false 1781579 100
        /\ nearest_double (1781579 # 100) (sa_z_score a)).
Proof.
  split_and!.
  - intros self current_data total mean stdev st z. split; [done|].
    apply round2_spec, div_valid.
  - done.
  - intros self w.
    destruct (triple_run_check self w) as [[_ (new & E & H)] _].
    exists new. split; [done|].
    eapply Forall_impl; [exact H|]. apply payload_ok_as_specified.
  - remember (posted (run_check sample_monitor spike_world).2) as sent eqn:E.
    vm_compute in E. subst sent.
    eexists _, _. split; [reflexivity|].
    split_and!; try (vm_compute; reflexivity).
    apply (of_ratio_nearest false 1781579 100); [done|by vm_compute].
Qed.

(** * Further properties of the module *)

(** ** Baseline statistics *)

(** X1.  On a non-empty history whose totals are finite doubles that
    are not negative, [calculate_historical_stats] returns: neither
    [statistics.mean] nor [statistics.stdev] raises [OverflowError],
    the count is the number of records, and the mean and the deviation
    are finite and not negative. *)
Theorem baseline_of_byte_totals (self : TrafficMonitor) records xs :
  total_bytes_of records = Ok (map JNum xs) ->
  Forall (fun x => byte_total x = true) xs ->
  (1 <= length xs)%nat ->
  exists st,
    calculate_historical_stats self (JArr records) =
      Ok {[ "total_traffic" := st ]}
    /\ count st = length records
    /\ Float.is_finite (mean st) = true /\ Float.nonneg (mean st) = true
    /\ Float.is_finite (stdev st) = true /\ Float.nonneg (stdev st) = true.
Proof.
  intros Ht Hx Hn.
  destruct (calculate_returns self records xs Ht Hx Hn)
    as (st & E & Hc & Fm & Pm & Fs & Ps).
  exists st. split_and!; try done; by apply plus_class_nonneg.
Qed.

Lemma baseline_of_byte_totals_witness :
  exists st,
    calculate_historical_stats sample_monitor
      (JArr (sample_history [900; 1000; 1100])) =
      Ok {[ "total_traffic" := st ]}
    /\ count st = length (sample_history [900; 1000; 1100])
    /\ Float.is_finite (mean st) = true /\ Float.nonneg (mean st) = true
    /\ Float.is_finite (stdev st) = true /\ Float.nonneg (stdev st) = true.
Proof.
  apply (baseline_of_byte_totals sample_monitor
           (sample_history [900; 1000; 1100])
           (map Float.of_Z [900; 1000; 1100]));
    [reflexivity|repeat constructor|simpl; lia].
Defined.

(** X2.  A history of one or more records whose totals are all the
    same finite value [x] that is not negative has that value as its
    mean, without any rounding (as [+0.0] when [x] is a zero), a
    deviation of exactly 0 and the number of records as its count;
    against such a baseline [detect_spike] reports no spike, whatever
    the current traffic is. *)
Theorem flat_history_never_spikes (self : TrafficMonitor) records n x
    current_data w :
  total_bytes_of records = Ok (replicate n (JNum x)) ->
  byte_total x = true -> (1 <= n)%nat ->
  let hs : gmap string traffic_stats :=
    {[ "total_traffic" :=
         {| mean := unsigned_zero x; stdev := Float.zero; count := n |} ]} in
  calculate_historical_stats self (JArr records) = Ok hs
  /\ (detect_spike self current_data hs w).1 = Ok (false, Float.zero).
Proof.
  intros Ht Hx Hn hs. split; [by apply calculate_constant|].
  eapply detect_spike_flat; [apply lookup_singleton_eq|done].
Qed.

Lemma flat_history_never_spikes_witness :
  calculate_historical_stats sample_monitor
    (JArr (sample_history [1000; 1000; 1000])) =
    Ok {[ "total_traffic" :=
            {| mean := Float.of_Z 1000; stdev := Float.zero; count := 3 |} ]}
  /\ (detect_spike sample_monitor (sample_measurement 5000000)
        {[ "total_traffic" :=
             {| mean := Float.of_Z 1000; stdev := Float.zero;
                count := 3 |} ]}
        spike_world).1 = Ok (false, Float.zero).
Proof.
  apply (flat_history_never_spikes sample_monitor
           (sample_history [1000; 1000; 1000]) 3 (Float.of_Z 1000)
           (sample_measurement 5000000) spike_world);
    [reflexivity|reflexivity|lia].
Defined.

(** X3.  The statistics stop at the first record from which
    [record['total_bytes']] cannot be read, with the exception that
    subscript raises: [KeyError] for an object without the key,
    [TypeError] for a record that is not an object. *)
Theorem unreadable_record_stops_statistics (self : TrafficMonitor)
    pre r post e :
  Forall (fun r => returns (Py.getitem r "total_bytes")) pre ->
  Py.getitem r "total_bytes" = Raise e ->
  calculate_historical_stats self (JArr (pre ++ r :: post)) = Raise e.
Proof.
  intros Hpre Hr. unfold calculate_historical_stats.
  assert (Py.truthy (JArr (pre ++ r :: post)) = true) as ->.
  { simpl. rewrite length_app. simpl.
    rewrite bool_decide_false by lia. done. }
  simpl.
  assert (total_bytes_of (pre ++ r :: post) = Raise e) as ->; [|done].
  induction Hpre as [|r' pre [x Hr'] _ IH]; simpl.
  - by rewrite Hr.
  - by rewrite Hr', IH.
Qed.

Lemma unreadable_record_stops_statistics_witness :
  calculate_historical_stats sample_monitor
    (JArr (sample_history [900] ++ partial_record :: [])) = Raise KeyError
  /\ calculate_historical_stats sample_monitor
       (JArr ([] ++ JStr "14:20" :: sample_history [900])) = Raise TypeError.
Proof.
  split.
  - apply (unreadable_record_stops_statistics sample_monitor
             (sample_history [900]) partial_record [] KeyError);
      [|reflexivity].
    repeat constructor. by eexists.
  - apply (unreadable_record_stops_statistics sample_monitor
             [] (JStr "14:20") (sample_history [900]) TypeError);
      [constructor|reflexivity].
Defined.

(** ** Run controller *)




(** X6.  The run that fails after the measurement.  When loading the
    history or computing its statistics raises an exception [e],
    [run_check] sends exactly one notification, a health check with the
    status error that carries [e], sends no spike alert, leaves the
    history file as it was and returns [False]. *)
Theorem run_reports_failed_baseline (self : TrafficMonitor) w output
    current_data e :
  vnstat w = VnstatOutput output ->
  parsed w output = Some current_data ->
  (load_history self w).1 = Raise e
  \/ (exists history,
        (load_history self w).1 = Ok history
        /\ calculate_historical_stats self history = Raise e) ->
  exists w' p,
    run_check self w = (Ok false, w')
    /\ same_env w w' /\ sent w w' [p]
    /\ reports self "error" (Some e) p
    /\ history_file w' = history_file w.
Proof.
  intros V Hp H.
  apply (run_check_baseline_fails self w output current_data e V Hp).
  unfold baseline, mbind, M_bind, lift.
  destruct (load_history self w) as [[history|e'] w1]; simpl in *.
  - destruct H as [|(history' & [= <-] & C)]; [done|]. by rewrite C.
  - destruct H as [[= <-]|(history' & ? & _)]; done.
Qed.

Lemma run_reports_failed_baseline_witness :
  exists w' p,
    run_check sample_monitor partial_record_world = (Ok false, w')
    /\ same_env partial_record_world w'
    /\ sent partial_record_world w' [p]
    /\ reports sample_monitor "error" (Some KeyError) p
    /\ history_file w' = history_file partial_record_world.
Proof.
  apply (run_reports_failed_baseline sample_monitor partial_record_world
           sample_output spike_measurement KeyError);
    [reflexivity|by vm_compute|].
  right. exists (JArr (sample_history [900] ++ [partial_record])).
  split; reflexivity.
Defined.

(** X7.  A history file that holds an empty JSON object or an empty
    string passes for an empty history until the append: the run sends
    the healthy health check, [history.append] raises [AttributeError],
    a second health check reports the error, the file is left as it was
    and the run returns [False]. *)
Theorem empty_non_list_history (self : TrafficMonitor) w output
    current_data :
  vnstat w = VnstatOutput output ->
  parsed w output = Some current_data ->
  history_file w = FileJSON (JObj [])
  \/ history_file w = FileJSON (JStr "") ->
  exists w' p1 p2,
    run_check self w = (Ok false, w')
    /\ same_env w w' /\ sent w w' [p1; p2]
    /\ reports self "healthy" None p1
    /\ reports self "error" (Some AttributeError) p2
    /\ history_file w' = history_file w.
Proof.
  intros V Hp [F|F].
  - by apply (run_check_append_fails self w output current_data
                (JObj []) 0%nat).
  - by apply (run_check_append_fails self w output current_data
                (JStr "") 0%nat).
Qed.

Lemma empty_non_list_history_witness :
  exists w' p1 p2,
    run_check sample_monitor empty_object_world = (Ok false, w')
    /\ same_env empty_object_world w'
    /\ sent empty_object_world w' [p1; p2]
    /\ reports sample_monitor "healthy" None p1
    /\ reports sample_monitor "error" (Some AttributeError) p2
    /\ history_file w' = history_file empty_object_world.
Proof.
  apply (empty_non_list_history sample_monitor empty_object_world
           sample_output spike_measurement);
    [reflexivity|by vm_compute|by left].
Defined.

(** X8.  With fewer than two records in the history file no run sends
    a spike alert, whatever the traffic: there is no baseline, or its
    deviation is 0. *)
Theorem no_alert_before_two_records (self : TrafficMonitor) w h :
  loaded_records (history_file w) = Some h -> (length h <= 1)%nat ->
  exists b w' new,
    run_check self w = (Ok b, w') /\ sent w w' new
    /\ Forall (fun p => is_alert p = false) new.
Proof.
  intros L Hn.
  destruct (run_check_cases self w) as (b & w' & new & E & Q & S & H).
  exists b, w', new. split; [done|]. split; [done|].
  destruct H as [(-> & -> & F)
                |[(-> & F & p & e & -> & R)
                 |[(-> & F & _ & p1 & p2 & -> & R1 & R2)
                  |(-> & cd & h' & hs & r & p & L' & C & D & -> & R & _)]]].
  - constructor.
  - repeat constructor. by destruct p.
  - repeat constructor; [by destruct p1|by destruct p2].
  - rewrite L in L'. injection L' as <-.
    rewrite (no_spike_on_short_history self cd h hs r Hn C D).
    repeat constructor. by destruct p.
Qed.

Lemma no_alert_before_two_records_witness :
  exists b w' new,
    run_check sample_monitor single_record_world = (Ok b, w')
    /\ sent single_record_world w' new
    /\ Forall (fun p => is_alert p = false) new.
Proof.
  apply (no_alert_before_two_records sample_monitor single_record_world
           (sample_history [900])); [reflexivity|simpl; lia].
Defined.

(** ** Notifier *)

(** X9.  [send_to_apps_script] makes exactly one request and never
    raises when the request fails with a [RequestException]: it returns
    whether the request was delivered, logs an error exactly when it
    was not, and leaves the history file alone. *)
Theorem send_to_apps_script_outcome (self : TrafficMonitor) data w :
  exists w',
    send_to_apps_script self data w = (Ok (endpoint_up w data), w')
    /\ same_env w w' /\ sent w w' [data]
    /\ history_file w' = history_file w
    /\ exists l msg,
         last (log w') = Some (l, msg)
         /\ (l = ERROR <-> endpoint_up w data = false).
Proof.
  unfold send_to_apps_script, requests_post, sent. run.
  destruct (endpoint_up w data); simpl; [destruct (debug self); simpl|];
    (eexists; split; [reflexivity|]; split; [by repeat split|];
     split; [done|]; split; [done|]; simpl;
     eexists _, _; split; [apply last_snoc|]; by split).
Qed.

(** X10.  [send_health_check] sends exactly one notification, a health
    check with the status healthy that carries the identity of the
    monitor and the timestamp of the measurement.  It returns normally
    whether or not the notification is delivered, and prints the one
    or the other outcome. *)
Theorem send_health_check_outcome (self : TrafficMonitor) current_data w :
  exists w' h,
    send_health_check self current_data w = (Ok tt, w')
    /\ sent w w' [HealthCheck h]
    /\ reports self "healthy" None (HealthCheck h)
    /\ hc_timestamp h = timestamp current_data
    /\ history_file w' = history_file w
    /\ last (log w') =
         Some (STDOUT,
               if endpoint_up w (HealthCheck h)
               then "Health check sent successfully - {server_name} ({server_ip}) - {interface}"
               else "Health check failed - {server_name} ({server_ip}) - {interface}").
Proof.
  unfold send_health_check, sent.
  match goal with
  | |- context [send_to_apps_script self (HealthCheck ?d)] =>
      destruct (send_to_apps_script_spec self (HealthCheck d) w)
        as (w1 & E & Q & Hp & Hf); exists
          (set_log (log w1 ++
             [(STDOUT,
               if endpoint_up w (HealthCheck d)
               then "Health check sent successfully - {server_name} ({server_ip}) - {interface}"
               else "Health check failed - {server_name} ({server_ip}) - {interface}")]) w1), d
  end.
  unfold mbind, M_bind. rewrite E.
  split; [by destruct (endpoint_up w _)|].
  split; [done|]. split; [by repeat split|]. split; [done|].
  split; [done|]. simpl. apply last_snoc.
Qed.

(** ** History store *)

(** X11.  A history file that cannot be written is not an error to the
    caller: [add_to_history] logs the failure and still returns the
    history with the new record appended.  When the file could not be
    opened it keeps what it held.  When the write broke off after the
    file was opened, the file is left cut off and the stored history is
    lost: the next [load_history] returns the empty list. *)
Theorem unwritable_history_is_silent (self : TrafficMonitor)
    current_data w h :
  history_writable w = false ->
  loaded_records (history_file w) = Some h ->
  exists w',
    add_to_history self current_data w =
      (Ok (Py.last_n MAX_HISTORY (h ++ [current_record current_data])), w')
    /\ posted w' = posted w
    /\ last (log w') = Some (ERROR, "Failed to save history file: {e}")
    /\ match history_fault w with
       | OpenFails => history_file w' = history_file w
       | DumpFails =>
           history_file w' = FileNotJSON
           /\ (load_history self w').1 = Ok (JArr [])
       end.
Proof.
  intros W L. unfold add_to_history.
  destruct (load_history_loaded self w h L) as (w1 & E1 & Q1).
  unfold mbind at 1, M_bind at 1. rewrite E1.
  unfold mbind at 1, M_bind at 1, lift, py_append. cbv zeta.
  rewrite trim_last_n.
  destruct Q1 as ((_ & _ & W1 & D1 & _) & P1 & F1). rewrite W in W1.
  unfold save_history, write_history_file, try_except, mbind, M_bind.
  rewrite trim_last_n, W1, D1.
  destruct (history_fault w); simpl;
    (eexists; split; [reflexivity|]; simpl;
     split; [done|]; split; [apply last_snoc|]); [done|by split].
Qed.

Lemma unwritable_history_is_silent_witness :
  (exists w',
     add_to_history sample_monitor spike_measurement offline_world =
       (Ok (Py.last_n MAX_HISTORY
              (sample_history [900; 1000; 1100]
               ++ [current_record spike_measurement])), w')
     /\ history_file w' = history_file offline_world)
  /\ (exists w',
        add_to_history sample_monitor spike_measurement broken_write_world =
          (Ok (Py.last_n MAX_HISTORY
                 (sample_history [900; 1000; 1100]
                  ++ [current_record spike_measurement])), w')
        /\ history_file w' = FileNotJSON
        /\ (load_history sample_monitor w').1 = Ok (JArr [])).
Proof.
  split.
  - destruct (unwritable_history_is_silent sample_monitor spike_measurement
                offline_world (sample_history [900; 1000; 1100])
                eq_refl eq_refl) as (w' & E & _ & _ & F).
    by exists w'.
  - destruct (unwritable_history_is_silent sample_monitor spike_measurement
                broken_write_world (sample_history [900; 1000; 1100])
                eq_refl eq_refl) as (w' & E & _ & _ & F & Ld).
    by exists w'.
Defined.

(** ** Rates and formatting *)

(** X12.  Take any string and strip and lower-case it.  When the text
    starts with a run of digits and points, optional blanks, an
    optional prefix k, m, g or t, optional blanks and [bit/s],
    [convert_rate_to_bps] yields [float(run) * 1000^k] with k = 0, 1,
    2, 3, 4 for no prefix, k, m, g, t (raising where [float] does);
    for every other text, a rate in bytes per second among them, it
    yields 0.0. *)
Theorem convert_rate_to_bps_units (s : string) :
  (forall mag ws1 u ws2 rest k,
     Str.lower (Str.strip s) =
       mag +:+ ws1 +:+ u +:+ ws2 +:+ "bit/s" +:+ rest ->
     number_token mag -> blanks ws1 -> blanks ws2 ->
     rate_unit u = Some k ->
     convert_rate_to_bps s =
       rbind (py_float mag)
             (fun v => Ok (Float.mul v (Float.of_Z (1000 ^ k)))))
  /\ (~ rate_text (Str.lower (Str.strip s)) ->
      convert_rate_to_bps s = Ok Float.zero).
Proof.
  split.
  - intros. by eapply convert_rate_scaled.
  - apply convert_rate_zero.
Qed.

Lemma convert_rate_to_bps_units_witness :
  convert_rate_to_bps "  47.51 Mbit/s" =
    rbind (py_float "47.51")
          (fun v => Ok (Float.mul v (Float.of_Z (1000 ^ 2))))
  /\ convert_rate_to_bps "1.20 MiB/s" = Ok Float.zero.
Proof.
  split.
  - apply (proj1 (convert_rate_to_bps_units "  47.51 Mbit/s")
             "47.51" " " "m" "" "" 2);
      [reflexivity| |reflexivity|reflexivity|reflexivity].
    split; [discriminate|reflexivity].
  - apply (proj2 (convert_rate_to_bps_units "1.20 MiB/s")).
    intros (mag & ws1 & u & ws2 & rest & Ht & _).
    assert (C : Str.contains "bit/s" (Str.lower (Str.strip "1.20 MiB/s"))
                = true).
    { rewrite Ht. do 4 apply contains_later.
      apply contains_prefix, starts_with_app. }
    discriminate C.
Defined.

(** X13.  [format_bytes] on a positive double [m * 2^e]: the unit is
    B, KiB, MiB, GiB, TiB or PiB according to [floor(log2(x) / 10)],
    PiB from 2^50 on, and the number shown with two decimals is the
    value divided by that power of 1024, without any rounding error in
    the division; below PiB the number shown is less than 1024. *)
Theorem format_bytes_scaled (self : TrafficMonitor) m e :
  valid_binary Float.prec Float.emax (S754_finite false m e) = true ->
  let k := Z.min 5 (Z.max 0 ((e + 52) / 10)) in
  let shown := S754_finite false m (e - 10 * k) in
  format_bytes self (S754_finite false m e) =
    Py.format_2f shown +:+ " "
    +:+ nth (Z.to_nat k) ["B"; "KiB"; "MiB"; "GiB"; "TiB"; "PiB"] ""
  /\ (k < 5 -> Float.ltb shown (Float.of_Z 1024) = true).
Proof.
  intros V k shown. split; [by apply format_bytes_ladder|].
  intros Hk. apply valid_normal in V as [He Hn].
  unfold shown. rewrite ltb_1024.
  - apply Z.ltb_lt. unfold k in *. Z.div_mod_to_equations. lia.
  - destruct Hn as [Hn|Hn]; [by left|right].
    unfold k in *. Z.div_mod_to_equations. lia.
Qed.

Lemma format_bytes_scaled_witness :
  format_bytes sample_monitor (S754_finite false 6755399441055744 (-42))
    = "1.50 KiB"
  /\ Float.of_Z 1536 = S754_finite false 6755399441055744 (-42).
Proof.
  split; [|reflexivity].
  rewrite (proj1 (format_bytes_scaled sample_monitor 6755399441055744
                    (-42) eq_refl)).
  reflexivity.
Defined.

(** X14.  The ladder of units is only climbed by values that compare as
    at least 1024 (1000 for a rate): every negative value and both
    zeros are shown unscaled in B (bit/s), however large the magnitude,
    while NaN and plus infinity, for which no comparison holds, come
    out with the last unit, PiB (Tbit/s). *)
Theorem format_outside_the_ladder (self : TrafficMonitor) :
  (forall x,
     Float.ltb x Float.zero = true \/ Float.eqb x Float.zero = true ->
     format_bytes self x = Py.format_2f x +:+ " B"
     /\ format_rate self x = Py.format_2f x +:+ " bit/s")
  /\ format_bytes self S754_nan = "nan PiB"
  /\ format_bytes self (S754_infinity false) = "inf PiB"
  /\ format_rate self S754_nan = "nan Tbit/s"
  /\ format_rate self (S754_infinity false) = "inf Tbit/s".
Proof.
  split; [|by vm_compute].
  intros x H. unfold format_bytes, format_rate. cbn [format_loop].
  assert (Float.ltb x (Float.of_Z 1024) = true
          /\ Float.ltb x (Float.of_Z 1000) = true) as [-> ->].
  { destruct x as [s|s| |s m e]; destruct H as [H|H]; try done;
      try (by destruct s). }
  done.
Qed.

Lemma format_outside_the_ladder_witness :
  format_bytes sample_monitor (Float.of_Z (-5000000)) = "-5000000.00 B"
  /\ format_rate sample_monitor (Float.of_Z (-5000000))
     = "-5000000.00 bit/s".
Proof.
  apply (proj1 (format_outside_the_ladder sample_monitor)
           (Float.of_Z (-5000000))).
  left. reflexivity.
Defined.

(** ** Construction and entry point *)

(** X15.  The URL of the service and the path of the history file are
    module-level names shared by every monitor of the process: after
    any sequence of constructor calls each holds the last argument that
    was given, where [None] and the empty string do not count as
    given, and its previous value when none was. *)
Theorem constructors_share_settings (calls : list init_args)
    (g : settings) :
  APPS_SCRIPT_URL (construct_all calls g) =
    default (APPS_SCRIPT_URL g) (last_given (map arg_apps_script_url calls))
  /\ HISTORY_FILE (construct_all calls g) =
       default (HISTORY_FILE g) (last_given (map arg_history_file calls)).
Proof.
  induction calls as [|a calls [IH1 IH2]] using rev_ind; [done|].
  unfold construct_all in *. rewrite foldl_app, !map_app. simpl.
  rewrite !last_given_snoc.
  split.
  - destruct (given (arg_apps_script_url a)) eqn:G; [|done].
    by rewrite (given_default _ G) at 2.
  - destruct (given (arg_history_file a)) eqn:G; [|done].
    by rewrite (given_default _ G) at 2.
Qed.

(** X16.  [main] ends with the exit status 0 or 1 and never with an
    uncaught exception of the check.  The status is 0 exactly when the
    check went through, in which case the last notification sent is
    the healthy health check of the monitor named on the command line;
    with the status 1 the history file is as it was.  An empty
    [--apps-script-url] leaves the URL of the module in force. *)
Theorem main_exit_status (args : Namespace) (g : settings) (w : world) :
  exists status g' w' new,
    main args g w = (Ok (status, g'), w') /\ sent w w' new
    /\ ((status = 0
         /\ exists p,
              last new = Some p
              /\ reports {| server_name := ns_server_name args;
                            server_ip := ns_server_ip args;
                            interface := ns_interface args;
                            debug := ns_debug args |} "healthy" None p)
        \/ (status = 1 /\ history_file w' = history_file w))
    /\ APPS_SCRIPT_URL g' =
         (if bool_decide (ns_apps_script_url args = "")
          then APPS_SCRIPT_URL g else ns_apps_script_url args).
Proof.
  unfold main, __init__. cbn [arg_server_name arg_server_ip arg_interface
    arg_apps_script_url arg_history_file arg_debug given default].
  set (monitor := {| server_name := ns_server_name args;
                     server_ip := ns_server_ip args;
                     interface := ns_interface args;
                     debug := ns_debug args |}).
  destruct (run_check_cases monitor w) as (b & w' & new & E & Q & S & H).
  unfold mbind, M_bind. rewrite E.
  exists (if b then 0 else 1). eexists _, w', new.
  split; [reflexivity|]. split; [done|]. split.
  - destruct H as [(-> & -> & F)
                  |[(-> & F & _)
                   |[(-> & F & _)
                    |(-> & cd & h & hs & r & p & _ & _ & _ & -> & R & _)]]];
      try (by right).
    left. split; [done|]. exists p. split; [apply last_snoc|done].
  - simpl. by destruct (bool_decide (ns_apps_script_url args = "")).
Qed.

(** ** Sample parser *)

(** X17.  Every measurement the parser returns carries as its time the
    label found in the first field of its line, two digits, a colon and
    two digits, and as its timestamp a reading of the clock taken
    during the parse. *)
Theorem measurement_label_and_stamp (self : TrafficMonitor) w
    current_data :
  (get_current_traffic_data self w).1 = Ok (Some current_data) ->
  (exists a b c d,
     time current_data =
       String a (String b (String ":" (String c (String d ""))))
     /\ Str.is_digit a = true /\ Str.is_digit b = true
     /\ Str.is_digit c = true /\ Str.is_digit d = true)
  /\ exists n, (ticks w <= n)%nat /\ timestamp current_data = clock w n.
Proof.
  rewrite get_current_traffic_data_fst.
  destruct (vnstat w) as [output| | |]; try done.
  intros [= Hp]. destruct (parsed_label w output current_data Hp)
    as [Hts (line & _ & Hl)].
  split; [|done]. by eapply search_time_label.
Qed.

Lemma measurement_label_and_stamp_witness :
  (exists a b c d,
     time spike_measurement =
       String a (String b (String ":" (String c (String d ""))))
     /\ Str.is_digit a = true /\ Str.is_digit b = true
     /\ Str.is_digit c = true /\ Str.is_digit d = true)
  /\ exists n, (ticks spike_world <= n)%nat
               /\ timestamp spike_measurement = clock spike_world n.
Proof.
  apply (measurement_label_and_stamp sample_monitor spike_world
           spike_measurement).
  by vm_compute.
Defined.

(** ** Notifications and the stored history *)

(** X18.  Every notification a run sends is consistent in itself: it
    names the monitor that ran, each formatted field of a spike alert
    is the rendering by [format_bytes] or [format_rate] of the number
    sent beside it, and a health check is either healthy without an
    error message or an error with one. *)
Theorem notifications_are_consistent (self : TrafficMonitor) (w : world) :
  exists new,
    sent w (run_check self w).2 new /\ Forall (consistent self) new.
Proof.
  enough (T : triple (consistent self) (run_check self) (fun _ => True)).
  { destruct (T w) as [[_ (new & E & H)] _]. by exists new. }
  unfold run_check.
  eapply triple_bind; [apply triple_logger|]. intros _ _.
  apply triple_try.
  - eapply triple_bind;
      [apply triple_quiet, get_current_traffic_data_quiet|].
    intros [current_data|] _.
    + eapply triple_bind; [apply triple_logger|]. intros _ _.
      eapply triple_bind; [apply triple_quiet, load_history_quiet|].
      intros history _.
      eapply triple_bind; [apply triple_lift|]. intros hs _.
      eapply triple_bind; [apply triple_detect_spike|].
      intros [is_spike z] _.
      eapply triple_bind with (Q := fun _ => True).
      * destruct is_spike; [|apply triple_logger].
        eapply triple_bind; [apply triple_logger|]. intros _ _.
        unfold send_spike_alert.
        destruct (hs !! "total_traffic") as [st|]; [|apply triple_raise].
        eapply triple_bind; [apply triple_send_to_apps_script|].
        -- by repeat split.
        -- intros. by apply triple_ret.
      * intros _ _.
        eapply triple_bind.
        -- unfold send_health_check.
           eapply triple_bind; [apply triple_send_to_apps_script|].
           ++ repeat split; by left.
           ++ intros [] _; apply triple_logger.
        -- intros _ _.
           eapply triple_bind; [apply triple_add_to_history|]. intros _ _.
           eapply triple_bind; [apply triple_logger|]. intros _ _.
           by apply triple_ret.
    + eapply triple_bind; [apply triple_logger|]. intros _ _.
      by apply triple_ret.
  - intros e.
    eapply triple_bind; [apply triple_logger|]. intros _ _.
    eapply triple_bind; [apply triple_now|]. intros ts _.
    eapply triple_bind with (Q := fun _ => True).
    + apply triple_try; [apply triple_send_to_apps_script|].
      * repeat split; right; by split.
      * intros. by apply triple_ret.
    + intros _ _. by apply triple_ret.
Qed.

(** X20.  Reading a text of [format_bytes] back with
    [convert_to_bytes]: for a positive double below 2^50 the result is
    the value rounded to two decimals in its unit, times that unit;
    from 2^50 on the text ends in PiB, a unit the converter does not
    know, and the result is 0.0. *)
Theorem formatted_bytes_read_back (self : TrafficMonitor) m e :
  valid_binary Float.prec Float.emax (S754_finite false m e) = true ->
  let k := Z.min 5 (Z.max 0 ((e + 52) / 10)) in
  convert_to_bytes (format_bytes self (S754_finite false m e)) =
    Ok (if k <? 5
        then Float.mul (Py.round2 (S754_finite false m (e - 10 * k)))
                       (Float.of_Z (1024 ^ k))
        else Float.zero).
Proof.
  intros V. rewrite format_bytes_ladder by done. cbv zeta.
  assert (Hk : let k := Z.min 5 (Z.max 0 ((e + 52) / 10)) in
               k = 0 \/ k = 1 \/ k = 2 \/ k = 3 \/ k = 4 \/ k = 5)
    by (cbv zeta; Z.div_mod_to_equations; lia).
  cbv zeta in Hk.
  generalize dependent (Z.min 5 (Z.max 0 ((e + 52) / 10))). intros k Hk.
  generalize (e - 10 * k). intros e'.
  pose proof (fixed2_number _ (hundredths_nonneg m e')) as Hmag.
  pose proof (py_float_fixed2 _ (hundredths_nonneg m e')) as Hf.
  change (Py.fixed2 false (Py.hundredths m e'))
    with (Py.format_2f (S754_finite false m e')) in Hmag, Hf.
  unfold convert_to_bytes.
  repeat destruct Hk as [->|Hk]; try subst k;
    cbn [nth Z.to_nat Pos.to_nat Pos.iter_op Nat.add];
    rewrite stripped_quantity by done;
    try (rewrite read_back_unit
           by (done || (unfold unit_forms; rewrite !elem_of_cons; tauto));
         rewrite Hf; reflexivity).
  cbn [Str.lower]. by rewrite match_bytes_pib.
Qed.

Lemma formatted_bytes_read_back_witness :
  convert_to_bytes
    (format_bytes sample_monitor (S754_finite false 6755399441055744 (-42)))
    = Ok (Float.of_Z 1536)
  /\ convert_to_bytes
       (format_bytes sample_monitor
          (S754_finite false 4503599627370496 (-2)))
     = Ok Float.zero
  /\ Float.of_Z (2 ^ 50) = S754_finite false 4503599627370496 (-2).
Proof.
  split; [|split; [|reflexivity]].
  - rewrite (formatted_bytes_read_back sample_monitor
               6755399441055744 (-42)); reflexivity.
  - rewrite (formatted_bytes_read_back sample_monitor
               4503599627370496 (-2)); reflexivity.
Defined.

(** X21.  Over any number of runs, whatever the counter source, the
    clock, the service and the store do in between, a history file
    that loads as a list of at most 20 records keeps loading as a list
    of at most 20 records: runs that fail leave it alone, runs that
    write it append and trim, and a write that breaks off leaves a
    text that loads as the empty list. *)
Theorem history_stays_within_capacity (self : TrafficMonitor) w w' :
  within_capacity (history_file w) -> later self w w' ->
  within_capacity (history_file w').
Proof.
  intros H0 L. induction L as [|w1 w2 L IH E]; [done|].
  destruct (run_check_cases self w2) as (b & w3 & new & R & _ & _ & H).
  rewrite R. cbn [snd]. rewrite <- E in IH.
  destruct H as [(_ & _ & F)
                |[(_ & F & _)
                 |[(_ & F & _)
                  |(_ & cd & h & hs & r & p & _ & _ & _ & _ & _ & F)]]];
    try (by rewrite F).
  rewrite F. unfold written.
  destruct (history_writable w2); [|destruct (history_fault w2)].
  - eexists. split; [reflexivity|]. rewrite last_n_length. lia.
  - done.
  - exists []. split; [done|]. simpl. lia.
Qed.

Lemma history_stays_within_capacity_witness :
  within_capacity
    (history_file
       (run_check sample_monitor
          (run_check sample_monitor spike_world).2).2)
  /\ within_capacity
       (history_file (run_check sample_monitor broken_write_world).2).
Proof.
  split.
  - apply (history_stays_within_capacity sample_monitor spike_world).
    + eexists. split; [reflexivity|]. simpl. unfold MAX_HISTORY. lia.
    + apply (later_run _ _ (run_check sample_monitor spike_world).2);
        [|reflexivity].
      apply (later_run _ _ spike_world); [apply later_now|reflexivity].
  - apply (history_stays_within_capacity sample_monitor broken_write_world).
    + eexists. split; [reflexivity|]. simpl. unfold MAX_HISTORY. lia.
    + apply (later_run _ _ broken_write_world);
        [apply later_now|reflexivity].
Defined.

(** X22.  With a history file that holds records the monitor itself
    wrote, for measurements whose totals are finite, a run that obtains
    a measurement always goes through: the baseline is computed from
    all of them and [run_check] returns [True]. *)
Theorem run_succeeds_on_stored_byte_totals (self : TrafficMonitor) w
    output current_data ms :
  vnstat w = VnstatOutput output ->
  parsed w output = Some current_data ->
  history_file w = FileJSON (JArr (map current_record ms)) ->
  Forall (fun m => byte_total (total_bytes m) = true) ms ->
  exists w' hs,
    run_check self w = (Ok true, w')
    /\ calculate_historical_stats self (JArr (map current_record ms))
       = Ok hs
    /\ (forall st, hs !! "total_traffic" = Some st -> count st = length ms)
    /\ history_file w' =
         written w (Py.last_n MAX_HISTORY
                      (map current_record (ms ++ [current_data]))).
Proof.
  intros V Hp F Hx.
  assert (Ht : total_bytes_of (map current_record ms)
               = Ok (map JNum (map total_bytes ms))).
  { clear. induction ms as [|m ms IH]; [done|].
    cbn [map total_bytes_of].
    change (Py.getitem (current_record m) "total_bytes")
      with (Ok (A:=json) (JNum (total_bytes m))).
    cbn [rbind]. by rewrite IH. }
  assert (C : exists hs,
            calculate_historical_stats self (JArr (map current_record ms))
            = Ok hs).
  { destruct ms as [|m ms]; [by exists ∅|].
    destruct (calculate_returns self _ _ Ht) as (st & E & _);
      [by apply Forall_map|simpl; lia|]. by eexists. }
  destruct C as [hs C].
  destruct (detect_spike_run self current_data hs w)
    as (r & _ & _ & _ & R & _).
  destruct (run_check_completes self w output current_data _ hs r
              V Hp ltac:(by rewrite F) C R)
    as (w' & p & E & _ & _ & _ & F').
  exists w', hs. split; [done|]. split; [done|]. split.
  - intros st Hst. rewrite (calculate_count self _ _ _ C Hst).
    by rewrite length_map.
  - by rewrite map_app.
Qed.

Lemma run_succeeds_on_stored_byte_totals_witness :
  exists w' hs,
    run_check sample_monitor offline_world = (Ok true, w')
    /\ calculate_historical_stats sample_monitor
         (JArr (sample_history [900; 1000; 1100])) = Ok hs
    /\ history_file w' = history_file offline_world.
Proof.
  assert (Hx : Forall (fun m => byte_total (total_bytes m) = true)
                 (map sample_measurement [900; 1000; 1100])).
  { repeat (constructor; [by vm_compute|]). constructor. }
  assert (Hp : parsed offline_world sample_output = Some spike_measurement)
    by by vm_compute.
  destruct (run_succeeds_on_stored_byte_totals sample_monitor offline_world
              sample_output spike_measurement
              (map sample_measurement [900; 1000; 1100])
              eq_refl Hp eq_refl Hx)
    as (w' & hs & E & C & _ & F).
  exists w', hs. split; [exact E|]. split; [exact C|exact F].
Defined.

(** ** The units of the byte converter *)

(** X23.  Take any string and strip and lower-case it.  When the
    text starts with a run of digits and points, optional blanks and one
    of the units b, kib, mib, gib, tib, [convert_to_bytes] yields
    [float(run) * 1024^k] with k = 0, 1, 2, 3, 4 for the unit (raising
    where [float] does); when the text does not start with such a run,
    blanks and a unit spelling, it yields 0.0. *)
Theorem convert_to_bytes_units (s : string) :
  (forall mag ws u rest k,
     Str.lower (Str.strip s) = mag +:+ ws +:+ u +:+ rest ->
     number_token mag -> blanks ws -> binary_unit u = Some k ->
     convert_to_bytes s =
       rbind (py_float mag)
             (fun v => Ok (Float.mul v (Float.of_Z (1024 ^ k)))))
  /\ (~ quantity_text (Str.lower (Str.strip s)) ->
      convert_to_bytes s = Ok Float.zero).
Proof.
  split.
  - intros mag ws u rest k Ht Hmag Hws Hu. unfold convert_to_bytes.
    assert (Hf : u ∈ unit_forms).
    { unfold binary_unit in Hu. unfold unit_forms.
      repeat case_bool_decide; try done; subst;
        rewrite !elem_of_cons; tauto. }
    rewrite Ht, (match_bytes_complete mag ws u rest) by done.
    unfold binary_unit in Hu.
    repeat case_bool_decide; try done; subst; by injection Hu as <-.
  - intros H. unfold convert_to_bytes. by rewrite match_bytes_none.
Qed.

Lemma convert_to_bytes_units_witness :
  convert_to_bytes " 1.20 MiB " =
    rbind (py_float "1.20")
          (fun v => Ok (Float.mul v (Float.of_Z (1024 ^ 2))))
  /\ convert_to_bytes "n/a" = Ok Float.zero.
Proof.
  split.
  - apply (proj1 (convert_to_bytes_units " 1.20 MiB ")
             "1.20" " " "mib" "" 2); [reflexivity| | |reflexivity].
    + split; [discriminate|reflexivity].
    + reflexivity.
  - apply (proj2 (convert_to_bytes_units "n/a")).
    intros (mag & ws & u & rest & Ht & [Hne Hmag] & _).
    destruct mag as [|c mag]; [done|].
    injection Ht as <- _. discriminate.
Defined.

(** ** The outcomes of loading *)

(** X24.  What [load_history] does in each state of the history file.
    When the file is absent, unreadable or not valid JSON it returns
    the empty sequence and logs the condition, and a run that obtained
    a measurement still succeeds.  A file that holds a JSON array,
    object or string is returned as it is stored.  Nothing else is
    caught: a file that holds any other JSON value makes it raise
    [TypeError], bytes that are not text [UnicodeDecodeError], a
    document nested beyond the recursion limit [RecursionError], each
    without a log entry. *)
Theorem load_history_recovery (self : TrafficMonitor) (w : world) :
  (history_file w = FileAbsent \/ history_file w = FileUnreadable
   \/ history_file w = FileNotJSON ->
   (exists entry,
      load_history self w = (Ok (JArr []), set_log (log w ++ [entry]) w))
   /\ (forall output current_data,
         vnstat w = VnstatOutput output ->
         parsed w output = Some current_data ->
         (run_check self w).1 = Ok true))
  /\ (forall v n,
        history_file w = FileJSON v -> Py.len v = Ok n ->
        (load_history self w).1 = Ok v)
  /\ (forall v e,
        history_file w = FileJSON v -> Py.len v = Raise e ->
        load_history self w = (Raise TypeError, w))
  /\ (history_file w = FileUndecodable ->
      load_history self w = (Raise UnicodeDecodeError, w))
  /\ (history_file w = FileTooDeep ->
      load_history self w = (Raise RecursionError, w)).
Proof.
  split_and!.
  - intros H. split.
    + destruct H as [H|H].
      * eexists. by apply load_history_absent.
      * eexists. by apply load_history_unreadable.
    + intros output current_data V Hp.
      eapply run_check_recovers; [done..|].
      by destruct H as [->|[->| ->]].
  - intros v n H L. by erewrite load_history_sized.
  - intros v e. apply load_history_unsized.
  - apply load_history_undecodable.
  - apply load_history_too_deep.
Qed.

Lemma load_history_recovery_witness :
  (exists entry,
     load_history sample_monitor not_json_world =
       (Ok (JArr []), set_log (log not_json_world ++ [entry]) not_json_world))
  /\ (run_check sample_monitor not_json_world).1 = Ok true
  /\ (load_history sample_monitor one_record_world).1
     = Ok (JArr (sample_history [900]))
  /\ load_history sample_monitor null_history_world
     = (Raise TypeError, null_history_world)
  /\ load_history sample_monitor
       (sample_world (VnstatOutput sample_output) FileUndecodable)
     = (Raise UnicodeDecodeError,
        sample_world (VnstatOutput sample_output) FileUndecodable)
  /\ load_history sample_monitor
       (sample_world (VnstatOutput sample_output) FileTooDeep)
     = (Raise RecursionError,
        sample_world (VnstatOutput sample_output) FileTooDeep).
Proof.
  split_and!.
  - apply (proj1 (load_history_recovery sample_monitor not_json_world)).
    auto.
  - eapply (proj1 (load_history_recovery sample_monitor not_json_world));
      [auto|reflexivity|reflexivity].
  - eapply (proj1 (proj2 (load_history_recovery sample_monitor
                            one_record_world))); reflexivity.
  - eapply (proj1 (proj2 (proj2 (load_history_recovery sample_monitor
                                   null_history_world)))); reflexivity.
  - apply (proj1 (proj2 (proj2 (proj2
             (load_history_recovery sample_monitor
                (sample_world (VnstatOutput sample_output)
                   FileUndecodable)))))).
    reflexivity.
  - apply (proj2 (proj2 (proj2 (proj2
             (load_history_recovery sample_monitor
                (sample_world (VnstatOutput sample_output) FileTooDeep)))))).
    reflexivity.
Defined.
